(** * SpaceTimeVariogram: a shallow embedding of skgstat/SpaceTimeVariogram.py

    The class is modelled as a record of its attributes together with
    state-passing methods.  A Python exception leaves every attribute
    assignment made before the [raise] in place, so a method returns both
    its outcome and the state it stopped in. *)

From Stdlib Require Import ZArith QArith Qminmax Qabs Lia Lra String Ascii List Bool.
From stdpp Require Import base list.
Import ListNotations.

Local Open Scope string_scope.
Local Open Scope nat_scope.
Local Open Scope list_scope.

(** ** Python outcomes *)

Inductive exn : Set :=
| ValueError | AttributeError | TypeError | IndexError | NotImplementedError.

Inductive res (A : Type) : Type :=
| Ok (a : A)
| Raise (e : exn).
Arguments Ok {A} a.
Arguments Raise {A} e.

(** A computation over a state of type [S]: the outcome and the state in
    which it stopped. *)
Definition MS (S A : Type) : Type := S -> res A * S.

Definition ret {S A : Type} (a : A) : MS S A := fun s => (Ok a, s).

Definition raise {S A : Type} (e : exn) : MS S A := fun s => (Raise e, s).

Definition bind {S A B : Type} (m : MS S A) (k : A -> MS S B) : MS S B :=
  fun s =>
    match m s with
    | (Ok a, s') => k a s'
    | (Raise e, s') => (Raise e, s')
    end.

(** the value of an expression that may raise but has no effect *)
Definition lift {S A : Type} (r : res A) : MS S A := fun s => (r, s).

(** reading an attribute, and assigning one *)
Definition attr {S T : Type} (f : S -> T) : MS S T := fun s => (Ok (f s), s).

Definition assign {S : Type} (u : S -> S) : MS S unit := fun s => (Ok tt, u s).

Declare Scope py_scope.
Delimit Scope py_scope with py.
Notation "'let!' x ':=' m 'in' k" := (bind m (fun x => k))
  (at level 10, x name, m at level 100, k at level 200) : py_scope.
Notation "m ;; k" := (bind m (fun _ => k))
  (at level 100, k at level 200, right associativity) : py_scope.

(** [for a in l: acc = body(a, acc)]: a loop over [l] threading the local
    variables [acc] *)
Fixpoint for_loop {S A L : Type} (l : list A) (body : A -> L -> MS S L)
    (acc : L) : MS S L :=
  match l with
  | [] => ret acc
  | a :: l' => bind (body a acc) (fun acc' => for_loop l' body acc')
  end.

(** a comprehension [(f(a) for a in l)] run to its end *)
Fixpoint for_list {S A B : Type} (f : A -> MS S B) (l : list A)
  : MS S (list B) :=
  match l with
  | [] => ret []
  | a :: l' =>
      bind (f a) (fun b => bind (for_list f l') (fun bs => ret (b :: bs)))
  end.

(** [range(n)] *)
Definition range (n : nat) : list nat := seq 0 n.

(** ** numpy arrays

    An array carries its dtype, its shape and its elements in row-major
    order.  One-dimensional arrays of distances, bin edges and group indices
    are plain lists. *)

Inductive dtype : Set := float64 | int64 | other_dtype.

Record ndarray (A : Type) : Type := mk_ndarray {
  nd_dtype : dtype;
  shape : list nat;
  data : list A
}.
Arguments mk_ndarray {A} _ _ _.
Arguments nd_dtype {A} _.
Arguments shape {A} _.
Arguments data {A} _.

(** The numeric domain of observations: the floats of the value matrix with
    their subtraction and the NaN the difference matrix is initialised
    with. *)
Class Numeric := {
  V : Type;
  sub : V -> V -> V;
  nan : V
}.

Section Arrays.
Context {A : Type}.

(** [a[i, j]] (and [a[i][j]]) for a two-dimensional array *)
Definition getitem2 (a : ndarray A) (i j : nat) : res A :=
  match shape a with
  | [r; c] =>
      if (i <? r) && (j <? c) then
        match data a !! (i * c + j) with
        | Some x => Ok x
        | None => Raise IndexError
        end
      else Raise IndexError
  | _ => Raise IndexError
  end.

(** [a[i][j] = x] *)
Definition setitem2 (a : ndarray A) (i j : nat) (x : A) : res (ndarray A) :=
  match shape a with
  | [r; c] =>
      if (i <? r) && (j <? c) then
        Ok (mk_ndarray (nd_dtype a) (shape a) (<[i * c + j := x]> (data a)))
      else Raise IndexError
  | _ => Raise IndexError
  end.

(** [a[rows][:, cols].flatten()] with integer index arrays: the entries
    [a[i, j]] for [i] in [rows], [j] in [cols], row by row *)
Definition select2 (a : ndarray A) (rows cols : list nat) : res (list A) :=
  match shape a with
  | [r; c] =>
      if forallb (fun i => i <? r) rows && forallb (fun j => j <? c) cols then
        match mapM (fun ij => data a !! (fst ij * c + snd ij))
                (list_prod rows cols) with
        | Some l => Ok l
        | None => Raise IndexError
        end
      else Raise IndexError
  | _ => Raise IndexError
  end.

(** [np.fromiter(it, dtype=float)]: a one-dimensional array *)
Definition fromiter (l : list A) : ndarray A :=
  mk_ndarray float64 [length l] l.
End Arrays.

(** ** Strict upper triangle

    The index pairs (i, j), i < j < n, in row-major order:
    (0,1), (0,2), ..., (0,n-1), (1,2), ... *)
Definition triu (n : nat) : list (nat * nat) :=
  flat_map (fun i => map (pair i) (seq (S i) (n - S i))) (seq 0 n).



(** ** Lag grouping kernel of [_calc_group]

    Distances and bin edges are finite floats; they are embedded in [Q],
    where the comparisons [>] and [<=] agree with the float ones. *)

(** [d > lo] and [d <= hi] on array elements *)
Definition Qgt_bool (d lo : Q) : bool := negb (Qle_bool d lo).

(** [grp[np.where((d > bounds[0]) & (d <= bounds[1]))] = i] *)
Definition assign_where (d : list Q) (grp : list Z) (i : nat) (bounds : Q * Q)
  : list Z :=
  zip_with (fun x g =>
    if Qgt_bool x (fst bounds) && Qle_bool x (snd bounds) then Z.of_nat i
    else g) d grp.

(** [enumerate(l)] *)
Definition enumerate {A : Type} (l : list A) : list (nat * A) :=
  zip (seq 0 (length l)) l.

(** [grp = np.ones(len(d), dtype=int) * -1], then the classification loop
    over [enumerate(zip([0] + list(bins), bins))] *)
Definition classify (d bins : list Q) : list Z :=
  fold_left (fun grp ib => assign_where d grp (fst ib) (snd ib))
    (enumerate (zip (0%Q :: bins) bins))
    (replicate (length d) (-1)%Z).

(** [np.where(grp == x)[0]]: the positions holding [x] *)
Definition where_eq (grp : list Z) (x : Z) : list nat :=
  filter (fun k => grp !! k = Some x) (seq 0 (length grp)).

(** ** Strings *)

(** [str.lower()] on ASCII text *)
Definition lower_ascii (c : ascii) : ascii :=
  let n := nat_of_ascii c in
  if (65 <=? n) && (n <=? 90) then ascii_of_nat (n + 32) else c.

Fixpoint lower (s : string) : string :=
  match s with
  | EmptyString => EmptyString
  | String c s' => String (lower_ascii c) (lower s')
  end.

(** [s.lower == lit] without the call parentheses compares the bound method
    object with a [str]; the two are never equal. *)
Definition method_eq_str (s lit : string) : bool := false.

(** ** Python values passed to the setters *)

(** A callable (an estimator function): a function of the observations it
    is given that returns a number or raises, and its [__name__], which a
    callable need not have. *)
Record callable `{Numeric} : Type := mk_callable {
  __name__ : option string;
  call : list V -> res V
}.
Arguments mk_callable {_}.

Inductive pyobj `{Numeric} : Type :=
| PyNone
| PyInt (z : Z)
| PyFloat (q : Q)
| PyStr (s : string)
| PySeq (l : list Q)
| PyFunc (f : callable).

(** A binning function [f(distances, n, maxlag) -> edges]. *)
Definition bin_function `{Numeric} : Type :=
  list Q -> pyobj -> option Q -> res (list Q).

(** ** Collaborators outside this file *)

(** [scipy.spatial.distance.pdist] looks a metric up by name; the numpy
    reductions used by the [maxlag] setter. *)
Class DistanceEngine := {
  metric : string -> option (list Q -> list Q -> Q);
  np_median : list Q -> Q;
  np_mean : list Q -> Q;
  np_max : list Q -> res Q;
  fmul : Q -> Q -> Q
}.

(** [pdist(x, metric=name)]: the metric over the strict upper triangle of
    the rows of [x], in row-major order; an unknown name is a ValueError. *)
Definition pdist `{DistanceEngine} (x : list (list Q)) (name : string)
  : res (list Q) :=
  match metric name with
  | None => Raise ValueError
  | Some f =>
      Ok (map (fun ij => f (nth (fst ij) x []) (nth (snd ij) x []))
            (triu (length x)))
  end.

(** [skgstat.binning] *)
Class Binning `{Numeric} := {
  even_width_lags : bin_function;
  uniform_count_lags : bin_function
}.

(** [skgstat.estimators] *)
Class Estimators `{Numeric} := {
  matheron : list V -> res V;
  cressie : list V -> res V;
  dowd : list V -> res V;
  genton : list V -> res V;
  minmax : list V -> res V;
  percentile : list V -> res V;
  entropy : list V -> res V
}.

(** [np.zeros((xn, tn)) * np.nan] *)
Definition nan_matrix `{Numeric} (xn tn : nat) : ndarray V :=
  mk_ndarray float64 [xn; tn] (replicate (xn * tn) nan).

(** ** The instance *)

Record SpaceTimeVariogram `{Numeric} : Type := mk_stv {
  _X : list (list Q);
  _diff : option (ndarray V);
  verbose : bool;
  cov : option Q;
  cof : option Q;
  _values : option (ndarray V);
  _xdist : option (list Q);
  _tdist : option (list Q);
  _xdist_func : option string;
  _tdist_func : option string;
  _x_lags : pyobj;
  _t_lags : pyobj;
  _maxlag : option Q;
  _estimator : option callable;
  _xbin_func : option bin_function;
  _xgroups : option (list Z);
  _xbins : option (list Q);
  _tbin_func : option bin_function;
  _tgroups : option (list Z);
  _tbins : option (list Q)
}.
Arguments mk_stv {_}.

(** Attribute assignment [self.<attr> = x], one function per attribute. *)
Section Assign.
Context `{Numeric}.

Definition assign_diff (x : option (ndarray V)) (s : SpaceTimeVariogram)
  : SpaceTimeVariogram :=
  mk_stv (_X s) x (verbose s) (cov s) (cof s) (_values s) (_xdist s)
    (_tdist s) (_xdist_func s) (_tdist_func s) (_x_lags s) (_t_lags s)
    (_maxlag s) (_estimator s) (_xbin_func s) (_xgroups s) (_xbins s)
    (_tbin_func s) (_tgroups s) (_tbins s).

Definition assign_cov (x : option Q) (s : SpaceTimeVariogram)
  : SpaceTimeVariogram :=
  mk_stv (_X s) (_diff s) (verbose s) x (cof s) (_values s) (_xdist s)
    (_tdist s) (_xdist_func s) (_tdist_func s) (_x_lags s) (_t_lags s)
    (_maxlag s) (_estimator s) (_xbin_func s) (_xgroups s) (_xbins s)
    (_tbin_func s) (_tgroups s) (_tbins s).

Definition assign_cof (x : option Q) (s : SpaceTimeVariogram)
  : SpaceTimeVariogram :=
  mk_stv (_X s) (_diff s) (verbose s) (cov s) x (_values s) (_xdist s)
    (_tdist s) (_xdist_func s) (_tdist_func s) (_x_lags s) (_t_lags s)
    (_maxlag s) (_estimator s) (_xbin_func s) (_xgroups s) (_xbins s)
    (_tbin_func s) (_tgroups s) (_tbins s).

Definition assign_values (x : option (ndarray V)) (s : SpaceTimeVariogram)
  : SpaceTimeVariogram :=
  mk_stv (_X s) (_diff s) (verbose s) (cov s) (cof s) x (_xdist s)
    (_tdist s) (_xdist_func s) (_tdist_func s) (_x_lags s) (_t_lags s)
    (_maxlag s) (_estimator s) (_xbin_func s) (_xgroups s) (_xbins s)
    (_tbin_func s) (_tgroups s) (_tbins s).

Definition assign_xdist (x : option (list Q)) (s : SpaceTimeVariogram)
  : SpaceTimeVariogram :=
  mk_stv (_X s) (_diff s) (verbose s) (cov s) (cof s) (_values s) x
    (_tdist s) (_xdist_func s) (_tdist_func s) (_x_lags s) (_t_lags s)
    (_maxlag s) (_estimator s) (_xbin_func s) (_xgroups s) (_xbins s)
    (_tbin_func s) (_tgroups s) (_tbins s).

Definition assign_tdist (x : option (list Q)) (s : SpaceTimeVariogram)
  : SpaceTimeVariogram :=
  mk_stv (_X s) (_diff s) (verbose s) (cov s) (cof s) (_values s)
    (_xdist s) x (_xdist_func s) (_tdist_func s) (_x_lags s) (_t_lags s)
    (_maxlag s) (_estimator s) (_xbin_func s) (_xgroups s) (_xbins s)
    (_tbin_func s) (_tgroups s) (_tbins s).

Definition assign_xdist_func (x : option string) (s : SpaceTimeVariogram)
  : SpaceTimeVariogram :=
  mk_stv (_X s) (_diff s) (verbose s) (cov s) (cof s) (_values s)
    (_xdist s) (_tdist s) x (_tdist_func s) (_x_lags s) (_t_lags s)
    (_maxlag s) (_estimator s) (_xbin_func s) (_xgroups s) (_xbins s)
    (_tbin_func s) (_tgroups s) (_tbins s).

Definition assign_tdist_func (x : option string) (s : SpaceTimeVariogram)
  : SpaceTimeVariogram :=
  mk_stv (_X s) (_diff s) (verbose s) (cov s) (cof s) (_values s)
    (_xdist s) (_tdist s) (_xdist_func s) x (_x_lags s) (_t_lags s)
    (_maxlag s) (_estimator s) (_xbin_func s) (_xgroups s) (_xbins s)
    (_tbin_func s) (_tgroups s) (_tbins s).

Definition assign_x_lags (x : pyobj) (s : SpaceTimeVariogram)
  : SpaceTimeVariogram :=
  mk_stv (_X s) (_diff s) (verbose s) (cov s) (cof s) (_values s)
    (_xdist s) (_tdist s) (_xdist_func s) (_tdist_func s) x (_t_lags s)
    (_maxlag s) (_estimator s) (_xbin_func s) (_xgroups s) (_xbins s)
    (_tbin_func s) (_tgroups s) (_tbins s).

Definition assign_t_lags (x : pyobj) (s : SpaceTimeVariogram)
  : SpaceTimeVariogram :=
  mk_stv (_X s) (_diff s) (verbose s) (cov s) (cof s) (_values s)
    (_xdist s) (_tdist s) (_xdist_func s) (_tdist_func s) (_x_lags s) x
    (_maxlag s) (_estimator s) (_xbin_func s) (_xgroups s) (_xbins s)
    (_tbin_func s) (_tgroups s) (_tbins s).

Definition assign_maxlag (x : option Q) (s : SpaceTimeVariogram)
  : SpaceTimeVariogram :=
  mk_stv (_X s) (_diff s) (verbose s) (cov s) (cof s) (_values s)
    (_xdist s) (_tdist s) (_xdist_func s) (_tdist_func s) (_x_lags s)
    (_t_lags s) x (_estimator s) (_xbin_func s) (_xgroups s) (_xbins s)
    (_tbin_func s) (_tgroups s) (_tbins s).

Definition assign_estimator (x : option callable) (s : SpaceTimeVariogram)
  : SpaceTimeVariogram :=
  mk_stv (_X s) (_diff s) (verbose s) (cov s) (cof s) (_values s)
    (_xdist s) (_tdist s) (_xdist_func s) (_tdist_func s) (_x_lags s)
    (_t_lags s) (_maxlag s) x (_xbin_func s) (_xgroups s) (_xbins s)
    (_tbin_func s) (_tgroups s) (_tbins s).

Definition assign_xbin_func (x : option bin_function) (s : SpaceTimeVariogram)
  : SpaceTimeVariogram :=
  mk_stv (_X s) (_diff s) (verbose s) (cov s) (cof s) (_values s)
    (_xdist s) (_tdist s) (_xdist_func s) (_tdist_func s) (_x_lags s)
    (_t_lags s) (_maxlag s) (_estimator s) x (_xgroups s) (_xbins s)
    (_tbin_func s) (_tgroups s) (_tbins s).

Definition assign_xgroups (x : option (list Z)) (s : SpaceTimeVariogram)
  : SpaceTimeVariogram :=
  mk_stv (_X s) (_diff s) (verbose s) (cov s) (cof s) (_values s)
    (_xdist s) (_tdist s) (_xdist_func s) (_tdist_func s) (_x_lags s)
    (_t_lags s) (_maxlag s) (_estimator s) (_xbin_func s) x (_xbins s)
    (_tbin_func s) (_tgroups s) (_tbins s).

Definition assign_xbins (x : option (list Q)) (s : SpaceTimeVariogram)
  : SpaceTimeVariogram :=
  mk_stv (_X s) (_diff s) (verbose s) (cov s) (cof s) (_values s)
    (_xdist s) (_tdist s) (_xdist_func s) (_tdist_func s) (_x_lags s)
    (_t_lags s) (_maxlag s) (_estimator s) (_xbin_func s) (_xgroups s) x
    (_tbin_func s) (_tgroups s) (_tbins s).

Definition assign_tbin_func (x : option bin_function) (s : SpaceTimeVariogram)
  : SpaceTimeVariogram :=
  mk_stv (_X s) (_diff s) (verbose s) (cov s) (cof s) (_values s)
    (_xdist s) (_tdist s) (_xdist_func s) (_tdist_func s) (_x_lags s)
    (_t_lags s) (_maxlag s) (_estimator s) (_xbin_func s) (_xgroups s)
    (_xbins s) x (_tgroups s) (_tbins s).

Definition assign_tgroups (x : option (list Z)) (s : SpaceTimeVariogram)
  : SpaceTimeVariogram :=
  mk_stv (_X s) (_diff s) (verbose s) (cov s) (cof s) (_values s)
    (_xdist s) (_tdist s) (_xdist_func s) (_tdist_func s) (_x_lags s)
    (_t_lags s) (_maxlag s) (_estimator s) (_xbin_func s) (_xgroups s)
    (_xbins s) (_tbin_func s) x (_tbins s).

Definition assign_tbins (x : option (list Q)) (s : SpaceTimeVariogram)
  : SpaceTimeVariogram :=
  mk_stv (_X s) (_diff s) (verbose s) (cov s) (cof s) (_values s)
    (_xdist s) (_tdist s) (_xdist_func s) (_tdist_func s) (_x_lags s)
    (_t_lags s) (_maxlag s) (_estimator s) (_xbin_func s) (_xgroups s)
    (_xbins s) (_tbin_func s) (_tgroups s) x.

End Assign.

(** ** Methods of [SpaceTimeVariogram] *)

Inductive axis_tag : Set := AxSpace | AxTime.

(** [axis.lower() == 'space' or axis.lower() == 's'], then the same test
    for ['time'] and ['t'] *)
Definition parse_axis (axis : string) : option axis_tag :=
  if String.eqb (lower axis) "space" || String.eqb (lower axis) "s"
  then Some AxSpace
  else if String.eqb (lower axis) "time" || String.eqb (lower axis) "t"
  then Some AxTime
  else None.

Definition is_none {A : Type} (o : option A) : bool :=
  match o with
  | None => true
  | Some _ => false
  end.

(** [range(n)] for a Python object [n] *)
Definition py_range `{Numeric} (n : pyobj) : res (list nat) :=
  match n with
  | PyInt z => Ok (range (Z.to_nat z))
  | _ => Raise TypeError
  end.

(** [np.where(grp == x)[0]] where [grp] may still be [None]: [None == x] is
    [False], and [np.where(False)[0]] is empty *)
Definition where_eq_opt (grp : option (list Z)) (x : Z) : list nat :=
  match grp with
  | Some g => where_eq g x
  | None => []
  end.

Section Methods.
Context `{Numeric} `{DistanceEngine} `{!Binning} `{!Estimators}.
Local Open Scope py_scope.

Definition M (A : Type) : Type := MS SpaceTimeVariogram A.

(** an array operand that must not be [None] *)
Definition need {A : Type} (o : option A) (e : exn) : M A :=
  match o with
  | Some a => ret a
  | None => raise e
  end.

Definition values : M (option (ndarray V)) := attr _values.

(** [self.values.shape[1]] *)
Definition values_shape1 : M nat :=
  let! v := values in
  let! a := need v AttributeError in
  match shape a with
  | _ :: n :: _ => ret n
  | _ => raise IndexError
  end.

Definition set_values (values : ndarray V) : M unit :=
  match nd_dtype values with
  | other_dtype => raise AttributeError
  | _ =>
      let! X := attr _X in
      match shape values with
      | [m; n] =>
          if negb (m =? length X) then raise ValueError
          else if n <=? 1 then raise ValueError
          else
            assign (assign_values (Some values));;
            assign (assign_diff None)
      | _ => raise ValueError
      end
  end.

Definition xdist_func : M (option string) := attr _xdist_func.

Definition set_xdist_func (func_name : pyobj) : M unit :=
  match func_name with
  | PyStr name => assign (assign_xdist_func (Some name))
  | _ => raise ValueError
  end;;
  assign (assign_xdist None).

Definition tdist_func : M (option string) := attr _tdist_func.

Definition set_tdist_func (func_name : pyobj) : M unit :=
  match func_name with
  | PyStr name => assign (assign_tdist_func (Some name))
  | _ => raise ValueError
  end;;
  assign (assign_tdist None).

Definition __calc_xdist (force : bool) : M unit :=
  let! xd := attr _xdist in
  if is_none xd || force then
    let! f := xdist_func in
    let! X := attr _X in
    let! name := need f TypeError in
    let! d := lift (pdist X name) in
    assign (assign_xdist (Some d))
  else ret tt.

Definition __calc_tdist (force : bool) : M unit :=
  let! td := attr _tdist in
  if is_none td || force then
    let! n := values_shape1 in
    let! n' := values_shape1 in
    let t := zip_with (fun k z => [inject_Z (Z.of_nat k); z])
               (range n) (replicate n' 0%Q) in
    let! f := tdist_func in
    let! name := need f TypeError in
    let! d := lift (pdist t name) in
    assign (assign_tdist (Some d))
  else ret tt.

Definition xdistance : M (option (list Q)) :=
  __calc_xdist false;; attr _xdist.

Definition tdistance : M (option (list Q)) :=
  __calc_tdist false;; attr _tdist.

Definition x_lags : M pyobj := attr _x_lags.

Definition x_lags_setter (lags : pyobj) : M unit :=
  match lags with
  | PyInt _ =>
      assign (assign_x_lags lags);;
      assign (assign_xbins None);;
      assign (assign_xgroups None)
  | _ => raise ValueError
  end.

Definition t_lags : M pyobj :=
  let! tl := attr _t_lags in
  match tl with
  | PyStr s =>
      if String.eqb (lower s) "max" then
        let! n := values_shape1 in
        ret (PyInt (Z.of_nat n - 1))
      else raise ValueError
  | _ => ret tl
  end.

Definition t_lags_setter (lags : pyobj) : M unit :=
  assign (assign_t_lags lags);;
  assign (assign_tbins None);;
  assign (assign_tgroups None).

Definition maxlag : M (option Q) := attr _maxlag.

(** the two numeric branches of the [maxlag] setter *)
Definition maxlag_number (value : Q) : M unit :=
  if Qgt_bool 1 value then
    let! xd := xdistance in
    let! d := need xd TypeError in
    let! m := lift (np_max d) in
    assign (assign_maxlag (Some (fmul value m)))
  else assign (assign_maxlag (Some value)).

Definition maxlag_setter (value : pyobj) : M unit :=
  assign (assign_cov None);;
  assign (assign_cof None);;
  assign (assign_xbins None);;
  assign (assign_xgroups None);;
  match value with
  | PyNone => assign (assign_maxlag None)
  | PyStr v =>
      if String.eqb v "median" then
        let! xd := xdistance in
        let! d := need xd TypeError in
        assign (assign_maxlag (Some (np_median d)))
      else if String.eqb v "mean" then
        let! xd := xdistance in
        let! d := need xd TypeError in
        assign (assign_maxlag (Some (np_mean d)))
      else ret tt
  | PyInt z => maxlag_number (inject_Z z)
  | PyFloat q => maxlag_number q
  | PySeq _ => raise TypeError
  | PyFunc _ => raise TypeError
  end.

Definition set_bin_func (bin_func axis : pyobj) : M unit :=
  match bin_func with
  | PyStr b =>
      let! f :=
        (if String.eqb (lower b) "even" then ret even_width_lags
         else if method_eq_str b "uniform" then ret uniform_count_lags
         else raise ValueError) in
      match axis with
      | PyStr a =>
          if String.eqb (lower a) "space" || String.eqb (lower a) "s" then
            assign (assign_xbin_func (Some f));;
            assign (assign_xgroups None);;
            assign (assign_xbins None)
          else if String.eqb (lower a) "time" || String.eqb (lower a) "t" then
            assign (assign_tbin_func (Some f));;
            assign (assign_tgroups None);;
            assign (assign_tbins None)
          else raise ValueError
      | _ => raise AttributeError
      end;;
      assign (assign_cof None);;
      assign (assign_cof None)
  | _ => raise AttributeError
  end.

Definition xbins : M (option (list Q)) :=
  let! b := attr _xbins in
  (if is_none b then
     let! f := attr _xbin_func in
     let! xd := xdistance in
     let! n := x_lags in
     let! ml := maxlag in
     let! f := need f TypeError in
     let! d := need xd TypeError in
     let! edges := lift (f d n ml) in
     assign (assign_xbins (Some edges))
   else ret tt);;
  attr _xbins.

Definition tbins : M (option (list Q)) :=
  let! b := attr _tbins in
  (if is_none b then
     let! f := attr _tbin_func in
     let! td := tdistance in
     let! n := t_lags in
     let! f := need f TypeError in
     let! d := need td TypeError in
     let! edges := lift (f d n None) in
     assign (assign_tbins (Some edges))
   else ret tt);;
  attr _tbins.

Definition estimator : M (option callable) := attr _estimator.

(** The functions of [skgstat.estimators] carry their own names. *)
Definition builtin_estimator (name : string) : option callable :=
  if String.eqb name "matheron"
  then Some (mk_callable (Some "matheron") matheron)
  else if String.eqb name "cressie"
  then Some (mk_callable (Some "cressie") cressie)
  else if String.eqb name "dowd" then Some (mk_callable (Some "dowd") dowd)
  else if String.eqb name "genton"
  then Some (mk_callable (Some "genton") genton)
  else if String.eqb name "minmax"
  then Some (mk_callable (Some "minmax") minmax)
  else if String.eqb name "percentile"
  then Some (mk_callable (Some "percentile") percentile)
  else if String.eqb name "entropy"
  then Some (mk_callable (Some "entropy") entropy)
  else None.

Definition set_estimator (estimator_name : pyobj) : M unit :=
  assign (assign_cof None);;
  assign (assign_cov None);;
  match estimator_name with
  | PyStr name =>
      match builtin_estimator (lower name) with
      | Some f => assign (assign_estimator (Some f))
      | None => raise ValueError
      end
  | PyFunc f => assign (assign_estimator (Some f))
  | _ => raise ValueError
  end.

(** [self._diff[xidx][tidx] = x] *)
Definition setitem_diff (xidx tidx : nat) (x : V) : M unit :=
  let! d := attr _diff in
  let! d := need d TypeError in
  let! d' := lift (setitem2 d xidx tidx x) in
  assign (assign_diff (Some d')).

(** [a.size] for a one-dimensional array *)
Definition size (a : option (list Q)) : M nat :=
  let! l := need a AttributeError in
  ret (length l).

Definition _calc_diff (force : bool) : M unit :=
  let! df := attr _diff in
  if negb force && negb (is_none df) then ret tt
  else
    let! xd := xdistance in
    let! xn := size xd in
    let! td := tdistance in
    let! tn := size td in
    let! vs := values in
    let! vs := need vs AttributeError in
    match shape vs with
    | [outer; inner] =>
        let! v := values in
        let! v := need v AttributeError in
        assign (assign_diff (Some (nan_matrix xn tn)));;
        let! _ :=
          for_loop (range outer) (fun xi xidx =>
            for_loop (range outer) (fun xj xidx =>
              if xi <? xj then
                let! _ :=
                  for_loop (range inner) (fun ti tidx =>
                    for_loop (range inner) (fun tj tidx =>
                      if ti <? tj then
                        let! a := lift (getitem2 v xi ti) in
                        let! b := lift (getitem2 v xj tj) in
                        setitem_diff xidx tidx (sub a b);;
                        ret (S tidx)
                      else ret tidx) tidx) 0 in
                ret (S xidx)
              else ret xidx) xidx) 0 in
        ret tt
    | _ => raise ValueError
    end.

Definition _calc_group (axis : string) (force : bool) : M unit :=
  match parse_axis axis with
  | None => raise ValueError
  | Some ax =>
      let! grp :=
        attr (match ax with AxSpace => _xgroups | AxTime => _tgroups end) in
      if negb force && negb (is_none grp) then ret tt
      else
        let! bins := (match ax with AxSpace => xbins | AxTime => tbins end) in
        let! d :=
          (match ax with AxSpace => xdistance | AxTime => tdistance end) in
        let! d := need d TypeError in
        let! bins := need bins TypeError in
        assign (match ax with
                | AxSpace => assign_xgroups (Some (classify d bins))
                | AxTime => assign_tgroups (Some (classify d bins))
                end)
  end.

Definition lag_groups (axis : pyobj) : M (option (list Z)) :=
  match axis with
  | PyStr a =>
      match parse_axis a with
      | Some AxSpace =>
          let! g := attr _xgroups in
          (if is_none g then _calc_group a false else ret tt);;
          attr _xgroups
      | Some AxTime =>
          let! g := attr _tgroups in
          (if is_none g then _calc_group a false else ret tt);;
          attr _tgroups
      | None => raise ValueError
      end
  | _ => raise AttributeError
  end.

(** [self._diff[np.where(xgrp == x)[0]][:, np.where(tgrp == t)[0]]
    .flatten()] *)
Definition diff_select (xgrp tgrp : option (list Z)) (x t : Z) : M (list V) :=
  let! d := attr _diff in
  let! d := need d TypeError in
  lift (select2 d (where_eq_opt xgrp x) (where_eq_opt tgrp t)).

(** The generator together with the loop that consumes it: the body runs
    up to a [yield], [consume] takes the selection yielded, and the body
    resumes where it stopped.  The result lists what [consume] returned, in
    the order of the [yield]s; an exception of the body or of [consume]
    ends the run where it is raised. *)
Definition lag_classes {B : Type} (consume : list V -> M B) : M (list B) :=
  let! df := attr _diff in
  (if is_none df then _calc_diff false else ret tt);;
  let! xgrp := lag_groups (PyStr "space") in
  let! tgrp := lag_groups (PyStr "time") in
  let! xl := x_lags in
  let! xr := lift (py_range xl) in
  let! cells :=
    for_list (fun x =>
      let! tl := t_lags in
      let! tr := lift (py_range tl) in
      for_list (fun t =>
        let! vals := diff_select xgrp tgrp (Z.of_nat x) (Z.of_nat t) in
        consume vals) tr) xr in
  ret (concat cells).

(** [self.estimator(vals)]: the exception of a callable that raises
    propagates *)
Definition apply_estimator (vals : list V) : M V :=
  let! e := estimator in
  let! e := need e TypeError in
  lift (call e vals).

(** [np.fromiter((self.estimator(vals) for vals in self.lag_classes()),
    dtype=float)] pulls one selection at a time and applies the estimator
    to it before the generator resumes. *)
Definition _get_experimental : M (ndarray V) :=
  let! e := estimator in
  let! e := need e AttributeError in
  let! name := need (__name__ e) AttributeError in
  if String.eqb name "entropy" then raise NotImplementedError
  else
    let! z := lag_classes apply_estimator in
    ret (fromiter z).

Definition experimental : M (ndarray V) := _get_experimental.

Definition preprocessing (force : bool) : M unit :=
  __calc_xdist force;;
  __calc_tdist force;;
  _calc_diff force;;
  _calc_group "space" force;;
  _calc_group "time" force.

Definition _get_member (xlag tlag : Z) : M (list V) :=
  let! xg := attr _xgroups in
  let! tg := attr _tgroups in
  let! d := attr _diff in
  let! d := need d TypeError in
  lift (select2 d (where_eq_opt xg xlag) (where_eq_opt tg tlag)).

Definition get_marginal (axis : pyobj) (lag : Z) : M (ndarray V) :=
  match axis with
  | PyStr a =>
      if String.eqb (lower a) "space" || String.eqb (lower a) "s" then
        let! xl := x_lags in
        let! r := lift (py_range xl) in
        let! z :=
          for_list (fun i =>
            let! m := _get_member (Z.of_nat i) lag in
            apply_estimator m) r in
        ret (fromiter z)
      else if String.eqb (lower a) "time" || String.eqb (lower a) "t" then
        let! tl := t_lags in
        let! r := lift (py_range tl) in
        let! z :=
          for_list (fun j =>
            let! m := _get_member lag (Z.of_nat j) in
            apply_estimator m) r in
        ret (fromiter z)
      else raise ValueError
  | _ => raise AttributeError
  end.

(** The attributes as [__init__] first binds them. *)
Definition blank (coordinates : list (list Q)) (verbose : bool)
  : SpaceTimeVariogram :=
  mk_stv coordinates None verbose None None None None None None None
    PyNone PyNone None None None None None None None None.

Definition __init__ (coordinates : list (list Q)) (values : ndarray V)
    (xdist_func tdist_func x_lags t_lags maxlag xbins tbins estimator : pyobj)
    (verbose : bool) : res unit * SpaceTimeVariogram :=
  (set_values values;;
   set_xdist_func xdist_func;;
   set_tdist_func tdist_func;;
   x_lags_setter x_lags;;
   t_lags_setter t_lags;;
   maxlag_setter maxlag;;
   set_estimator estimator;;
   set_bin_func xbins (PyStr "space");;
   set_bin_func tbins (PyStr "time");;
   preprocessing true) (blank coordinates verbose).
End Methods.

(** ** A concrete instance of the collaborators

    Observations are rationals extended with NaN ([None]); distances use
    the city-block and Chebyshev metrics, whose values are rational. *)

Module Example.

Definition numeric : Numeric :=
  {| V := option Q;
     sub := fun a b =>
       match a, b with
       | Some x, Some y => Some (Qred (x - y))
       | _, _ => None
       end;
     nan := None |}.

Definition cityblock (p q : list Q) : Q :=
  Qred (fold_right Qplus 0%Q (zip_with (fun a b => Qabs (a - b)) p q)).

Definition chebyshev (p q : list Q) : Q :=
  Qred (fold_right Qmax 0%Q (zip_with (fun a b => Qabs (a - b)) p q)).

Fixpoint insert_sorted (x : Q) (l : list Q) : list Q :=
  match l with
  | [] => [x]
  | y :: l' => if Qle_bool x y then x :: l else y :: insert_sorted x l'
  end.

Definition sort (l : list Q) : list Q := fold_right insert_sorted [] l.

Definition Qsum (l : list Q) : Q := fold_right Qplus 0%Q l.

Definition mean (l : list Q) : Q :=
  Qred (Qsum l / inject_Z (Z.of_nat (length l))).

Definition median (l : list Q) : Q :=
  let s := sort l in
  let n := length s in
  if Nat.even n then
    Qred ((nth (n / 2 - 1) s 0%Q + nth (n / 2) s 0%Q) / 2)
  else nth (n / 2) s 0%Q.

Definition max (l : list Q) : res Q :=
  match l with
  | [] => Raise ValueError
  | x :: l' => Ok (fold_left Qmax l' x)
  end.

Definition distance_engine : DistanceEngine :=
  {| metric := fun name =>
       if String.eqb name "cityblock" then Some cityblock
       else if String.eqb name "chebyshev" then Some chebyshev
       else None;
     np_median := median;
     np_mean := mean;
     np_max := max;
     fmul := fun a b => Qred (a * b) |}.

(** Modelled from the spec: the even-width binning function of
    [skgstat.binning], whose edges are max_lag/lag_count,
    2 max_lag/lag_count, ..., max_lag, where max_lag defaults to the largest
    observed distance. *)
Definition even_width (d : list Q) (n : @pyobj numeric) (maxlag : option Q)
  : res (list Q) :=
  match n with
  | PyInt z =>
      match (match maxlag with Some m => Ok m | None => max d end) with
      | Ok m =>
          Ok (map (fun k => Qred (inject_Z (Z.of_nat k) * m / inject_Z z))
                (seq 1 (Z.to_nat z)))
      | Raise e => Raise e
      end
  | _ => Raise TypeError
  end.

(** Modelled from the spec: the uniform-count binning function of
    [skgstat.binning], whose edges are quantiles of the distances, so that
    each class holds an equal share of the pairs. *)
Definition uniform_count (d : list Q) (n : @pyobj numeric) (maxlag : option Q)
  : res (list Q) :=
  match n with
  | PyInt z =>
      let s := sort d in
      Ok (map (fun k => nth (k * length s / Z.to_nat z - 1) s 0%Q)
            (seq 1 (Z.to_nat z)))
  | _ => Raise TypeError
  end.

Definition binning : @Binning numeric :=
  @Build_Binning numeric even_width uniform_count.

(** Modelled from the spec: Matheron's estimator of [skgstat.estimators],
    half the mean squared difference; NaN on an empty sequence. *)
Definition matheron_estimator (x : list (option Q)) : res (option Q) :=
  match x with
  | [] => Ok None
  | _ =>
      match mapM (fun v : option Q => v) x with
      | Some l =>
          Ok (Some (Qred (Qsum (map (fun v => v * v)%Q l)
                          / (2 * inject_Z (Z.of_nat (length l))))))
      | None => Ok None
      end
  end.

(** The spec names the other built-in estimators without a formula; in this
    instance they are NaN-valued. *)
Definition unspecified_estimator (x : list (option Q)) : res (option Q) :=
  Ok None.

(** a callable of the caller's own that raises on an empty selection *)
Definition first_value (x : list (option Q)) : res (option Q) :=
  match x with
  | [] => Raise ValueError
  | v :: _ => Ok v
  end.

Definition estimators : @Estimators numeric :=
  @Build_Estimators numeric matheron_estimator unspecified_estimator
    unspecified_estimator unspecified_estimator unspecified_estimator
    unspecified_estimator unspecified_estimator.

#[local] Existing Instance numeric.
#[local] Existing Instance distance_engine.
#[local] Existing Instance binning.
#[local] Existing Instance estimators.

Definition q (z : Z) : option Q := Some (inject_Z z).

(** three points on a line at 0, 1, 2 *)
Definition coords3 : list (list Q) := [[0%Q]; [1%Q]; [2%Q]].

(** a 3 x 3 value matrix *)
Definition values33 : ndarray V :=
  mk_ndarray float64 [3; 3]
    [q 1; q 2; q 4; q 3; q 5; q 9; q 2; q 2; q 7].

(** a 3 x 2 value matrix *)
Definition values32 : ndarray V :=
  mk_ndarray float64 [3; 2] [q 1; q 2; q 3; q 5; q 2; q 2].

(** a 3 x 4 value matrix *)
Definition values34 : ndarray V :=
  mk_ndarray float64 [3; 4]
    [q 1; q 2; q 4; q 0; q 3; q 5; q 9; q 1; q 2; q 2; q 7; q 6].

(** [SpaceTimeVariogram(coords3, values33, xdist_func='cityblock',
    tdist_func='cityblock', x_lags=2, t_lags=2)] *)
Definition stv3 : res unit * SpaceTimeVariogram :=
  __init__ coords3 values33 (PyStr "cityblock") (PyStr "cityblock")
    (PyInt 2) (PyInt 2) PyNone (PyStr "even") (PyStr "even")
    (PyStr "matheron") false.

(** the surface read from [stv3], flat, in the order of [lag_classes] *)
Definition surface3 : ndarray V :=
  mk_ndarray float64 [4] [Some (35 # 4); Some 20%Q; Some (13 # 2); Some 18%Q].

End Example.

(** ** Predicates used in the statements *)

(** A distance cache is usable for [n] points: either it holds an array
    computed for [n] points, or it is empty and the configured metric is
    one [pdist] knows. *)
Definition distance_ready `{DistanceEngine} (cache : option (list Q))
    (func : option string) (n : nat) : Prop :=
  match cache with
  | Some d => length d = length (triu n)
  | None => exists name f, func = Some name /\ metric name = Some f
  end.

(** Bin edges in nondecreasing order. *)
Definition nondecreasing (edges : list Q) : Prop :=
  forall i j a b, i <= j -> edges !! i = Some a -> edges !! j = Some b ->
    (a <= b)%Q.

(** the boolean test: each edge is at least [lo] and its predecessor *)
Fixpoint sorted_from (lo : Q) (edges : list Q) : bool :=
  match edges with
  | [] => true
  | e :: edges' => Qle_bool lo e && sorted_from e edges'
  end.

(** [edge[i-1]], with [edge[-1] = 0] *)
Definition lower_edge (edges : list Q) (i : nat) : option Q :=
  (0%Q :: edges) !! i.

(** [d] lies in lag class [i]: [edge[i-1] < d <= edge[i]] *)
Definition in_class (edges : list Q) (d : Q) (i : nat) : Prop :=
  exists lo hi, lower_edge edges i = Some lo /\ edges !! i = Some hi /\
    (lo < d)%Q /\ (d <= hi)%Q.

(** the number of entries of a list satisfying a test *)
Definition count {A : Type} (p : A -> bool) (l : list A) : nat :=
  length (List.filter p l).

(** ** The difference tensor written as a comprehension *)

Section Tensor.
Context `{Numeric}.
Local Open Scope py_scope.

(** [v[i, j]], NaN where the index is out of range *)
Definition item2 (v : ndarray V) (i j : nat) : V :=
  match getitem2 v i j with
  | Ok x => x
  | Raise _ => nan
  end.

(** the row of the spatial pair [(xi, xj)] over the temporal pairs *)
Definition diff_row (v : ndarray V) (t : nat) (p : nat * nat) : list V :=
  map (fun q => sub (item2 v (fst p) (fst q)) (item2 v (snd p) (snd q)))
    (triu t).

Definition diff_data (v : ndarray V) (n t : nat) : list V :=
  flat_map (diff_row v t) (triu n).

(** the assignment in the innermost loop, for the temporal pair [q] *)
Definition diff_step (v : ndarray V) (xi xj xidx : nat) (q : nat * nat)
    (tidx : nat) : M nat :=
  let! a := lift (getitem2 v xi (fst q)) in
  let! b := lift (getitem2 v xj (snd q)) in
  setitem_diff xidx tidx (sub a b);;
  ret (S tidx).

(** the body of the spatial loops, for the spatial pair [p] *)
Definition diff_row_step (v : ndarray V) (inner : nat) (p : nat * nat)
    (xidx : nat) : M nat :=
  let! _ := for_loop (triu inner) (diff_step v (fst p) (snd p) xidx) 0 in
  ret (S xidx).
End Tensor.

(** ** Lag grouping, one distance at a time *)

(** the test [(d > bounds[0]) & (d <= bounds[1])] *)
Definition in_bounds (x : Q) (bounds : Q * Q) : bool :=
  Qgt_bool x (fst bounds) && Qle_bool x (snd bounds).

(** one round of the classification loop, seen from the distance [x] *)
Definition step (x : Q) (g : Z) (ib : nat * (Q * Q)) : Z :=
  if in_bounds x (snd ib) then Z.of_nat (fst ib) else g.

(** the group index the classification loop leaves for the distance [x] *)
Definition class_of (bins : list Q) (x : Q) : Z :=
  fold_left (step x) (enumerate (zip (0%Q :: bins) bins)) (-1)%Z.

(** [grp != -1] and [0 < d <= last], with 0 for the last edge of an empty
    sequence *)
Definition classified (g : Z) : bool := negb (g =? -1)%Z.

Definition within_last (bins : list Q) (x : Q) : bool :=
  Qgt_bool x 0 && Qle_bool x (default 0%Q (last bins)).

(** [d <= last], the test of the claim as stated *)
Definition upto_last (bins : list Q) (x : Q) : bool :=
  Qle_bool x (default 0%Q (last bins)).

(** ** The experimental surface *)

(** the members of cell [(x, t)]: the tensor entries whose row is in
    spatial class [x] and whose column is in temporal class [t] *)
Definition cell_members `{Numeric} (d : ndarray V) (xg tg : list Z)
    (x t : nat) : res (list V) :=
  select2 d (where_eq xg (Z.of_nat x)) (where_eq tg (Z.of_nat t)).

(** a preprocessed instance: the tensor and both group arrays are cached *)
Definition preprocessed `{Numeric} (s : SpaceTimeVariogram) : Prop :=
  _diff s <> None /\ _xgroups s <> None /\ _tgroups s <> None.

(** a computation that leaves the instance as it found it *)
Definition read_only {S A : Type} (m : MS S A) : Prop :=
  forall s, snd (m s) = s.

(** ** The setters as one family *)

Section Setters.
Context `{Numeric} `{DistanceEngine} `{!Binning} `{!Estimators}.

Inductive setter_call : Type :=
| SetValues (values : ndarray V)
| SetXdistFunc (func_name : pyobj)
| SetTdistFunc (func_name : pyobj)
| SetXLags (lags : pyobj)
| SetTLags (lags : pyobj)
| SetMaxlag (value : pyobj)
| SetBinFunc (bin_func axis : pyobj)
| SetEstimator (estimator_name : pyobj).

Definition run_setter (c : setter_call) : M unit :=
  match c with
  | SetValues values => set_values values
  | SetXdistFunc func_name => set_xdist_func func_name
  | SetTdistFunc func_name => set_tdist_func func_name
  | SetXLags lags => x_lags_setter lags
  | SetTLags lags => t_lags_setter lags
  | SetMaxlag value => maxlag_setter value
  | SetBinFunc bin_func axis => set_bin_func bin_func axis
  | SetEstimator estimator_name => set_estimator estimator_name
  end.

Definition is_str (o : pyobj) : bool :=
  match o with
  | PyStr _ => true
  | _ => false
  end.

Definition is_int (o : pyobj) : bool :=
  match o with
  | PyInt _ => true
  | _ => false
  end.

(** the value matrices [set_values] accepts: float or int dtype, two
    dimensions, one row per coordinate, more than one column *)
Definition valid_values (values : ndarray V) (s : SpaceTimeVariogram)
  : bool :=
  match nd_dtype values, shape values with
  | other_dtype, _ => false
  | _, [m; n] => (m =? length (_X s)) && (1 <? n)
  | _, _ => false
  end.

(** the binning names and the axis names of [set_bin_func] *)
Definition known_bin_func (o : pyobj) : bool :=
  match o with
  | PyStr b => String.eqb (lower b) "even" || String.eqb (lower b) "uniform"
  | _ => false
  end.

Definition known_axis (o : pyobj) : bool :=
  match o with
  | PyStr a =>
      match parse_axis a with
      | Some _ => true
      | None => false
      end
  | _ => false
  end.

(** the estimators [set_estimator] accepts: a built-in name or a callable *)
Definition known_estimator (o : pyobj) : bool :=
  match o with
  | PyStr name =>
      match builtin_estimator (lower name) with
      | Some _ => true
      | None => false
      end
  | PyFunc _ => true
  | _ => false
  end.

(** the arguments a setter rejects while it runs *)
Definition rejected (c : setter_call) (s : SpaceTimeVariogram) : bool :=
  match c with
  | SetValues values => negb (valid_values values s)
  | SetXdistFunc func_name => negb (is_str func_name)
  | SetTdistFunc func_name => negb (is_str func_name)
  | SetXLags lags => negb (is_int lags)
  | SetTLags _ => false
  | SetMaxlag (PySeq _) => true
  | SetMaxlag (PyFunc _) => true
  | SetMaxlag _ => false
  | SetBinFunc bin_func axis =>
      negb (known_bin_func bin_func) || negb (known_axis axis)
  | SetEstimator estimator_name => negb (known_estimator estimator_name)
  end.

(** the arguments whose rejection waits for the next read *)
Definition deferred (c : setter_call) : bool :=
  match c with
  | SetTLags (PyStr lags) => negb (String.eqb (lower lags) "max")
  | _ => false
  end.

(** the instance a rejecting setter leaves behind *)
Definition left_behind (c : setter_call) (s : SpaceTimeVariogram)
  : SpaceTimeVariogram :=
  match c with
  | SetEstimator _ => assign_cov None (assign_cof None s)
  | SetMaxlag _ =>
      assign_xgroups None (assign_xbins None
        (assign_cof None (assign_cov None s)))
  | _ => s
  end.

(** the names of the built-in estimators other than entropy *)
Definition surface_estimators : list string :=
  ["matheron"; "cressie"; "dowd"; "genton"; "minmax"; "percentile"].
End Setters.

(** a computation that keeps a property of the instance, whatever its
    outcome *)
Definition maintains {S A : Type} (P : S -> Prop) (m : MS S A) : Prop :=
  forall s, P s -> P (snd (m s)).

(** ** Further methods: the [distance] property and the bin setters *)

Section MoreMethods.
Context `{Numeric} `{DistanceEngine} `{!Binning}.
Local Open Scope py_scope.

(** the [distance] property: [return self.xdistance, self.tdistance] *)
Definition distance : M (option (list Q) * option (list Q)) :=
  let! xd := xdistance in
  let! td := tdistance in
  ret (xd, td).

(** the [xbins] setter; a list, tuple or array of edges is a [PySeq] *)
Definition xbins_setter (bins : pyobj) : M unit :=
  match bins with
  | PyInt _ =>
      assign (assign_xbins None);;
      assign (assign_x_lags bins)
  | PySeq edges =>
      assign (assign_xbins (Some edges));;
      let! b := attr _xbins in
      let! b := need b TypeError in
      assign (assign_x_lags (PyInt (Z.of_nat (length b))))
  | PyStr _ => set_bin_func bins (PyStr "space")
  | _ => raise AttributeError
  end;;
  assign (assign_xgroups None).

(** the [tbins] setter *)
Definition tbins_setter (bins : pyobj) : M unit :=
  match bins with
  | PyInt _ =>
      assign (assign_tbins None);;
      assign (assign_t_lags bins)
  | PySeq edges =>
      assign (assign_tbins (Some edges));;
      let! b := attr _tbins in
      let! b := need b TypeError in
      assign (assign_t_lags (PyInt (Z.of_nat (length b))))
  | PyStr _ => set_bin_func bins (PyStr "time")
  | _ => raise AttributeError
  end;;
  assign (assign_tgroups None).
End MoreMethods.

(** ** Further predicates used in the statements *)

(** the tensor, the distance arrays and the group arrays fit together: one
    tensor row and one spatial group per spatial distance, one tensor column
    and one temporal group per temporal distance *)
Definition aligned `{Numeric} (s : SpaceTimeVariogram) : Prop :=
  exists xd td d xg tg,
    _xdist s = Some xd /\ _tdist s = Some td /\
    _diff s = Some d /\ shape d = [length xd; length td] /\
    length (data d) = length xd * length td /\
    _xgroups s = Some xg /\ length xg = length xd /\
    _tgroups s = Some tg /\ length tg = length td.

(** the tensor of an instance has the given shape and as many entries *)
Definition diff_shaped `{Numeric} (xn tn : nat) (s : SpaceTimeVariogram)
  : Prop :=
  exists d, _diff s = Some d /\ shape d = [xn; tn] /\
    length (data d) = xn * tn.

(** the loops of [lag_classes] over given arrays *)
Definition cells_of `{Numeric} {B : Type} (consume : list V -> M B)
    (xgrp tgrp : option (list Z)) : M (list B) :=
  bind x_lags (fun xl =>
  bind (lift (py_range xl)) (fun xr =>
  bind (for_list (fun x =>
          bind t_lags (fun tl =>
          bind (lift (py_range tl)) (fun tr =>
          for_list (fun t =>
            bind (diff_select xgrp tgrp (Z.of_nat x) (Z.of_nat t)) consume)
            tr))) xr)
    (fun cells => ret (concat cells)))).

(** * Properties *)

(** ** The state-and-exception monad *)

Section MonadLemmas.
Context {S : Type}.
Local Open Scope py_scope.

Lemma bind_ok {A B} (m : MS S A) (k : A -> MS S B) s a s' :
  m s = (Ok a, s') -> bind m k s = k a s'.
Proof. intros E. unfold bind. now rewrite E. Qed.

Lemma bind_raise {A B} (m : MS S A) (k : A -> MS S B) s e s' :
  m s = (Raise e, s') -> bind m k s = (Raise e, s').
Proof. intros E. unfold bind. now rewrite E. Qed.

Lemma for_loop_ext {A L} (l : list A) (f g : A -> L -> MS S L) :
  (forall a acc s, f a acc s = g a acc s) ->
  forall acc s, for_loop l f acc s = for_loop l g acc s.
Proof.
  intros E. induction l as [|a l IH]; intros acc s; simpl; [reflexivity|].
  unfold bind. rewrite E. destruct (g a acc s) as [[acc'|e] s']; auto.
Qed.

Lemma for_loop_app {A L} (l1 l2 : list A) (f : A -> L -> MS S L) acc s :
  for_loop (l1 ++ l2) f acc s
  = bind (for_loop l1 f acc) (fun acc' => for_loop l2 f acc') s.
Proof.
  revert acc s. induction l1 as [|a l1 IH]; intros acc s; simpl.
  - reflexivity.
  - unfold bind. destruct (f a acc s) as [[acc'|e] s']; [|reflexivity].
    rewrite IH. reflexivity.
Qed.

Lemma for_loop_filter {A L} (p : A -> bool) (l : list A)
    (f : A -> L -> MS S L) acc s :
  for_loop l (fun a acc => if p a then f a acc else ret acc) acc s
  = for_loop (List.filter p l) f acc s.
Proof.
  revert acc s. induction l as [|a l IH]; intros acc s; simpl; [reflexivity|].
  destruct (p a); simpl.
  - unfold bind. destruct (f a acc s) as [[acc'|e] s']; auto.
  - unfold bind, ret at 1. apply IH.
Qed.

Lemma for_loop_map {A B L} (h : A -> B) (l : list A)
    (f : B -> L -> MS S L) acc s :
  for_loop (map h l) f acc s = for_loop l (fun a => f (h a)) acc s.
Proof.
  revert acc s. induction l as [|a l IH]; intros acc s; simpl; [reflexivity|].
  unfold bind. destruct (f (h a) acc s) as [[acc'|e] s']; auto.
Qed.

Lemma for_loop_flat_map {A B L} (h : A -> list B) (l : list A)
    (f : B -> L -> MS S L) acc s :
  for_loop (flat_map h l) f acc s
  = for_loop l (fun a acc => for_loop (h a) f acc) acc s.
Proof.
  revert acc s. induction l as [|a l IH]; intros acc s; simpl; [reflexivity|].
  rewrite for_loop_app. unfold bind.
  destruct (for_loop (h a) f acc s) as [[acc'|e] s']; auto.
Qed.
End MonadLemmas.

(** unfold the monad's plumbing, leaving the methods folded *)
Ltac munfold :=
  cbv beta iota delta [bind lift attr assign ret raise need].

(** run the first statement of a sequence, given its outcome *)
Ltac mstep :=
  erewrite bind_ok by (first [eassumption | reflexivity]); cbv beta.

(** ** The strict upper triangle *)

Lemma filter_ltb_seq_from i k n :
  List.filter (fun j => i <? j) (seq k n)
  = seq (Nat.max k (S i)) (k + n - Nat.max k (S i)).
Proof.
  revert k. induction n as [|n IH]; intros k.
  - replace (k + 0 - Nat.max k (S i)) with 0 by lia. reflexivity.
  - simpl. rewrite IH. destruct (Nat.ltb_spec i k) as [Hlt|Hge].
    + replace (Nat.max k (S i)) with k by lia.
      replace (Nat.max (S k) (S i)) with (S k) by lia.
      replace (k + S n - k) with (S n) by lia.
      replace (S k + n - S k) with n by lia. reflexivity.
    + replace (Nat.max k (S i)) with (S i) by lia.
      replace (Nat.max (S k) (S i)) with (S i) by lia.
      replace (S k + n - S i) with (k + S n - S i) by lia. reflexivity.
Qed.

Lemma filter_ltb_seq i n :
  List.filter (fun j => i <? j) (seq 0 n) = seq (S i) (n - S i).
Proof. rewrite filter_ltb_seq_from. reflexivity. Qed.

Lemma triu_bounds n i j : In (i, j) (triu n) -> i < j /\ j < n.
Proof.
  unfold triu. rewrite in_flat_map. intros (i' & _ & Hin).
  apply in_map_iff in Hin as (j' & E & Hin). inversion E; subst.
  apply in_seq in Hin. lia.
Qed.

Lemma triu_length_from k c :
  2 * length (flat_map (fun i => map (pair i) (seq (S i) (k + c - S i)))
                (seq k c)) = c * (c - 1).
Proof.
  revert k. induction c as [|c IH]; intros k; [reflexivity|].
  simpl seq. simpl flat_map. rewrite length_app, length_map, length_seq.
  replace (k + S c) with (S k + c) by lia. specialize (IH (S k)).
  nia.
Qed.

Lemma triu_length n : length (triu n) = n * (n - 1) / 2.
Proof.
  pose proof (triu_length_from 0 n) as E. change (0 + n) with n in E.
  fold (triu n) in E. rewrite <- E, Nat.mul_comm. symmetry.
  apply Nat.div_mul. discriminate.
Qed.

Lemma nested_loops_triu {S L : Type} (n : nat) (g : nat -> nat -> L -> MS S L)
    acc s :
  for_loop (range n) (fun i acc =>
    for_loop (range n) (fun j acc =>
      if i <? j then g i j acc else ret acc) acc) acc s
  = for_loop (triu n) (fun p => g (fst p) (snd p)) acc s.
Proof.
  unfold triu, range. rewrite for_loop_flat_map. apply for_loop_ext.
  intros i acc' s'.
  rewrite (for_loop_filter (fun j => i <? j) (seq 0 n) (g i)).
  rewrite filter_ltb_seq, for_loop_map. reflexivity.
Qed.

Lemma flat_map_lookup_rows {A B : Type} (g : A -> list B) (c : nat)
    (l : list A) a b p x :
  (forall p, length (g p) = c) ->
  l !! a = Some p -> g p !! b = Some x ->
  flat_map g l !! (a * c + b) = Some x.
Proof.
  intros Hlen. revert a. induction l as [|p0 l IH]; intros a Hl Hg.
  - discriminate.
  - simpl. destruct a as [|a]; simpl in *.
    + inversion Hl; subst. apply lookup_app_l_Some. exact Hg.
    + rewrite lookup_app_r by (rewrite Hlen; lia).
      rewrite Hlen. replace (c + a * c + b - c) with (a * c + b) by lia.
      apply IH; assumption.
Qed.

(** ** The difference tensor *)

Section CalcDiff.
Context `{Numeric} `{DistanceEngine}.
Local Open Scope py_scope.

Lemma getitem2_ok (v : ndarray V) n t i j :
  shape v = [n; t] -> length (data v) = n * t -> i < n -> j < t ->
  exists x, getitem2 v i j = Ok x.
Proof.
  intros Hs Hl Hi Hj. unfold getitem2. rewrite Hs.
  destruct (Nat.ltb_spec i n); [|lia]. destruct (Nat.ltb_spec j t); [|lia].
  simpl. destruct (data v !! (i * t + j)) as [x|] eqn:E; [eauto|].
  apply lookup_ge_None in E. nia.
Qed.

Lemma item2_ok (v : ndarray V) i j x :
  getitem2 v i j = Ok x -> item2 v i j = x.
Proof. intros E. unfold item2. now rewrite E. Qed.

Lemma assign_diff_twice (a b : option (ndarray V)) s :
  assign_diff a (assign_diff b s) = assign_diff a s.
Proof. reflexivity. Qed.

Lemma fill_row (v : ndarray V) n t xi xj xidx xn tn :
  shape v = [n; t] -> length (data v) = n * t -> xi < n -> xj < n ->
  xidx < xn ->
  forall l pre old post k s d,
    (forall q, In q l -> fst q < t /\ snd q < t) ->
    _diff s = Some d -> shape d = [xn; tn] ->
    data d = pre ++ old ++ post ->
    length pre = xidx * tn + k -> length old = length l ->
    k + length l <= tn ->
    for_loop l (diff_step v xi xj xidx) k s
    = (Ok (k + length l),
       assign_diff
         (Some (mk_ndarray (nd_dtype d) [xn; tn]
            (pre ++ map (fun q => sub (item2 v xi (fst q))
                                   (item2 v xj (snd q))) l ++ post))) s).
Proof.
  intros Hs Hl Hxi Hxj Hx. induction l as [|q l IH];
    intros pre old post k s d Hin Hd Hsh Hdata Hpre Hold Hk.
  - destruct old; [|discriminate]. simpl in *. unfold ret.
    rewrite Nat.add_0_r. f_equal.
    destruct d as [dt sh da]; simpl in *; subst sh da.
    destruct s; simpl in *; subst. reflexivity.
  - destruct old as [|o old]; [discriminate|]. simpl in Hold, Hk.
    destruct (Hin q (or_introl eq_refl)) as [Hq1 Hq2].
    destruct (getitem2_ok v n t xi (fst q) Hs Hl Hxi Hq1) as [a Ea].
    destruct (getitem2_ok v n t xj (snd q) Hs Hl Hxj Hq2) as [b Eb].
    cbn [for_loop]. unfold diff_step at 1.
    unfold setitem_diff. munfold. rewrite Ea. munfold. rewrite Eb. munfold.
    rewrite Hd. munfold. unfold setitem2. rewrite Hsh.
    destruct (Nat.ltb_spec xidx xn); [|lia].
    destruct (Nat.ltb_spec k tn); [|lia]. cbn [andb]. munfold.
    set (d1 := mk_ndarray (nd_dtype d) [xn; tn]
                (<[xidx * tn + k := sub a b]> (data d))).
    rewrite (IH (pre ++ [sub a b]) old post (S k) (assign_diff (Some d1) s) d1).
    + rewrite assign_diff_twice. f_equal; [f_equal; cbn [length]; lia|].
      f_equal. f_equal. subst d1. cbn [nd_dtype map].
      rewrite (item2_ok _ _ _ _ Ea), (item2_ok _ _ _ _ Eb).
      rewrite <- app_assoc. reflexivity.
    + intros q' Hq'. apply Hin. now right.
    + reflexivity.
    + reflexivity.
    + subst d1. cbn [data]. rewrite Hdata, <- Hpre.
      rewrite insert_app_r_alt by lia. rewrite Nat.sub_diag. simpl.
      rewrite <- app_assoc. reflexivity.
    + rewrite length_app. simpl. lia.
    + lia.
    + lia.
Qed.

Lemma diff_row_length (v : ndarray V) t p :
  length (diff_row v t p) = length (triu t).
Proof. unfold diff_row. apply length_map. Qed.

Lemma fill_rows (v : ndarray V) n t xn tn :
  shape v = [n; t] -> length (data v) = n * t -> tn = length (triu t) ->
  forall l pre old post xidx s d,
    (forall p, In p l -> fst p < n /\ snd p < n) ->
    _diff s = Some d -> shape d = [xn; tn] ->
    data d = pre ++ old ++ post ->
    length pre = xidx * tn -> length old = length l * tn ->
    xidx + length l <= xn ->
    for_loop l (diff_row_step v t) xidx s
    = (Ok (xidx + length l),
       assign_diff
         (Some (mk_ndarray (nd_dtype d) [xn; tn]
            (pre ++ flat_map (diff_row v t) l ++ post))) s).
Proof.
  intros Hs Hl Htn. induction l as [|p l IH];
    intros pre old post xidx s d Hin Hd Hsh Hdata Hpre Hold Hx.
  - destruct old; [|discriminate]. simpl in *. unfold ret.
    rewrite Nat.add_0_r. f_equal.
    destruct d as [dt sh da]; simpl in *; subst sh da.
    destruct s; simpl in *; subst. reflexivity.
  - cbn [length] in Hold, Hx. cbn [for_loop].
    destruct (Hin p (or_introl eq_refl)) as [Hp1 Hp2].
    assert (Hsplit : old = take tn old ++ drop tn old)
      by (symmetry; apply take_drop).
    assert (Htake : length (take tn old) = length (triu t)).
    { rewrite length_take. lia. }
    set (d1 := mk_ndarray (nd_dtype d) [xn; tn]
                 (pre ++ diff_row v t p ++ drop tn old ++ post)).
    rewrite (bind_ok _ _ s (S xidx) (assign_diff (Some d1) s)).
    + rewrite (IH (pre ++ diff_row v t p) (drop tn old) post (S xidx)
                 (assign_diff (Some d1) s) d1).
      * rewrite assign_diff_twice. f_equal; [f_equal; cbn [length]; lia|].
        subst d1. cbn [nd_dtype flat_map].
        rewrite <- !app_assoc. reflexivity.
      * intros p' Hp'. apply Hin. now right.
      * reflexivity.
      * reflexivity.
      * subst d1. cbn [data]. rewrite <- !app_assoc. reflexivity.
      * rewrite length_app, diff_row_length. lia.
      * rewrite length_drop. lia.
      * lia.
    + unfold diff_row_step.
      rewrite (bind_ok _ _ s (0 + length (triu t)) (assign_diff (Some d1) s)).
      * reflexivity.
      * apply (fill_row v n t (fst p) (snd p) xidx xn tn Hs Hl Hp1 Hp2)
          with (old := take tn old); try assumption; try lia.
        -- intros q Hq. destruct q as [ti tj].
           apply triu_bounds in Hq. simpl. lia.
        -- rewrite Hdata, Hsplit at 1. rewrite <- !app_assoc. reflexivity.
Qed.

Lemma calc_diff_loops (v : ndarray V) outer inner s :
  for_loop (range outer) (fun xi xidx =>
    for_loop (range outer) (fun xj xidx =>
      if xi <? xj then
        let! _ :=
          for_loop (range inner) (fun ti tidx =>
            for_loop (range inner) (fun tj tidx =>
              if ti <? tj then
                let! a := lift (getitem2 v xi ti) in
                let! b := lift (getitem2 v xj tj) in
                setitem_diff xidx tidx (sub a b);;
                ret (S tidx)
              else ret tidx) tidx) 0 in
        ret (S xidx)
      else ret xidx) xidx) 0 s
  = for_loop (triu outer) (diff_row_step v inner) 0 s.
Proof.
  rewrite (nested_loops_triu outer (fun xi xj xidx =>
    let! _ :=
      for_loop (range inner) (fun ti tidx =>
        for_loop (range inner) (fun tj tidx =>
          if ti <? tj then
            let! a := lift (getitem2 v xi ti) in
            let! b := lift (getitem2 v xj tj) in
            setitem_diff xidx tidx (sub a b);;
            ret (S tidx)
          else ret tidx) tidx) 0 in
    ret (S xidx))).
  apply for_loop_ext. intros p xidx s'. unfold diff_row_step.
  unfold bind at 1 4.
  rewrite (nested_loops_triu inner (fun ti tj tidx =>
    let! a := lift (getitem2 v p.1 ti) in
    let! b := lift (getitem2 v p.2 tj) in
    setitem_diff xidx tidx (sub a b);;
    ret (S tidx))).
  reflexivity.
Qed.

Lemma assign_xdist_same s xd :
  _xdist s = Some xd -> assign_xdist (Some xd) s = s.
Proof. destruct s; simpl; intros ->; reflexivity. Qed.

Lemma assign_tdist_same s td :
  _tdist s = Some td -> assign_tdist (Some td) s = s.
Proof. destruct s; simpl; intros ->; reflexivity. Qed.

Lemma calc_xdist_ready s :
  distance_ready (_xdist s) (_xdist_func s) (length (_X s)) ->
  exists xd,
    __calc_xdist false s = (Ok tt, assign_xdist (Some xd) s) /\
    length xd = length (triu (length (_X s))).
Proof.
  unfold distance_ready, __calc_xdist, xdist_func. mstep.
  destruct (_xdist s) as [xd|] eqn:E; cbn [is_none orb].
  - intros Hlen. exists xd. split; [|exact Hlen].
    now rewrite assign_xdist_same.
  - intros (name & f & Hname & Hf). eexists. split.
    + do 2 mstep. rewrite Hname. mstep. unfold pdist. rewrite Hf.
      mstep. reflexivity.
    + apply length_map.
Qed.

Lemma xdistance_ready s :
  distance_ready (_xdist s) (_xdist_func s) (length (_X s)) ->
  exists xd,
    xdistance s = (Ok (Some xd), assign_xdist (Some xd) s) /\
    length xd = length (triu (length (_X s))).
Proof.
  intros Hr. destruct (calc_xdist_ready s Hr) as (xd & E & Hlen).
  exists xd. split; [|exact Hlen]. unfold xdistance. now mstep.
Qed.

Lemma values_shape1_ok s (v : ndarray V) n t :
  _values s = Some v -> shape v = [n; t] -> values_shape1 s = (Ok t, s).
Proof.
  intros Hv Hsh. unfold values_shape1, values. munfold. rewrite Hv. munfold.
  now rewrite Hsh.
Qed.

Lemma calc_tdist_ready s (v : ndarray V) n t :
  _values s = Some v -> shape v = [n; t] ->
  distance_ready (_tdist s) (_tdist_func s) t ->
  exists td,
    __calc_tdist false s = (Ok tt, assign_tdist (Some td) s) /\
    length td = length (triu t).
Proof.
  intros Hv Hsh. pose proof (values_shape1_ok s v n t Hv Hsh) as Hn.
  unfold distance_ready, __calc_tdist, tdist_func. mstep.
  destruct (_tdist s) as [td|] eqn:E; cbn [is_none orb].
  - intros Hlen. exists td. split; [|exact Hlen].
    now rewrite assign_tdist_same.
  - intros (name & f & Hname & Hf). eexists. split.
    + do 3 mstep. rewrite Hname. mstep. unfold pdist. rewrite Hf.
      mstep. reflexivity.
    + rewrite length_map, length_zip_with, length_replicate.
      unfold range. rewrite length_seq, Nat.min_id. reflexivity.
Qed.

Lemma tdistance_ready s (v : ndarray V) n t :
  _values s = Some v -> shape v = [n; t] ->
  distance_ready (_tdist s) (_tdist_func s) t ->
  exists td,
    tdistance s = (Ok (Some td), assign_tdist (Some td) s) /\
    length td = length (triu t).
Proof.
  intros Hv Hsh Hr.
  destruct (calc_tdist_ready s v n t Hv Hsh Hr) as (td & E & Hlen).
  exists td. split; [|exact Hlen]. unfold tdistance. now mstep.
Qed.

(** In an instance with n coordinates and an (n, t) value matrix, each of
    whose distance caches is empty or holds one distance per pair,
    [_calc_diff] succeeds and stores a tensor of shape (n(n-1)/2, t(t-1)/2)
    whose entry [a, b] is value[i, ti] - value[j, tj] for the a-th pair
    (i, j) of the strict upper triangle over the points and the b-th pair
    (ti, tj) of the strict upper triangle over the time steps, both in
    row-major order. *)
Lemma calc_diff_tensor s (v : ndarray V) n t force :
  length (_X s) = n ->
  _values s = Some v -> shape v = [n; t] -> length (data v) = n * t ->
  distance_ready (_xdist s) (_xdist_func s) n ->
  distance_ready (_tdist s) (_tdist_func s) t ->
  force = true \/ _diff s = None ->
  exists d s',
    _calc_diff force s = (Ok tt, s') /\
    _diff s' = Some d /\
    shape d = [n * (n - 1) / 2; t * (t - 1) / 2] /\
    forall a b i j ti tj,
      triu n !! a = Some (i, j) -> triu t !! b = Some (ti, tj) ->
      exists x y,
        getitem2 v i ti = Ok x /\ getitem2 v j tj = Ok y /\
        getitem2 d a b = Ok (sub x y).
Proof.
  intros HX Hv Hsh Hl Hxr Htr Hf. subst n.
  destruct (xdistance_ready s Hxr) as (xd & Exd & Lxd).
  set (s1 := assign_xdist (Some xd) s) in *.
  destruct (tdistance_ready s1 v _ t Hv Hsh Htr) as (td & Etd & Ltd).
  set (s2 := assign_tdist (Some td) s1) in *.
  set (n := length (_X s)) in *.
  set (d := mk_ndarray float64 [length (triu n); length (triu t)]
              (diff_data v n t)).
  exists d, (assign_diff (Some d) s2).
  assert (Hv2 : _values s2 = Some v) by exact Hv.
  split; [|split; [reflexivity|split]].
  - unfold _calc_diff.
    rewrite (bind_ok _ _ s (_diff s) s) by reflexivity.
    replace (negb force && negb (is_none (_diff s))) with false
      by (destruct Hf as [-> | ->]; [reflexivity|now destruct force]).
    rewrite (bind_ok _ _ _ _ _ Exd).
    rewrite (bind_ok _ _ s1 (length xd) s1) by reflexivity.
    rewrite (bind_ok _ _ _ _ _ Etd).
    rewrite (bind_ok _ _ s2 (length td) s2) by reflexivity.
    rewrite (bind_ok _ _ s2 (Some v) s2) by (unfold values, attr; now rewrite Hv2).
    rewrite (bind_ok _ _ s2 v s2) by reflexivity.
    rewrite Hsh.
    rewrite (bind_ok _ _ s2 (Some v) s2) by (unfold values, attr; now rewrite Hv2).
    rewrite (bind_ok _ _ s2 v s2) by reflexivity.
    rewrite (bind_ok _ _ s2 tt
               (assign_diff (Some (nan_matrix (length xd) (length td))) s2))
      by reflexivity.
    rewrite (bind_ok _ _ _ (0 + length (triu n)) (assign_diff (Some d) s2));
      [reflexivity|].
    rewrite calc_diff_loops, Lxd, Ltd. fold n.
    rewrite (fill_rows v n t (length (triu n)) (length (triu t)) Hsh Hl
               eq_refl (triu n) [] (replicate (length (triu n)
                 * length (triu t)) nan) [] 0 _ (nan_matrix (length (triu n))
                 (length (triu t)))).
    + rewrite assign_diff_twice. f_equal. f_equal. f_equal. subst d.
      unfold nan_matrix, diff_data. cbn [nd_dtype app]. f_equal.
      apply app_nil_r.
    + intros [i j] Hin. apply triu_bounds in Hin. simpl. lia.
    + reflexivity.
    + reflexivity.
    + cbn [nan_matrix data app]. now rewrite app_nil_r.
    + reflexivity.
    + apply length_replicate.
    + lia.
  - subst d. cbn [shape]. now rewrite !triu_length.
  - intros a b i j ti tj Ha Hb.
    assert (Hij : i < j /\ j < n).
    { apply triu_bounds, list_elem_of_In.
      eapply list_elem_of_lookup_2, Ha. }
    assert (Htt : ti < tj /\ tj < t).
    { apply triu_bounds, list_elem_of_In.
      eapply list_elem_of_lookup_2, Hb. }
    destruct (getitem2_ok v n t i ti Hsh Hl) as [x Ex]; [lia..|].
    destruct (getitem2_ok v n t j tj Hsh Hl) as [y Ey]; [lia..|].
    exists x, y. split; [exact Ex|split; [exact Ey|]].
    unfold getitem2. subst d. cbn [shape data].
    apply lookup_lt_Some in Ha as Ha'. apply lookup_lt_Some in Hb as Hb'.
    destruct (Nat.ltb_spec a (length (triu n))); [|lia].
    destruct (Nat.ltb_spec b (length (triu t))); [|lia]. cbn [andb].
    unfold diff_data.
    rewrite (flat_map_lookup_rows (diff_row v t) (length (triu t)) (triu n)
               a b (i, j) (sub x y)); [reflexivity| |exact Ha|].
    + intros p. apply diff_row_length.
    + unfold diff_row. rewrite list_lookup_fmap, Hb. cbn.
      now rewrite (item2_ok _ _ _ _ Ex), (item2_ok _ _ _ _ Ey).
Qed.
End CalcDiff.

(** ** Lag grouping *)

Section Classify.

Lemma Qgt_bool_iff x y : Qgt_bool x y = true <-> (y < x)%Q.
Proof.
  unfold Qgt_bool. rewrite negb_true_iff, <- not_true_iff_false, Qle_bool_iff.
  split; [apply Qnot_le_lt|apply Qlt_not_le].
Qed.

Lemma in_bounds_iff x lo hi :
  in_bounds x (lo, hi) = true <-> (lo < x)%Q /\ (x <= hi)%Q.
Proof.
  unfold in_bounds. cbn [fst snd].
  now rewrite andb_true_iff, Qgt_bool_iff, Qle_bool_iff.
Qed.

Lemma assign_where_map (d : list Q) (f0 : Q -> Z) i b :
  assign_where d (map f0 d) i b
  = map (fun x => if in_bounds x b then Z.of_nat i else f0 x) d.
Proof.
  unfold assign_where, in_bounds. induction d as [|x d IH]; [reflexivity|].
  cbn. now rewrite IH.
Qed.

Lemma classify_fold (d : list Q) (l : list (nat * (Q * Q))) (f0 : Q -> Z) :
  fold_left (fun grp ib => assign_where d grp (fst ib) (snd ib)) l (map f0 d)
  = map (fun x => fold_left (step x) l (f0 x)) d.
Proof.
  revert f0. induction l as [|ib l IH]; intros f0; [reflexivity|].
  cbn [fold_left]. rewrite assign_where_map. apply (IH (fun x => step x (f0 x) ib)).
Qed.

Lemma classify_map d bins : classify d bins = map (class_of bins) d.
Proof.
  unfold classify, class_of.
  replace (replicate (length d) (-1)%Z) with (map (fun _ : Q => (-1)%Z) d).
  - apply classify_fold.
  - induction d; [reflexivity|]. cbn. now f_equal.
Qed.

Lemma classify_length d bins : length (classify d bins) = length d.
Proof. rewrite classify_map. apply length_map. Qed.

Lemma classify_lookup d bins k x :
  d !! k = Some x -> classify d bins !! k = Some (class_of bins x).
Proof. intros E. now rewrite classify_map, list_lookup_fmap, E. Qed.

Lemma fold_step_none x l g :
  (forall ib, In ib l -> in_bounds x (snd ib) = false) ->
  fold_left (step x) l g = g.
Proof.
  revert g. induction l as [|ib l IH]; intros g Hn; [reflexivity|].
  cbn [fold_left]. unfold step at 2. rewrite (Hn ib) by now left.
  apply IH. intros ib' Hin. apply Hn. now right.
Qed.

Lemma fold_step_last x l1 ib l2 g :
  in_bounds x (snd ib) = true ->
  (forall ib', In ib' l2 -> in_bounds x (snd ib') = false) ->
  fold_left (step x) (l1 ++ ib :: l2) g = Z.of_nat (fst ib).
Proof.
  intros Hm Hn. rewrite fold_left_app. cbn [fold_left]. unfold step at 2.
  rewrite Hm. now apply fold_step_none.
Qed.

Lemma fold_step_sound x l g :
  fold_left (step x) l g = g \/
  exists ib, In ib l /\ in_bounds x (snd ib) = true /\
    fold_left (step x) l g = Z.of_nat (fst ib).
Proof.
  revert g. induction l as [|ib l IH]; intros g; [now left|].
  cbn [fold_left]. destruct (IH (step x g ib)) as [E|(ib' & Hin & Hm & E)].
  - rewrite E. unfold step. destruct (in_bounds x (snd ib)) eqn:Hm.
    + right. exists ib. split; [now left|]. split; [exact Hm|reflexivity].
    + now left.
  - right. exists ib'. split; [now right|]. now split.
Qed.

Lemma enumerate_lookup {A : Type} (l : list A) i k a :
  enumerate l !! i = Some (k, a) <-> k = i /\ l !! i = Some a.
Proof.
  unfold enumerate. rewrite lookup_zip_with_Some. split.
  - intros (k' & a' & E & Hk & Ha). inversion E; subst.
    apply lookup_seq in Hk as [-> _]. now split.
  - intros [-> Ha]. exists i, a. split; [reflexivity|]. split; [|exact Ha].
    apply lookup_seq. split; [reflexivity|]. now apply lookup_lt_Some in Ha.
Qed.

Lemma bounds_lookup bins i k lo hi :
  enumerate (zip (0%Q :: bins) bins) !! i = Some (k, (lo, hi)) <->
  k = i /\ lower_edge bins i = Some lo /\ bins !! i = Some hi.
Proof.
  rewrite enumerate_lookup, lookup_zip_with_Some. unfold lower_edge. split.
  - intros (-> & lo' & hi' & E & Hlo & Hhi). inversion E; subst. now repeat split.
  - intros (-> & Hlo & Hhi). split; [reflexivity|]. now exists lo, hi.
Qed.

Lemma in_class_bounds bins x i :
  in_class bins x i <->
  exists b, enumerate (zip (0%Q :: bins) bins) !! i = Some (i, b) /\
    in_bounds x b = true.
Proof.
  unfold in_class. split.
  - intros (lo & hi & Hlo & Hhi & H1 & H2). exists (lo, hi). split.
    + now apply bounds_lookup.
    + now apply in_bounds_iff.
  - intros ([lo hi] & Hl & Hb). apply bounds_lookup in Hl as (_ & Hlo & Hhi).
    apply in_bounds_iff in Hb as [H1 H2]. now exists lo, hi.
Qed.

(** a group index other than -1 is the index of a class the distance is in *)
Lemma class_of_sound bins x :
  class_of bins x = (-1)%Z \/
  exists i, in_class bins x i /\ class_of bins x = Z.of_nat i.
Proof.
  unfold class_of.
  destruct (fold_step_sound x (enumerate (zip (0%Q :: bins) bins)) (-1)%Z)
    as [E|([k b] & Hin & Hm & E)]; [now left|right].
  apply list_elem_of_In, list_elem_of_lookup in Hin as [i Hi].
  destruct b as [lo hi]. pose proof Hi as Hi'.
  apply bounds_lookup in Hi' as (-> & _). exists i. split; [|exact E].
  apply in_class_bounds. now exists (lo, hi).
Qed.

(** in nondecreasing edges a distance is in at most one class *)
Lemma in_class_unique bins x i j :
  nondecreasing bins -> in_class bins x i -> in_class bins x j -> i = j.
Proof.
  assert (Hlt : forall i j, nondecreasing bins -> i < j ->
            in_class bins x i -> in_class bins x j -> False).
  { clear i j. intros i j Hs Hij (lo & hi & _ & Hhi & _ & Hx)
      (lo' & hi' & Hlo' & _ & Hx' & _).
    unfold lower_edge in Hlo'. destruct j as [|j]; [lia|].
    change ((0%Q :: bins) !! S j) with (bins !! j) in Hlo'.
    assert (hi <= lo')%Q by (apply (Hs i j); [lia|assumption..]).
    apply (Qlt_irrefl x). eapply Qle_lt_trans; [|exact Hx'].
    eapply Qle_trans; eassumption. }
  intros Hs Hi Hj. destruct (Nat.lt_trichotomy i j) as [H|[H|H]];
    [exfalso; eauto|exact H|exfalso; eauto].
Qed.

Lemma class_of_in_class bins x i :
  nondecreasing bins -> in_class bins x i -> class_of bins x = Z.of_nat i.
Proof.
  intros Hs Hi. pose proof Hi as Hi'.
  apply in_class_bounds in Hi' as (b & Hl & Hb).
  unfold class_of.
  rewrite <- (take_drop_middle _ _ _ Hl).
  rewrite (fold_step_last x _ (i, b)); [reflexivity|exact Hb|].
  intros [k b'] Hin. cbn [snd].
  destruct (in_bounds x b') eqn:Hb'; [exfalso|reflexivity].
  apply list_elem_of_In, list_elem_of_lookup in Hin as [m Hm].
  rewrite lookup_drop in Hm. pose proof Hm as Hm'. destruct b' as [lo hi].
  apply bounds_lookup in Hm' as (-> & _).
  assert (Hc : in_class bins x (S i + m)).
  { apply in_class_bounds. now exists (lo, hi). }
  pose proof (in_class_unique bins x i (S i + m) Hs Hi Hc). lia.
Qed.

Lemma class_of_none bins x :
  (forall i, ~ in_class bins x i) -> class_of bins x = (-1)%Z.
Proof.
  intros Hn. destruct (class_of_sound bins x) as [E|(i & Hi & _)];
    [exact E|]. now destruct (Hn i).
Qed.

(** C2.  For nondecreasing bin edges, lag grouping gives each distance the
    smallest index i with edge[i-1] < d <= edge[i] (edge[-1] = 0), and -1
    when there is none; a distance equal to edge[i] (above edge[i-1]) gets
    class i, and never class i+1. *)
Theorem calc_group_classes (d bins : list Q) (k : nat) (x : Q) :
  nondecreasing bins -> d !! k = Some x ->
  (forall i, in_class bins x i -> (forall j, j < i -> ~ in_class bins x j) ->
     classify d bins !! k = Some (Z.of_nat i)) /\
  ((forall i, ~ in_class bins x i) -> classify d bins !! k = Some (-1)%Z) /\
  (forall i lo e, lower_edge bins i = Some lo -> bins !! i = Some e ->
     (x == e)%Q -> (lo < e)%Q -> classify d bins !! k = Some (Z.of_nat i)) /\
  (forall i e, bins !! i = Some e -> (x == e)%Q ->
     classify d bins !! k <> Some (Z.of_nat (S i))).
Proof.
  intros Hs Hk. rewrite (classify_lookup d bins k x Hk).
  split; [|split; [|split]].
  - intros i Hi _. f_equal. now apply class_of_in_class.
  - intros Hn. f_equal. now apply class_of_none.
  - intros i lo e Hlo He Hx Hlt. f_equal. apply class_of_in_class; [exact Hs|].
    exists lo, e. repeat split; try assumption.
    + now rewrite Hx.
    + rewrite Hx. apply Qle_refl.
  - intros i e He Hx E. inversion E as [E'].
    destruct (class_of_sound bins x) as [E1|(j & Hj & E1)]; [lia|].
    assert (j = S i) by lia. subst j.
    destruct Hj as (lo & hi & Hlo & _ & Hlt & _).
    unfold lower_edge in Hlo.
    change ((0%Q :: bins) !! S i) with (bins !! i) in Hlo. rewrite He in Hlo.
    inversion Hlo; subst lo. rewrite Hx in Hlt. now apply Qlt_irrefl in Hlt.
Qed.
End Classify.

(** ** Counting the classified pairs *)

Section Counting.

Lemma nondecreasing_tail e bins : nondecreasing (e :: bins) -> nondecreasing bins.
Proof. intros Hs i j a b Hij Ha Hb. apply (Hs (S i) (S j)); [lia|assumption..]. Qed.

Lemma in_class_from_cover x bins lo :
  (lo < x)%Q -> (exists e, last bins = Some e /\ (x <= e)%Q) ->
  exists i l h, (lo :: bins) !! i = Some l /\ bins !! i = Some h /\
    (l < x)%Q /\ (x <= h)%Q.
Proof.
  revert lo. induction bins as [|e bins IH]; intros lo Hlo (z & Hz & Hx).
  - discriminate.
  - destruct (Qlt_le_dec e x) as [Hlt|Hle].
    + destruct (IH e Hlt) as (i & l & h & Hl & Hh & H1 & H2).
      * destruct bins as [|e' bins]; [|now exists z].
        cbn in Hz. inversion Hz; subst z. exfalso.
        apply (Qlt_irrefl x). eapply Qle_lt_trans; eassumption.
      * exists (S i), l, h. now repeat split.
    + exists 0, lo, e. now repeat split.
Qed.

Lemma in_class_within_last bins x :
  nondecreasing (0%Q :: bins) ->
  (exists i, in_class bins x i) <-> within_last bins x = true.
Proof.
  intros Hs. unfold within_last.
  rewrite andb_true_iff, Qgt_bool_iff, Qle_bool_iff. split.
  - intros (i & lo & hi & Hlo & Hhi & H1 & H2). split.
    + eapply Qle_lt_trans; [|exact H1].
      apply (Hs 0 i); [lia|reflexivity|exact Hlo].
    + destruct (last bins) as [z|] eqn:Hz.
      * cbn. eapply Qle_trans; [exact H2|]. rewrite last_lookup in Hz.
        apply (nondecreasing_tail _ _ Hs i (pred (length bins)));
          [|assumption..].
        apply lookup_lt_Some in Hhi. lia.
      * apply last_None in Hz. subst bins. discriminate.
  - intros [H1 H2]. destruct (last bins) as [z|] eqn:Hz.
    + destruct (in_class_from_cover x bins 0%Q H1) as (i & l & h & ?);
        [now exists z|].
      exists i, l, h. assumption.
    + cbn in H2. exfalso. apply (Qlt_irrefl x).
      eapply Qle_lt_trans; eassumption.
Qed.

Lemma classified_within_last bins x :
  nondecreasing (0%Q :: bins) ->
  classified (class_of bins x) = within_last bins x.
Proof.
  intros Hs. apply eq_true_iff_eq.
  rewrite <- (in_class_within_last bins x Hs). unfold classified.
  rewrite negb_true_iff, Z.eqb_neq. split.
  - intros Hne. destruct (class_of_sound bins x) as [E|(i & Hi & _)];
      [contradiction|now exists i].
  - intros [i Hi].
    rewrite (class_of_in_class bins x i (nondecreasing_tail _ _ Hs) Hi). lia.
Qed.

Lemma count_map {A B : Type} (f : A -> B) (p : B -> bool) (l : list A) :
  count p (map f l) = count (fun a => p (f a)) l.
Proof.
  unfold count. induction l as [|a l IH]; [reflexivity|].
  cbn. destruct (p (f a)); cbn; now rewrite IH.
Qed.

(** C7, as the code has it.  For bin edges in nondecreasing order from 0,
    the number of grouped entries (group index other than -1) is the number
    of distances d with 0 < d <= last edge. *)
Theorem calc_group_classified_count (d bins : list Q) :
  nondecreasing (0%Q :: bins) ->
  count classified (classify d bins) = count (within_last bins) d.
Proof.
  intros Hs. rewrite classify_map, count_map. unfold count. f_equal.
  apply List.filter_ext. intros x. now apply classified_within_last.
Qed.
End Counting.

(** ** Read-only computations *)

Section ReadOnly.
Context {S : Type}.

Lemma read_only_ret {A} (a : A) : read_only (S := S) (ret a).
Proof. intros s. reflexivity. Qed.

Lemma read_only_raise {A} e : read_only (S := S) (A := A) (raise e).
Proof. intros s. reflexivity. Qed.

Lemma read_only_lift {A} (r : res A) : read_only (S := S) (lift r).
Proof. intros s. reflexivity. Qed.

Lemma read_only_attr {T} (f : S -> T) : read_only (attr f).
Proof. intros s. reflexivity. Qed.

Lemma read_only_bind {A B} (m : MS S A) (k : A -> MS S B) :
  read_only m -> (forall a, read_only (k a)) -> read_only (bind m k).
Proof.
  intros Hm Hk s. unfold bind. specialize (Hm s).
  destruct (m s) as [[a|e] s1]; simpl in Hm; subst s1; [apply Hk|reflexivity].
Qed.

Lemma read_only_for_list {A B} (f : A -> MS S B) l :
  (forall a, read_only (f a)) -> read_only (for_list f l).
Proof.
  intros Hf. induction l as [|a l IH]; [apply read_only_ret|].
  cbn [for_list]. apply read_only_bind; [apply Hf|]. intros b.
  apply read_only_bind; [exact IH|]. intros bs. apply read_only_ret.
Qed.

(** every element of a successful read-only comprehension was computed in
    the initial state *)
Lemma for_list_inv {A B} (f : A -> MS S B) l s bs s' :
  (forall a, read_only (f a)) ->
  for_list f l s = (Ok bs, s') ->
  s' = s /\ Forall2 (fun a b => f a s = (Ok b, s)) l bs.
Proof.
  intros Hf. revert bs s'. induction l as [|a l IH]; intros bs s' E.
  - inversion E; subst. split; [reflexivity|constructor].
  - cbn [for_list] in E. unfold bind in E.
    pose proof (Hf a s) as Ha. destruct (f a s) as [[b|e] s1] eqn:Ea;
      [|discriminate]. simpl in Ha. subst s1.
    destruct (for_list f l s) as [[bs'|e] s2] eqn:El; [|discriminate].
    destruct (IH bs' s2 eq_refl) as [-> HF]. inversion E; subst.
    split; [reflexivity|]. now constructor.
Qed.

Lemma for_list_intro {A B} (f : A -> MS S B) l s bs :
  Forall2 (fun a b => f a s = (Ok b, s)) l bs ->
  for_list f l s = (Ok bs, s).
Proof.
  induction 1 as [|a b l bs Hab _ IH]; [reflexivity|].
  cbn [for_list]. unfold bind. now rewrite Hab, IH.
Qed.
End ReadOnly.

Lemma concat_lookup_rows {A : Type} (ls : list (list A)) c a b row :
  Forall (fun r => length r = c) ls ->
  ls !! a = Some row -> b < c ->
  concat ls !! (a * c + b) = row !! b.
Proof.
  intros Hlen. revert a. induction Hlen as [|r ls Hr _ IH]; intros a Ha Hb.
  - discriminate.
  - cbn [concat]. destruct a as [|a]; simpl in *.
    + inversion Ha; subst. apply lookup_app_l. lia.
    + rewrite lookup_app_r by lia.
      replace (c + a * c + b - length r) with (a * c + b) by lia.
      now apply IH.
Qed.

Lemma concat_length_rows {A : Type} (ls : list (list A)) c :
  Forall (fun r => length r = c) ls -> length (concat ls) = length ls * c.
Proof.
  induction 1 as [|r ls Hr _ IH]; [reflexivity|].
  cbn [concat length]. rewrite length_app, IH, Hr. lia.
Qed.

(** ** The experimental surface and its marginals *)

Section Surface.
Context `{Numeric} `{DistanceEngine} `{!Binning}.
Local Open Scope py_scope.

Lemma for_list_ext_read_only {A B} (f g : A -> M B) l s :
  (forall a, read_only (f a)) -> (forall a, f a s = g a s) ->
  for_list f l s = for_list g l s.
Proof.
  intros Hf E. induction l as [|a l IH]; [reflexivity|].
  cbn [for_list]. unfold bind. rewrite <- E. pose proof (Hf a s) as Ha.
  destruct (f a s) as [[b|e] s1]; [|reflexivity]. simpl in Ha. subst s1.
  now rewrite IH.
Qed.

Lemma values_shape1_read_only : read_only values_shape1.
Proof.
  unfold values_shape1, values, need.
  apply read_only_bind; [apply read_only_attr|]. intros [v|].
  - apply read_only_bind; [apply read_only_ret|]. intros a.
    destruct (shape a) as [|? [|? ?]];
      first [apply read_only_ret | apply read_only_raise].
  - apply read_only_bind; [apply read_only_raise|]. intros a.
    destruct (shape a) as [|? [|? ?]];
      first [apply read_only_ret | apply read_only_raise].
Qed.

Lemma t_lags_read_only : read_only t_lags.
Proof.
  unfold t_lags. apply read_only_bind; [apply read_only_attr|].
  intros [| | |str| |]; try apply read_only_ret.
  destruct (String.eqb (lower str) "max"); [|apply read_only_raise].
  apply read_only_bind; [apply values_shape1_read_only|].
  intros n. apply read_only_ret.
Qed.

Lemma diff_select_cached s d xg tg x t :
  _diff s = Some d ->
  diff_select (Some xg) (Some tg) (Z.of_nat x) (Z.of_nat t) s
  = (cell_members d xg tg x t, s).
Proof. intros Hd. unfold diff_select. mstep. rewrite Hd. now mstep. Qed.

Lemma diff_select_read_only xgrp tgrp x t :
  read_only (diff_select xgrp tgrp x t).
Proof.
  unfold diff_select, need. apply read_only_bind; [apply read_only_attr|].
  intros [d|]; (apply read_only_bind;
    [first [apply read_only_ret | apply read_only_raise]|]);
    intros d'; apply read_only_lift.
Qed.

Lemma get_member_cached s d xg tg x t :
  _diff s = Some d -> _xgroups s = Some xg -> _tgroups s = Some tg ->
  _get_member (Z.of_nat x) (Z.of_nat t) s = (cell_members d xg tg x t, s).
Proof.
  intros Hd Hx Ht. unfold _get_member. do 3 mstep. rewrite Hd, Hx, Ht.
  now mstep.
Qed.

Lemma apply_estimator_cached s e vals :
  _estimator s = Some e -> apply_estimator vals s = (call e vals, s).
Proof. intros He. unfold apply_estimator, estimator. mstep. rewrite He. now mstep. Qed.

Lemma apply_estimator_read_only vals : read_only (apply_estimator vals).
Proof.
  unfold apply_estimator, estimator, need.
  apply read_only_bind; [apply read_only_attr|]. intros [e|].
  - apply read_only_bind; [apply read_only_ret|]. intros e'.
    apply read_only_lift.
  - apply read_only_bind; [apply read_only_raise|]. intros e'.
    apply read_only_lift.
Qed.

(** a selection handed to the estimator: both must return *)
Lemma estimate_cell_inv s e (r : res (list V)) v s' :
  _estimator s = Some e ->
  (let! vals := lift r in apply_estimator vals) s = (Ok v, s') ->
  exists c, r = Ok c /\ call e c = Ok v.
Proof.
  intros He E. unfold bind, lift in E. destruct r as [c|err]; [|discriminate].
  rewrite (apply_estimator_cached s e c He) in E. exists c.
  split; [reflexivity|]. now inversion E.
Qed.

Lemma estimate_cell_ok s e (r : res (list V)) c v :
  _estimator s = Some e -> r = Ok c -> call e c = Ok v ->
  (let! vals := lift r in apply_estimator vals) s = (Ok v, s).
Proof.
  intros He -> Hv. unfold bind, lift.
  now rewrite (apply_estimator_cached s e c He), Hv.
Qed.

Lemma x_lags_value s nx : fst (x_lags s) = Ok nx -> x_lags s = (Ok nx, s).
Proof. unfold x_lags, attr. cbn. now intros [= ->]. Qed.

Lemma t_lags_value s nt : fst (t_lags s) = Ok nt -> t_lags s = (Ok nt, s).
Proof.
  intros E. pose proof (t_lags_read_only s) as Hs.
  destruct (t_lags s) as [r s1]. simpl in *. now subst.
Qed.

(** on an instance whose tensor and groups are cached, the generator
    yields the members of the cells, space lag by space lag, to a consumer
    that does not change the instance *)
Lemma lag_classes_cached {B} (consume : list V -> M B) s d xg tg nx nt :
  (forall vals, read_only (consume vals)) ->
  _diff s = Some d -> _xgroups s = Some xg -> _tgroups s = Some tg ->
  fst (x_lags s) = Ok (PyInt nx) -> fst (t_lags s) = Ok (PyInt nt) ->
  lag_classes consume s
  = (let! cells :=
       for_list (fun x =>
         for_list (fun t =>
           let! vals := lift (cell_members d xg tg x t) in consume vals)
           (range (Z.to_nat nt))) (range (Z.to_nat nx)) in
     ret (concat cells)) s.
Proof.
  intros Hro Hd Hx Ht Hnx Hnt. apply x_lags_value in Hnx.
  apply t_lags_value in Hnt. unfold lag_classes.
  mstep. rewrite Hd. cbn [is_none]. mstep.
  assert (Exg : lag_groups (PyStr "space") s = (Ok (Some xg), s)).
  { unfold lag_groups. change (parse_axis "space") with (Some AxSpace).
    cbv beta iota. mstep. rewrite Hx. cbn [is_none]. mstep.
    unfold attr. now rewrite Hx. }
  assert (Etg : lag_groups (PyStr "time") s = (Ok (Some tg), s)).
  { unfold lag_groups. change (parse_axis "time") with (Some AxTime).
    cbv beta iota. mstep. rewrite Ht. cbn [is_none]. mstep. unfold attr. now rewrite Ht. }
  do 4 mstep. unfold bind at 1.
  rewrite (for_list_ext_read_only _
    (fun x => for_list (fun t =>
                let! vals := lift (cell_members d xg tg x t) in consume vals)
                (range (Z.to_nat nt)))).
  - reflexivity.
  - intros x. apply read_only_bind; [apply t_lags_read_only|]. intros tl.
    apply read_only_bind; [apply read_only_lift|]. intros tr.
    apply read_only_for_list. intros t.
    apply read_only_bind; [apply diff_select_read_only|exact Hro].
  - intros x. do 2 mstep. apply for_list_ext_read_only.
    + intros t.
      apply read_only_bind; [apply diff_select_read_only|exact Hro].
    + intros t. unfold bind at 1.
      now rewrite (diff_select_cached s d xg tg x t Hd).
Qed.

(** the flat surface: entry x * t_lags + t is the estimator applied to the
    members of cell (x, t) *)
Lemma experimental_cells s d xg tg nx nt z s' :
  _diff s = Some d -> _xgroups s = Some xg -> _tgroups s = Some tg ->
  fst (x_lags s) = Ok (PyInt nx) -> fst (t_lags s) = Ok (PyInt nt) ->
  experimental s = (Ok z, s') ->
  exists e, _estimator s = Some e /\ s' = s /\
    shape z = [Z.to_nat nx * Z.to_nat nt] /\
    forall x t, x < Z.to_nat nx -> t < Z.to_nat nt ->
      exists c v, cell_members d xg tg x t = Ok c /\ call e c = Ok v /\
        data z !! (x * Z.to_nat nt + t) = Some v.
Proof.
  intros Hd Hx Ht Hnx Hnt. unfold experimental, _get_experimental, estimator.
  mstep. destruct (_estimator s) as [e|] eqn:He; [|discriminate].
  mstep. destruct (__name__ e) as [name|]; [|discriminate]. mstep.
  destruct (String.eqb name "entropy"); [discriminate|].
  unfold bind at 1.
  rewrite (lag_classes_cached apply_estimator s d xg tg nx nt)
    by (assumption || apply apply_estimator_read_only).
  unfold bind at 1.
  assert (Hro : forall x t,
            read_only (let! vals := lift (cell_members d xg tg x t) in
                       apply_estimator vals)).
  { intros x t. apply read_only_bind; [apply read_only_lift|].
    apply apply_estimator_read_only. }
  destruct (for_list _ (range (Z.to_nat nx)) s) as [[cells|err] s1] eqn:Ec;
    [|discriminate].
  apply for_list_inv in Ec as [-> Hcells].
  2:{ intros x. apply read_only_for_list. intros t. apply Hro. }
  unfold ret. intros [= <- <-]. exists e. split; [reflexivity|].
  split; [reflexivity|].
  assert (Hrows : Forall (fun r => length r = Z.to_nat nt) cells).
  { apply Forall_forall. intros r Hr.
    apply list_elem_of_lookup in Hr as [x Hr].
    destruct (Forall2_lookup_r _ _ _ _ _ Hcells Hr) as (x' & _ & Er).
    apply for_list_inv in Er as [_ Er].
    2:{ intros t. apply Hro. }
    apply Forall2_length in Er. unfold range in Er.
    now rewrite length_seq in Er. }
  split.
  - unfold fromiter. cbn [shape]. f_equal.
    rewrite (concat_length_rows cells (Z.to_nat nt) Hrows).
    apply Forall2_length in Hcells. unfold range in Hcells.
    rewrite length_seq in Hcells. now rewrite <- Hcells.
  - intros x t Hxl Htl.
    assert (Hrx : range (Z.to_nat nx) !! x = Some x).
    { unfold range. apply lookup_seq. lia. }
    destruct (Forall2_lookup_l _ _ _ _ _ Hcells Hrx) as (row & Hrow & Er).
    apply for_list_inv in Er as [_ Er].
    2:{ intros t'. apply Hro. }
    assert (Hrt : range (Z.to_nat nt) !! t = Some t).
    { unfold range. apply lookup_seq. lia. }
    destruct (Forall2_lookup_l _ _ _ _ _ Er Hrt) as (v & Hv & Ev).
    apply (estimate_cell_inv s e) in Ev as (c & Ec & Ecall); [|exact He].
    exists c, v. split; [exact Ec|]. split; [exact Ecall|].
    cbn [fromiter data].
    rewrite (concat_lookup_rows cells (Z.to_nat nt) x t row Hrows Hrow Htl).
    exact Hv.
Qed.

Lemma marginal_entries (f : nat -> M V) (g : nat -> V) n s :
  (forall i, i < n -> f i s = (Ok (g i), s)) ->
  for_list f (range n) s = (Ok (map g (range n)), s).
Proof.
  intros Hf. apply for_list_intro, Forall2_fmap_r, Forall_Forall2_diag.
  apply Forall_forall. intros i Hi. apply Hf.
  apply list_elem_of_In, in_seq in Hi. lia.
Qed.

(** C8.  On a preprocessed instance with lag counts x_lags and t_lags
    whose surface z can be read, the lag-0 marginal over space is the
    column t = 0 of the surface, entry for entry, and the lag-0 marginal
    over time is its row x = 0; cell (x, t) of the surface is the entry
    x * t_lags + t of the array that [experimental] returns. *)
Theorem marginal_is_surface_slice s z s' (nx nt : Z) :
  preprocessed s ->
  fst (x_lags s) = Ok (PyInt nx) -> fst (t_lags s) = Ok (PyInt nt) ->
  experimental s = (Ok z, s') ->
  ((0 < nt)%Z ->
   exists mx, get_marginal (PyStr "space") 0 s = (Ok mx, s) /\
     shape mx = [Z.to_nat nx] /\
     forall i, i < Z.to_nat nx ->
       is_Some (data mx !! i) /\
       data mx !! i = data z !! (i * Z.to_nat nt + 0)) /\
  ((0 < nx)%Z ->
   exists mt, get_marginal (PyStr "time") 0 s = (Ok mt, s) /\
     shape mt = [Z.to_nat nt] /\
     forall j, j < Z.to_nat nt ->
       is_Some (data mt !! j) /\
       data mt !! j = data z !! (0 * Z.to_nat nt + j)).
Proof.
  intros (Hd & Hx & Ht) Hnx Hnt Hz.
  destruct (_diff s) as [d|] eqn:Ed; [clear Hd|contradiction].
  destruct (_xgroups s) as [xg|] eqn:Exg; [clear Hx|contradiction].
  destruct (_tgroups s) as [tg|] eqn:Etg; [clear Ht|contradiction].
  destruct (experimental_cells s d xg tg nx nt z s' Ed Exg Etg Hnx Hnt Hz)
    as (e & He & -> & Hsh & Hcells).
  apply x_lags_value in Hnx. apply t_lags_value in Hnt.
  split.
  - intros Hpos.
    set (g := fun i => match cell_members d xg tg i 0 with
                       | Ok c => match call e c with
                                 | Ok v => v
                                 | Raise _ => nan
                                 end
                       | Raise _ => nan
                       end).
    exists (fromiter (map g (range (Z.to_nat nx)))).
    assert (Hg : forall i, i < Z.to_nat nx ->
              data z !! (i * Z.to_nat nt + 0) = Some (g i)).
    { intros i Hi. destruct (Hcells i 0 Hi) as (c & v & Ec & Ev & Ez); [lia|].
      subst g. cbv beta. now rewrite Ec, Ev. }
    split; [|split].
    + unfold get_marginal.
      change (String.eqb (lower "space") "space"
              || String.eqb (lower "space") "s") with true.
      cbv iota. do 2 mstep.
      rewrite (bind_ok _ _ s (map g (range (Z.to_nat nx))) s); [reflexivity|].
      apply marginal_entries. intros i Hi.
      destruct (Hcells i 0 Hi) as (c & v & Ec & Ev & _); [lia|].
      rewrite (bind_ok _ _ s c s).
      * subst g. cbv beta.
        now rewrite Ec, Ev, (apply_estimator_cached s e c He), Ev.
      * change 0%Z with (Z.of_nat 0).
        rewrite (get_member_cached s d xg tg i 0 Ed Exg Etg). now rewrite Ec.
    + unfold fromiter, range. cbn [shape]. now rewrite length_map, length_seq.
    + intros i Hi. cbn [fromiter data]. rewrite (Hg i Hi).
      rewrite list_lookup_fmap. unfold range.
      rewrite (proj2 (lookup_seq 0 (Z.to_nat nx) i i)) by lia.
      split; [eexists|]; reflexivity.
  - intros Hpos.
    set (g := fun j => match cell_members d xg tg 0 j with
                       | Ok c => match call e c with
                                 | Ok v => v
                                 | Raise _ => nan
                                 end
                       | Raise _ => nan
                       end).
    exists (fromiter (map g (range (Z.to_nat nt)))).
    assert (Hg : forall j, j < Z.to_nat nt ->
              data z !! (0 * Z.to_nat nt + j) = Some (g j)).
    { intros j Hj.
      destruct (Hcells 0 j) as (c & v & Ec & Ev & Ez); [lia|exact Hj|].
      subst g. cbv beta. now rewrite Ec, Ev. }
    split; [|split].
    + unfold get_marginal.
      change (String.eqb (lower "time") "space"
              || String.eqb (lower "time") "s") with false.
      change (String.eqb (lower "time") "time"
              || String.eqb (lower "time") "t") with true.
      cbv iota. do 2 mstep.
      rewrite (bind_ok _ _ s (map g (range (Z.to_nat nt))) s); [reflexivity|].
      apply marginal_entries. intros j Hj.
      destruct (Hcells 0 j) as (c & v & Ec & Ev & _); [lia|exact Hj|].
      rewrite (bind_ok _ _ s c s).
      * subst g. cbv beta.
        now rewrite Ec, Ev, (apply_estimator_cached s e c He), Ev.
      * change 0%Z with (Z.of_nat 0).
        rewrite (get_member_cached s d xg tg 0 j Ed Exg Etg). now rewrite Ec.
    + unfold fromiter, range. cbn [shape]. now rewrite length_map, length_seq.
    + intros j Hj. cbn [fromiter data]. rewrite (Hg j Hj).
      rewrite list_lookup_fmap. unfold range.
      rewrite (proj2 (lookup_seq 0 (Z.to_nat nt) j j)) by lia.
      split; [eexists|]; reflexivity.
Qed.
End Surface.

(** ** Setters *)

Section SetterFacts.
Context `{Numeric} `{DistanceEngine} `{!Binning} `{!Estimators}.
Local Open Scope py_scope.

(** C9.  Whatever its argument, [set_estimator] leaves the distance arrays,
    the bin edges, the group arrays and the difference tensor as they were;
    for a callable or a built-in name it succeeds, and the instance differs
    from the one before in the estimator (and the cleared fit parameters
    [cof], [cov]) only. *)
Theorem set_estimator_frame s :
  (forall arg,
     let s' := snd (set_estimator arg s) in
     _xdist s' = _xdist s /\ _tdist s' = _tdist s /\
     _xbins s' = _xbins s /\ _tbins s' = _tbins s /\
     _xgroups s' = _xgroups s /\ _tgroups s' = _tgroups s /\
     _diff s' = _diff s) /\
  (forall f,
     set_estimator (PyFunc f) s
     = (Ok tt, assign_estimator (Some f) (assign_cov None (assign_cof None s))))
  /\
  Forall (fun name =>
    exists f, __name__ f = Some name /\
      set_estimator (PyStr name) s
      = (Ok tt,
         assign_estimator (Some f) (assign_cov None (assign_cof None s))))
    ("entropy" :: surface_estimators).
Proof.
  split; [|split].
  - intros arg. unfold set_estimator. munfold.
    destruct arg as [| | |name| |f]; cbn; try (repeat split; reflexivity).
    destruct (builtin_estimator (lower name)); cbn; repeat split; reflexivity.
  - intros f. reflexivity.
  - repeat constructor; eexists; (split; [|reflexivity]); reflexivity.
Qed.

(** C10.  With the built-in entropy estimator configured, reading the
    surface raises NotImplementedError at once, the instance untouched; with
    any other built-in estimator the check passes and the read goes on to
    the lag classes. *)
Theorem experimental_entropy_guard s :
  (let s1 := snd (set_estimator (PyStr "entropy") s) in
   experimental s1 = (Raise NotImplementedError, s1)) /\
  Forall (fun name =>
    let s1 := snd (set_estimator (PyStr name) s) in
    experimental s1
    = (let! z := lag_classes apply_estimator in
       ret (fromiter z)) s1) surface_estimators.
Proof.
  split; [reflexivity|]. repeat constructor.
Qed.

(** C4, on the code: the name 'uniform' is rejected like an unknown one. *)
Theorem set_bin_func_uniform_raises axis s :
  set_bin_func (PyStr "uniform") axis s = (Raise ValueError, s).
Proof. reflexivity. Qed.

(** [set_values] touches the value matrix and the tensor only *)
Lemma set_values_keeps_time_caches values s :
  let s' := snd (set_values values s) in
  _tdist s' = _tdist s /\ _tbins s' = _tbins s /\ _tgroups s' = _tgroups s.
Proof.
  unfold set_values. munfold.
  destruct (nd_dtype values); cbn; try (repeat split; reflexivity);
    destruct (shape values) as [|m [|n [|? ?]]]; cbn;
    try (repeat split; reflexivity);
    destruct (m =? length (_X s)); cbn; try (repeat split; reflexivity);
    destruct (n <=? 1); cbn; repeat split; reflexivity.
Qed.

(** C6, as the code has it.  An argument a setter rejects raises during the
    call, leaving the instance as it was, except that [set_estimator] has
    cleared [cof] and [cov] and the [maxlag] setter has cleared [cov],
    [cof] and the spatial bins and groups; the [t_lags] setter raises for
    nothing, and a string other than 'max' is rejected by the next read of
    [t_lags]. *)
Theorem setters_reject_at_call c s :
  (rejected c s = true ->
   exists e, run_setter c s = (Raise e, left_behind c s)) /\
  (deferred c = true ->
   fst (run_setter c s) = Ok tt /\
   fst (t_lags (snd (run_setter c s))) = Raise ValueError).
Proof.
  split.
  - destruct c as [values|o|o|o|o|o|b a|o]; cbn [rejected run_setter left_behind].
    + unfold valid_values, set_values. intros Hr. munfold.
      destruct (nd_dtype values); [| |eexists; reflexivity];
        (destruct (shape values) as [|m [|n [|? ?]]];
         try (eexists; reflexivity);
         destruct (Nat.eqb_spec m (length (_X s))); cbn in *;
         [|eexists; reflexivity];
         destruct n as [|[|n]]; cbn in Hr; try discriminate Hr;
         eexists; reflexivity).
    + intros Hr. destruct o; cbn in *; try discriminate Hr; eexists; reflexivity.
    + intros Hr. destruct o; cbn in *; try discriminate Hr; eexists; reflexivity.
    + intros Hr. destruct o; cbn in *; try discriminate Hr; eexists; reflexivity.
    + discriminate.
    + intros Hr. destruct o; cbn in *; try discriminate Hr; eexists; reflexivity.
    + unfold set_bin_func, known_bin_func, known_axis, parse_axis.
      destruct b as [| | |b| |]; try (intros _; eexists; reflexivity).
      destruct (String.eqb (lower b) "even") eqn:Eb;
        [|intros _; eexists; reflexivity].
      cbn [orb negb]. destruct a as [| | |a| |];
        try (intros _; eexists; reflexivity).
      destruct (String.eqb (lower a) "space" || String.eqb (lower a) "s");
        [discriminate|].
      destruct (String.eqb (lower a) "time" || String.eqb (lower a) "t");
        [discriminate|].
      intros _. eexists. reflexivity.
    + unfold known_estimator, set_estimator.
      destruct o as [| | |name| |f]; try discriminate;
        try (intros _; eexists; reflexivity).
      destruct (builtin_estimator (lower name)); [discriminate|].
      intros _. eexists. reflexivity.
  - destruct c as [values|o|o|o|o|o|b a|o]; try discriminate.
    destruct o as [| | |str| |]; try discriminate.
    cbn [deferred run_setter]. intros E%negb_true_iff.
    split; [reflexivity|]. unfold t_lags_setter, t_lags. munfold.
    cbn. now rewrite E.
Qed.
End SetterFacts.

(** ** What preprocessing leaves cached *)

Section Maintains.
Context {S : Type} (P : S -> Prop).

Lemma maintains_ret {A} (a : A) : maintains P (ret a).
Proof. intros s Hs. exact Hs. Qed.

Lemma maintains_raise {A} e : maintains P (A := A) (raise e).
Proof. intros s Hs. exact Hs. Qed.

Lemma maintains_lift {A} (r : res A) : maintains P (lift r).
Proof. intros s Hs. exact Hs. Qed.

Lemma maintains_attr {T} (f : S -> T) : maintains P (attr f).
Proof. intros s Hs. exact Hs. Qed.

Lemma maintains_assign (u : S -> S) :
  (forall s, P s -> P (u s)) -> maintains P (assign u).
Proof. intros Hu s Hs. now apply Hu. Qed.

Lemma maintains_bind {A B} (m : MS S A) (k : A -> MS S B) :
  maintains P m -> (forall a, maintains P (k a)) -> maintains P (bind m k).
Proof.
  intros Hm Hk s Hs. unfold bind. specialize (Hm s Hs).
  destruct (m s) as [[a|e] s1]; simpl in Hm; [now apply Hk|exact Hm].
Qed.

Lemma maintains_for_loop {A L} (body : A -> L -> MS S L) l :
  (forall a acc, maintains P (body a acc)) ->
  forall acc, maintains P (for_loop l body acc).
Proof.
  intros Hb. induction l as [|a l IH]; intros acc; [apply maintains_ret|].
  cbn [for_loop]. apply maintains_bind; [apply Hb|exact IH].
Qed.

Lemma bind_ok_inv {A B} (m : MS S A) (k : A -> MS S B) s b s' :
  bind m k s = (Ok b, s') ->
  exists a s1, m s = (Ok a, s1) /\ k a s1 = (Ok b, s').
Proof.
  unfold bind. destruct (m s) as [[a|e] s1]; [|discriminate].
  intros E. now exists a, s1.
Qed.
End Maintains.

(** apply the rules above through a method body *)
Ltac maintain :=
  repeat first
    [ apply maintains_ret | apply maintains_raise | apply maintains_lift
    | apply maintains_attr
    | apply maintains_assign; intros ? ?; assumption
    | apply maintains_bind; [|intros ?]
    | match goal with
      | |- maintains _ (match ?x with _ => _ end) => destruct x
      | |- maintains _ (assign (match ?x with _ => _ end)) => destruct x
      | |- maintains _ (need ?x _) => destruct x; unfold need
      end ].

Section Preprocessing.
Context `{Numeric} `{DistanceEngine}.
Local Open Scope py_scope.

Lemma calc_group_maintains_diff axis force :
  maintains (fun s => _diff s <> None) (_calc_group axis force).
Proof.
  unfold _calc_group, xbins, tbins, xdistance, tdistance, __calc_xdist,
    __calc_tdist, x_lags, t_lags, maxlag, xdist_func, tdist_func,
    values_shape1, values.
  maintain.
Qed.

Lemma calc_group_maintains_xgroups force :
  maintains (fun s => _xgroups s <> None) (_calc_group "time" force).
Proof.
  unfold _calc_group. change (parse_axis "time") with (Some AxTime).
  cbv iota.
  unfold xbins, tbins, xdistance, tdistance, __calc_xdist,
    __calc_tdist, x_lags, t_lags, maxlag, xdist_func, tdist_func,
    values_shape1, values.
  maintain.
Qed.

Lemma setitem_diff_maintains xidx tidx x :
  maintains (fun s => _diff s <> None) (setitem_diff xidx tidx x).
Proof.
  unfold setitem_diff. maintain.
  all: apply maintains_assign; intros; discriminate.
Qed.

Lemma calc_diff_caches force s s' :
  _calc_diff force s = (Ok tt, s') -> _diff s' <> None.
Proof.
  unfold _calc_diff. intros E.
  apply bind_ok_inv in E as (df & s0 & E0 & E). inversion E0; subst; clear E0.
  destruct (negb force && negb (is_none (_diff s0))) eqn:G.
  - inversion E; subst. apply andb_true_iff in G as [_ G].
    destruct (_diff s'); [discriminate|discriminate].
  - clear G. repeat (apply bind_ok_inv in E as (? & ? & _ & E)).
    destruct (shape _) as [|outer [|inner [|? ?]]]; try discriminate.
    apply bind_ok_inv in E as (? & ? & _ & E).
    apply bind_ok_inv in E as (v & s1 & _ & E).
    apply bind_ok_inv in E as ([] & s2 & E2 & E).
    apply bind_ok_inv in E as (? & s3 & E3 & E).
    inversion E; subst; clear E.
    assert (H2 : _diff s2 <> None) by (inversion E2; discriminate).
    match type of E3 with
    | ?lhs = _ => replace s' with (snd lhs) by (now rewrite E3)
    end.
    refine (maintains_for_loop (fun s => _diff s <> None) _ _ _ _ s2 H2).
    intros xi xidx.
    apply maintains_for_loop. intros xj xidx'.
    destruct (xi <? xj); [|apply maintains_ret].
    apply maintains_bind; [|intros; apply maintains_ret].
    apply maintains_for_loop. intros ti tidx.
    apply maintains_for_loop. intros tj tidx'.
    destruct (ti <? tj); [|apply maintains_ret].
    apply maintains_bind; [apply maintains_lift|]. intros a.
    apply maintains_bind; [apply maintains_lift|]. intros b.
    apply maintains_bind; [apply setitem_diff_maintains|].
    intros; apply maintains_ret.
Qed.

Lemma calc_group_caches_space force s s' :
  _calc_group "space" force s = (Ok tt, s') -> _xgroups s' <> None.
Proof.
  unfold _calc_group. change (parse_axis "space") with (Some AxSpace).
  cbv iota. intros E.
  apply bind_ok_inv in E as (g & s0 & E0 & E). inversion E0; subst; clear E0.
  destruct (negb force && negb (is_none (_xgroups s0))) eqn:G.
  - inversion E; subst. apply andb_true_iff in G as [_ G].
    destruct (_xgroups s'); discriminate.
  - repeat (apply bind_ok_inv in E as (? & ? & _ & E)).
    inversion E. discriminate.
Qed.

Lemma calc_group_caches_time force s s' :
  _calc_group "time" force s = (Ok tt, s') -> _tgroups s' <> None.
Proof.
  unfold _calc_group. change (parse_axis "time") with (Some AxTime).
  cbv iota. intros E.
  apply bind_ok_inv in E as (g & s0 & E0 & E). inversion E0; subst; clear E0.
  destruct (negb force && negb (is_none (_tgroups s0))) eqn:G.
  - inversion E; subst. apply andb_true_iff in G as [_ G].
    destruct (_tgroups s'); discriminate.
  - repeat (apply bind_ok_inv in E as (? & ? & _ & E)).
    inversion E. discriminate.
Qed.

(** after a preprocessing run that succeeds, the tensor and both group
    arrays are cached *)
Lemma preprocessing_caches force s s' :
  preprocessing force s = (Ok tt, s') -> preprocessed s'.
Proof.
  unfold preprocessing, preprocessed. intros E.
  apply bind_ok_inv in E as (? & s1 & _ & E).
  apply bind_ok_inv in E as (? & s2 & _ & E).
  apply bind_ok_inv in E as ([] & s3 & E3 & E).
  apply bind_ok_inv in E as ([] & s4 & E4 & E).
  apply calc_diff_caches in E3. pose proof (calc_group_caches_space _ _ _ E4).
  assert (D4 : _diff s4 <> None).
  { change s4 with (snd (Ok tt, s4)). rewrite <- E4.
    now apply calc_group_maintains_diff. }
  split; [|split].
  - change s' with (snd (Ok tt, s')). rewrite <- E.
    now apply calc_group_maintains_diff.
  - change s' with (snd (Ok tt, s')). rewrite <- E.
    now apply calc_group_maintains_xgroups.
  - now apply calc_group_caches_time in E.
Qed.
End Preprocessing.

(** ** The shape of the surface *)

Section SurfaceShape.
Context `{Numeric} `{DistanceEngine}.

(** what [experimental] returns is one-dimensional *)
Lemma experimental_one_dimensional s z s' :
  experimental s = (Ok z, s') -> shape z = [length (data z)].
Proof.
  unfold experimental, _get_experimental, estimator. munfold.
  destruct (_estimator s) as [e|]; [|discriminate].
  destruct (__name__ e) as [name|]; [|discriminate].
  destruct (String.eqb name "entropy"); [discriminate|].
  destruct (lag_classes apply_estimator s) as [[zs|err] s1]; [|discriminate].
  intros [= <- <-]. reflexivity.
Qed.
End SurfaceShape.

Lemma sorted_from_nondecreasing lo edges :
  sorted_from lo edges = true -> nondecreasing (lo :: edges).
Proof.
  revert lo. induction edges as [|e edges IH]; intros lo Hs i j a b Hij Ha Hb.
  - destruct i as [|i]; [|discriminate]. destruct j as [|j]; [|discriminate].
    inversion Ha; inversion Hb; subst. apply Qle_refl.
  - cbn [sorted_from] in Hs. apply andb_true_iff in Hs as [Hlo Hs].
    apply Qle_bool_iff in Hlo. specialize (IH e Hs).
    destruct i as [|i]; destruct j as [|j]; try lia.
    + inversion Ha; inversion Hb; subst. apply Qle_refl.
    + inversion Ha; subst. eapply Qle_trans; [exact Hlo|].
      apply (IH 0 j); [lia|reflexivity|exact Hb].
    + apply (IH i j); [lia|assumption..].
Qed.

(** ** The model on concrete inputs *)

Section Witnesses.
Import Example.
#[local] Existing Instance numeric.
#[local] Existing Instance distance_engine.
#[local] Existing Instance binning.
#[local] Existing Instance estimators.

(** the example instance is built without error and is fully cached *)
Example stv3_built : fst stv3 = Ok tt.
Proof. vm_compute. reflexivity. Qed.

(** C1, on the code: after the 3 x 3 value matrix of the example is
    replaced by a valid 3 x 2 one, [set_values] has kept the temporal
    distances of the three old time steps, and the tensor computed next,
    forced or not, has three columns, one per stale temporal distance,
    instead of 2 (2 - 1) / 2 = 1; only its first column holds differences,
    the other two stay NaN.  Only a forced preprocessing run, which
    recomputes the distances, stores the (3, 1) tensor. *)
Theorem calc_diff_stale_time_axis :
  let s := snd stv3 in
  let s1 := snd (set_values values32 s) in
  fst (set_values values32 s) = Ok tt /\
  length (_X s1) = 3 /\ _values s1 = Some values32 /\ _diff s1 = None /\
  fst (tdistance s1) = Ok (Some [1%Q; 2%Q; 1%Q]) /\
  length (triu 2) = 1 /\
  fst (_calc_diff false s1) = Ok tt /\
  _diff (snd (_calc_diff false s1))
  = Some (mk_ndarray float64 [3; 3]
            [q (-4); nan; nan; q (-1); nan; nan; q 1; nan; nan]) /\
  _calc_diff true s1 = _calc_diff false s1 /\
  [3; 3] <> [3 * (3 - 1) / 2; 2 * (2 - 1) / 2] /\
  _diff (snd (preprocessing true s1))
  = Some (mk_ndarray float64 [3; 1] [q (-4); q (-1); q 1]).
Proof. vm_compute. repeat split; (reflexivity || discriminate). Qed.

Lemma calc_group_classes_witness :
  classify [2%Q] [1%Q; 2%Q; 3%Q] !! 0 = Some 1%Z.
Proof.
  refine (proj1 (proj2 (proj2
    (calc_group_classes [2%Q] [1%Q; 2%Q; 3%Q] 0 2%Q _ _))) 1 1%Q 2%Q _ _ _ _).
  - apply (sorted_from_nondecreasing 1%Q [2%Q; 3%Q]). reflexivity.
  - reflexivity.
  - reflexivity.
  - reflexivity.
  - reflexivity.
  - reflexivity.
Defined.

(** C7, as stated, fails for a distance of 0: it is at most the last edge
    but belongs to no class. *)
Lemma classified_count_counterexample :
  count classified (classify [0%Q] [1%Q]) <> count (upto_last [1%Q]) [0%Q].
Proof. vm_compute. discriminate. Qed.

Lemma calc_group_classified_count_witness :
  count classified (classify [0%Q; 1%Q; 2%Q; 3%Q] [1%Q; 2%Q])
  = count (within_last [1%Q; 2%Q]) [0%Q; 1%Q; 2%Q; 3%Q].
Proof.
  apply (calc_group_classified_count [0%Q; 1%Q; 2%Q; 3%Q] [1%Q; 2%Q]).
  apply (sorted_from_nondecreasing 0%Q [1%Q; 2%Q]). reflexivity.
Defined.

(** C3, on the code: the surface of the example, with two space lags and
    two time lags, is read as a one-dimensional array of four entries, not
    as a 2 x 2 array. *)
Theorem experimental_is_flat :
  fst (x_lags (snd stv3)) = Ok (PyInt 2) /\
  fst (t_lags (snd stv3)) = Ok (PyInt 2) /\
  exists z, fst (experimental (snd stv3)) = Ok z /\
    shape z = [4] /\ shape z <> [2; 2].
Proof.
  split; [reflexivity|]. split; [reflexivity|]. exists surface3.
  split; [vm_compute; reflexivity|]. split; [reflexivity|discriminate].
Qed.

Lemma marginal_is_surface_slice_witness :
  preprocessed (snd stv3) /\
  experimental (snd stv3) = (Ok surface3, snd stv3) /\
  (exists mx,
     get_marginal (PyStr "space") 0 (snd stv3) = (Ok mx, snd stv3) /\
     shape mx = [Z.to_nat 2] /\
     forall i, i < Z.to_nat 2 ->
       is_Some (data mx !! i) /\
       data mx !! i = data surface3 !! (i * Z.to_nat 2 + 0)) /\
  (exists mt,
     get_marginal (PyStr "time") 0 (snd stv3) = (Ok mt, snd stv3) /\
     shape mt = [Z.to_nat 2] /\
     forall j, j < Z.to_nat 2 ->
       is_Some (data mt !! j) /\
       data mt !! j = data surface3 !! (0 * Z.to_nat 2 + j)).
Proof.
  assert (E : experimental (snd stv3) = (Ok surface3, snd stv3))
    by (vm_compute; reflexivity).
  split; [vm_compute; repeat split; discriminate|].
  split; [exact E|].
  pose proof (marginal_is_surface_slice (snd stv3) surface3 (snd stv3) 2 2)
    as T.
  destruct T as [Tx Tt];
    [vm_compute; repeat split; discriminate|reflexivity|reflexivity|exact E|].
  split; [apply Tx|apply Tt]; reflexivity.
Defined.

(** C5, on the code: after the 3 x 3 value matrix of the example is
    replaced by a 3 x 4 one, the temporal distance array, bins and groups
    are still those of three time steps (three pairs instead of six), and
    the next read of the surface fails on them. *)
Theorem set_values_keeps_stale_time_caches :
  let s := snd stv3 in
  let s1 := snd (set_values values34 s) in
  fst (set_values values34 s) = Ok tt /\
  _values s1 = Some values34 /\ _diff s1 = None /\
  _tdist s1 = _tdist s /\ _tbins s1 = _tbins s /\ _tgroups s1 = _tgroups s /\
  fst (tdistance s1) = Ok (Some [1%Q; 2%Q; 1%Q]) /\
  length (triu 4) = 6 /\
  fst (lag_groups (PyStr "time") s1) = Ok (Some [0; 1; 0]%Z) /\
  fst (experimental s1) = Raise IndexError.
Proof. vm_compute. repeat split; reflexivity. Qed.

(** C6, as stated, fails twice: the [t_lags] setter accepts the string
    'foo', which only the next read of [t_lags] rejects; and the [maxlag]
    setter, raising on a list, has already dropped the spatial bins and
    groups. *)
Lemma setter_validation_counterexample :
  let s := snd stv3 in
  (fst (t_lags_setter (PyStr "foo") s) = Ok tt /\
   fst (t_lags (snd (t_lags_setter (PyStr "foo") s))) = Raise ValueError) /\
  (fst (maxlag_setter (PySeq [1%Q]) s) = Raise TypeError /\
   _xbins s = Some [1%Q; 2%Q] /\
   _xbins (snd (maxlag_setter (PySeq [1%Q]) s)) = None).
Proof. vm_compute. repeat split; reflexivity. Qed.

Lemma setters_reject_at_call_witness :
  (exists e,
     run_setter (SetXLags (PyStr "ten")) (snd stv3)
     = (Raise e, left_behind (SetXLags (PyStr "ten")) (snd stv3))) /\
  (fst (run_setter (SetTLags (PyStr "foo")) (snd stv3)) = Ok tt /\
   fst (t_lags (snd (run_setter (SetTLags (PyStr "foo")) (snd stv3))))
   = Raise ValueError).
Proof.
  split.
  - exact (proj1 (setters_reject_at_call (SetXLags (PyStr "ten")) (snd stv3))
             eq_refl).
  - exact (proj2 (setters_reject_at_call (SetTLags (PyStr "foo")) (snd stv3))
             eq_refl).
Defined.
End Witnesses.

(** * Further properties *)

(** ** Lag grouping for arbitrary edges *)

Section ClassifyMore.

Lemma in_class_index bins x i : in_class bins x i -> i < length bins.
Proof.
  intros (lo & hi & _ & Hhi & _). now apply lookup_lt_Some in Hhi.
Qed.

(** X5.  The group array is as long as the distance array, and each of its
    entries is -1 or the index of one of the bin edges, whatever the
    edges. *)
Theorem calc_group_index_range (d bins : list Q) :
  length (classify d bins) = length d /\
  forall k g, classify d bins !! k = Some g ->
    g = (-1)%Z \/ (0 <= g < Z.of_nat (length bins))%Z.
Proof.
  split; [apply classify_length|]. intros k g Hg.
  destruct (d !! k) as [x|] eqn:Ed.
  2:{ rewrite classify_map, list_lookup_fmap, Ed in Hg. discriminate. }
  rewrite (classify_lookup d bins k x Ed) in Hg.
  inversion Hg; subst g; clear Hg.
  destruct (class_of_sound bins x) as [E|(i & Hi & E)]; [now left|right].
  apply in_class_index in Hi. rewrite E. lia.
Qed.

(** X6.  For edges in any order, a distance that lies in several classes
    gets the largest of their indices: the rounds of the classification
    loop overwrite one another. *)
Theorem calc_group_last_class_wins (d bins : list Q) (k : nat) (x : Q)
    (i : nat) :
  d !! k = Some x ->
  in_class bins x i ->
  (forall j, i < j -> ~ in_class bins x j) ->
  classify d bins !! k = Some (Z.of_nat i).
Proof.
  intros Hk Hi Hlast. rewrite (classify_lookup d bins k x Hk). f_equal.
  pose proof Hi as Hi'. apply in_class_bounds in Hi' as (b & Hl & Hb).
  unfold class_of. rewrite <- (take_drop_middle _ _ _ Hl).
  rewrite (fold_step_last x _ (i, b)); [reflexivity|exact Hb|].
  intros [j b'] Hin. cbn [snd].
  destruct (in_bounds x b') eqn:Hb'; [exfalso|reflexivity].
  apply list_elem_of_In, list_elem_of_lookup in Hin as [m Hm].
  rewrite lookup_drop in Hm. pose proof Hm as Hm'. destruct b' as [lo hi].
  apply bounds_lookup in Hm' as (-> & _).
  apply (Hlast (S i + m)); [lia|].
  apply in_class_bounds. now exists (lo, hi).
Qed.
End ClassifyMore.

(** ** The members of a cell *)

Section CellMembers.
Context `{Numeric}.

Lemma filter_iff_in {A : Type} (P1 P2 : A -> Prop)
    `{!forall x, Decision (P1 x), !forall x, Decision (P2 x)} (l : list A) :
  (forall x, x ∈ l -> P1 x <-> P2 x) -> filter P1 l = filter P2 l.
Proof.
  induction l as [|a l IH]; intros Hiff; [reflexivity|].
  assert (Ha : P1 a <-> P2 a) by (apply Hiff; left).
  assert (Hl : filter P1 l = filter P2 l).
  { apply IH. intros x Hx. apply Hiff. now right. }
  destruct (decide (P1 a)) as [Hp|Hp].
  - rewrite !filter_cons_True by tauto. now rewrite Hl.
  - rewrite !filter_cons_False by tauto. exact Hl.
Qed.

Lemma where_eq_length (g : list Z) (x : Z) :
  length (where_eq g x) = count (Z.eqb x) g.
Proof.
  unfold where_eq, count. induction g as [|a g IH] using rev_ind.
  - reflexivity.
  - rewrite length_app. cbn [length]. rewrite Nat.add_1_r, seq_S.
    cbn [Nat.add]. rewrite filter_app, List.filter_app, !length_app.
    f_equal.
    + rewrite <- IH. f_equal. apply filter_iff_in. intros k Hk.
      apply list_elem_of_In, in_seq in Hk.
      rewrite lookup_app_l by lia. reflexivity.
    + rewrite filter_cons, filter_nil.
      rewrite list_lookup_middle by reflexivity. cbn [List.filter].
      destruct (Z.eqb_spec x a) as [->|Hne].
      * rewrite decide_True by reflexivity. reflexivity.
      * rewrite decide_False by congruence. reflexivity.
Qed.

Lemma where_eq_bound (g : list Z) (x : Z) k :
  k ∈ where_eq g x -> k < length g.
Proof.
  unfold where_eq. rewrite list_elem_of_filter. intros [_ Hk].
  apply list_elem_of_In, in_seq in Hk. lia.
Qed.

Lemma select2_length {A : Type} (a : ndarray A) rows cols l :
  select2 a rows cols = Ok l -> length l = length rows * length cols.
Proof.
  unfold select2. destruct (shape a) as [|r [|c [|? ?]]]; try discriminate.
  destruct (forallb _ rows && forallb _ cols); [|discriminate].
  destruct (mapM _ (list_prod rows cols)) as [l'|] eqn:E; [|discriminate].
  intros [= <-]. apply length_mapM in E. rewrite <- E. apply length_prod.
Qed.

(** X7.  A cell of the surface has as many members as there are spatial
    pairs in its space lag class times temporal pairs in its time lag
    class. *)
Theorem cell_member_count (d : ndarray V) (xg tg : list Z) (x t : nat) c :
  cell_members d xg tg x t = Ok c ->
  length c = count (Z.eqb (Z.of_nat x)) xg * count (Z.eqb (Z.of_nat t)) tg.
Proof.
  unfold cell_members. intros E. apply select2_length in E.
  now rewrite E, !where_eq_length.
Qed.
End CellMembers.

(** ** What the lazy reads keep *)

Lemma maintains_for_list {S A B : Type} (P : S -> Prop) (f : A -> MS S B) l :
  (forall a, maintains P (f a)) -> maintains P (for_list f l).
Proof.
  intros Hf. induction l as [|a l IH]; [apply maintains_ret|].
  cbn [for_list]. apply maintains_bind; [apply Hf|]. intros b.
  apply maintains_bind; [exact IH|]. intros bs. apply maintains_ret.
Qed.

(** the rules of [maintains] through a method body, closing a call with a
    fact at hand when there is one *)
Ltac keep :=
  repeat first
    [ assumption
    | apply maintains_ret | apply maintains_raise | apply maintains_lift
    | apply maintains_attr
    | apply maintains_assign; intros ? ?; assumption
    | apply maintains_bind; [|intros ?]
    | apply maintains_for_loop; intros ? ?
    | apply maintains_for_list; intros ?
    | match goal with
      | |- maintains _ (match ?x with _ => _ end) => destruct x
      | |- maintains _ (assign (match ?x with _ => _ end)) => destruct x
      | |- maintains _ (need ?x _) => destruct x; unfold need
      end ].

(** take a successful run apart, statement by statement *)
Ltac minv :=
  repeat match goal with
    | E : bind _ _ _ = (Ok _, _) |- _ =>
        apply bind_ok_inv in E as (? & ? & ? & E)
    | E : attr _ _ = (Ok _, _) |- _ => inversion E; subst; clear E
    | E : ret _ _ = (Ok _, _) |- _ => inversion E; subst; clear E
    | E : assign _ _ = (Ok _, _) |- _ => inversion E; subst; clear E
    | E : raise _ _ = (Ok _, _) |- _ => discriminate E
    | E : need ?o _ _ = (Ok _, _) |- _ =>
        destruct o eqn:?; [inversion E; subst; clear E|discriminate E]
    | E : lift _ _ = (Ok _, _) |- _ =>
        unfold lift in E; inversion E; subst; clear E
    end.

Section Keeps.
Context `{Numeric} `{DistanceEngine}.
Local Open Scope py_scope.

Lemma values_shape1_keeps (P : SpaceTimeVariogram -> Prop) :
  maintains P values_shape1.
Proof. unfold values_shape1, values. keep. Qed.

Lemma t_lags_keeps (P : SpaceTimeVariogram -> Prop) : maintains P t_lags.
Proof.
  pose proof (values_shape1_keeps P). unfold t_lags. keep.
Qed.

Lemma calc_xdist_keeps_xdist xd :
  maintains (fun s => _xdist s = Some xd) (__calc_xdist false).
Proof.
  intros s Hs. unfold __calc_xdist. munfold. rewrite Hs. exact Hs.
Qed.

Lemma calc_tdist_keeps_tdist td :
  maintains (fun s => _tdist s = Some td) (__calc_tdist false).
Proof.
  intros s Hs. unfold __calc_tdist. munfold. rewrite Hs. exact Hs.
Qed.

Lemma calc_tdist_keeps_xdist force xd :
  maintains (fun s => _xdist s = Some xd) (__calc_tdist force).
Proof.
  pose proof (values_shape1_keeps (fun s => _xdist s = Some xd)).
  unfold __calc_tdist, tdist_func. keep.
Qed.

Lemma calc_xdist_keeps_tdist force td :
  maintains (fun s => _tdist s = Some td) (__calc_xdist force).
Proof. unfold __calc_xdist, xdist_func. keep. Qed.

(** the cached distance arrays survive every lazy read *)
Lemma xbins_keeps_dists xd td :
  maintains (fun s => _xdist s = Some xd /\ _tdist s = Some td) xbins.
Proof.
  assert (maintains (fun s => _xdist s = Some xd /\ _tdist s = Some td)
            (__calc_xdist false)).
  { intros s [Hx Ht]. split; [now apply calc_xdist_keeps_xdist|].
    now apply (calc_xdist_keeps_tdist false td). }
  unfold xbins, xdistance, x_lags, maxlag. keep.
Qed.

Lemma tbins_keeps_dists xd td :
  maintains (fun s => _xdist s = Some xd /\ _tdist s = Some td) tbins.
Proof.
  assert (maintains (fun s => _xdist s = Some xd /\ _tdist s = Some td)
            (__calc_tdist false)).
  { intros s [Hx Ht]. split; [now apply (calc_tdist_keeps_xdist false xd)|].
    now apply calc_tdist_keeps_tdist. }
  pose proof (t_lags_keeps
    (fun s => _xdist s = Some xd /\ _tdist s = Some td)).
  unfold tbins, tdistance. keep.
Qed.

Lemma calc_group_keeps_dists axis force xd td :
  maintains (fun s => _xdist s = Some xd /\ _tdist s = Some td)
    (_calc_group axis force).
Proof.
  pose proof (xbins_keeps_dists xd td). pose proof (tbins_keeps_dists xd td).
  assert (maintains (fun s => _xdist s = Some xd /\ _tdist s = Some td)
            xdistance).
  { unfold xdistance. apply maintains_bind; [|intros; apply maintains_attr].
    intros s [Hx Ht]. split; [now apply calc_xdist_keeps_xdist|].
    now apply (calc_xdist_keeps_tdist false td). }
  assert (maintains (fun s => _xdist s = Some xd /\ _tdist s = Some td)
            tdistance).
  { unfold tdistance. apply maintains_bind; [|intros; apply maintains_attr].
    intros s [Hx Ht]. split; [now apply (calc_tdist_keeps_xdist false xd)|].
    now apply calc_tdist_keeps_tdist. }
  unfold _calc_group. keep.
Qed.

(** nothing but [_calc_diff] and [set_values] writes the tensor *)
Lemma calc_group_keeps_diff (Q : option (ndarray V) -> Prop) axis force :
  maintains (fun s => Q (_diff s)) (_calc_group axis force).
Proof.
  unfold _calc_group, xbins, tbins, xdistance, tdistance, __calc_xdist,
    __calc_tdist, x_lags, t_lags, maxlag, xdist_func, tdist_func,
    values_shape1, values.
  keep.
Qed.

Lemma calc_group_time_keeps_xgroups (Q : option (list Z) -> Prop) force :
  maintains (fun s => Q (_xgroups s)) (_calc_group "time" force).
Proof.
  unfold _calc_group. change (parse_axis "time") with (Some AxTime).
  cbv iota.
  unfold xbins, tbins, xdistance, tdistance, __calc_xdist,
    __calc_tdist, x_lags, t_lags, maxlag, xdist_func, tdist_func,
    values_shape1, values.
  keep.
Qed.

Lemma xdistance_cached s xd :
  _xdist s = Some xd -> xdistance s = (Ok (Some xd), s).
Proof.
  intros E. unfold xdistance, __calc_xdist. munfold. rewrite E.
  cbn [is_none orb]. now rewrite E.
Qed.

Lemma tdistance_cached s td :
  _tdist s = Some td -> tdistance s = (Ok (Some td), s).
Proof.
  intros E. unfold tdistance, __calc_tdist. munfold. rewrite E.
  cbn [is_none orb]. now rewrite E.
Qed.

Lemma calc_xdist_ok_inv force s s' :
  __calc_xdist force s = (Ok tt, s') ->
  exists xd, _xdist s' = Some xd /\ s' = assign_xdist (Some xd) s.
Proof.
  unfold __calc_xdist, xdist_func. intros E.
  apply bind_ok_inv in E as (o & s0 & E0 & E). inversion E0; subst; clear E0.
  destruct (is_none (_xdist s0) || force) eqn:G.
  - minv. eexists. split; reflexivity.
  - inversion E; subst. apply orb_false_iff in G as [G _].
    destruct (_xdist s') as [xd|] eqn:Ex; [|discriminate].
    exists xd. split; [reflexivity|]. symmetry. now apply assign_xdist_same.
Qed.

Lemma values_shape1_ok_inv s n s' :
  values_shape1 s = (Ok n, s') -> s' = s.
Proof.
  intros E. pose proof (values_shape1_read_only s) as R. rewrite E in R.
  exact R.
Qed.

Lemma calc_tdist_ok_inv force s s' :
  __calc_tdist force s = (Ok tt, s') ->
  exists td, _tdist s' = Some td /\ s' = assign_tdist (Some td) s.
Proof.
  unfold __calc_tdist, tdist_func. intros E.
  apply bind_ok_inv in E as (o & s0 & E0 & E). inversion E0; subst; clear E0.
  destruct (is_none (_tdist s0) || force) eqn:G.
  - apply bind_ok_inv in E as (n & s1 & E1 & E).
    apply values_shape1_ok_inv in E1. subst s1.
    apply bind_ok_inv in E as (n' & s1 & E1 & E).
    apply values_shape1_ok_inv in E1. subst s1.
    minv. eexists. split; reflexivity.
  - inversion E; subst. apply orb_false_iff in G as [G _].
    destruct (_tdist s') as [td|] eqn:Ex; [|discriminate].
    exists td. split; [reflexivity|]. symmetry. now apply assign_tdist_same.
Qed.
End Keeps.

(** ** Alignment after a forced preprocessing run *)

Section Alignment.
Context `{Numeric} `{DistanceEngine}.
Local Open Scope py_scope.

Lemma setitem_diff_keeps_shape xn tn xidx tidx x :
  maintains (diff_shaped xn tn) (setitem_diff xidx tidx x).
Proof.
  intros s (d & Hd & Hsh & Hl). unfold setitem_diff. munfold. rewrite Hd.
  munfold. unfold setitem2. rewrite Hsh.
  destruct ((xidx <? xn) && (tidx <? tn)); cbn.
  - eexists. split; [reflexivity|]. split; [reflexivity|].
    cbn. now rewrite length_insert.
  - now exists d.
Qed.

Lemma calc_diff_loops_keep (P : SpaceTimeVariogram -> Prop)
    (v : ndarray V) outer inner :
  (forall xidx tidx x, maintains P (setitem_diff xidx tidx x)) ->
  maintains P
    (for_loop (range outer) (fun xi xidx =>
       for_loop (range outer) (fun xj xidx =>
         if xi <? xj then
           let! _ :=
             for_loop (range inner) (fun ti tidx =>
               for_loop (range inner) (fun tj tidx =>
                 if ti <? tj then
                   let! a := lift (getitem2 v xi ti) in
                   let! b := lift (getitem2 v xj tj) in
                   setitem_diff xidx tidx (sub a b);;
                   ret (S tidx)
                 else ret tidx) tidx) 0 in
           ret (S xidx)
         else ret xidx) xidx) 0).
Proof.
  intros Hset. apply maintains_for_loop. intros xi xidx.
  apply maintains_for_loop. intros xj xidx'.
  destruct (xi <? xj); [|apply maintains_ret].
  apply maintains_bind; [|intros; apply maintains_ret].
  apply maintains_for_loop. intros ti tidx.
  apply maintains_for_loop. intros tj tidx'.
  destruct (ti <? tj); [|apply maintains_ret].
  apply maintains_bind; [apply maintains_lift|]. intros a.
  apply maintains_bind; [apply maintains_lift|]. intros b.
  apply maintains_bind; [apply Hset|]. intros; apply maintains_ret.
Qed.

Lemma xdistance_keeps_dists xd td :
  maintains (fun s => _xdist s = Some xd /\ _tdist s = Some td) xdistance.
Proof.
  unfold xdistance. apply maintains_bind; [|intros; apply maintains_attr].
  intros s [Hx Ht]. split; [now apply calc_xdist_keeps_xdist|].
  now apply (calc_xdist_keeps_tdist false td).
Qed.

Lemma tdistance_keeps_dists xd td :
  maintains (fun s => _xdist s = Some xd /\ _tdist s = Some td) tdistance.
Proof.
  unfold tdistance. apply maintains_bind; [|intros; apply maintains_attr].
  intros s [Hx Ht]. split; [now apply (calc_tdist_keeps_xdist false xd)|].
  now apply calc_tdist_keeps_tdist.
Qed.

Lemma calc_diff_keeps_dists force xd td :
  maintains (fun s => _xdist s = Some xd /\ _tdist s = Some td)
    (_calc_diff force).
Proof.
  pose proof (xdistance_keeps_dists xd td).
  pose proof (tdistance_keeps_dists xd td).
  assert (forall v outer inner,
    maintains (fun s => _xdist s = Some xd /\ _tdist s = Some td)
      (for_loop (range outer) (fun xi xidx =>
         for_loop (range outer) (fun xj xidx =>
           if xi <? xj then
             let! _ :=
               for_loop (range inner) (fun ti tidx =>
                 for_loop (range inner) (fun tj tidx =>
                   if ti <? tj then
                     let! a := lift (getitem2 v xi ti) in
                     let! b := lift (getitem2 v xj tj) in
                     setitem_diff xidx tidx (sub a b);;
                     ret (S tidx)
                   else ret tidx) tidx) 0 in
             ret (S xidx)
           else ret xidx) xidx) 0)) as Hloops.
  { intros v outer inner. apply calc_diff_loops_keep. intros xidx tidx x.
    unfold setitem_diff. keep. }
  unfold _calc_diff, size, values.
  apply maintains_bind; [apply maintains_attr|]. intros df.
  destruct (negb force && negb (is_none df)); [apply maintains_ret|].
  keep. all: apply Hloops.
Qed.

(** a forced [_calc_diff] sizes the tensor by the cached distance arrays *)
Lemma calc_diff_shape s s' xd td :
  _xdist s = Some xd -> _tdist s = Some td ->
  _calc_diff true s = (Ok tt, s') ->
  diff_shaped (length xd) (length td) s'.
Proof.
  intros Hx Ht E. unfold _calc_diff in E.
  apply bind_ok_inv in E as (df & ? & E0 & E). inversion E0; subst; clear E0.
  cbn [negb andb] in E.
  apply bind_ok_inv in E as (xdo & ? & E1 & E).
  rewrite (xdistance_cached _ xd Hx) in E1. inversion E1; subst; clear E1.
  apply bind_ok_inv in E as (xn & ? & E1 & E).
  inversion E1; subst; clear E1.
  apply bind_ok_inv in E as (tdo & ? & E1 & E).
  rewrite (tdistance_cached _ td Ht) in E1. inversion E1; subst; clear E1.
  apply bind_ok_inv in E as (tn & ? & E1 & E).
  inversion E1; subst; clear E1.
  apply bind_ok_inv in E as (vs & ? & E1 & E).
  inversion E1; subst; clear E1.
  apply bind_ok_inv in E as (v & ? & E1 & E).
  destruct (_values _) as [v'|] eqn:Ev; [|discriminate].
  inversion E1; subst; clear E1.
  destruct (shape v) as [|outer [|inner [|? ?]]]; try discriminate.
  apply bind_ok_inv in E as (vs & ? & E1 & E).
  inversion E1; subst; clear E1.
  apply bind_ok_inv in E as (v2 & ? & E1 & E).
  rewrite Ev in E1. inversion E1; subst; clear E1.
  apply bind_ok_inv in E as ([] & ? & E1 & E).
  inversion E1; subst; clear E1.
  apply bind_ok_inv in E as (k & ? & E3 & E).
  inversion E; subst; clear E.
  match type of E3 with
  | ?lhs = _ => replace s' with (snd lhs) by (now rewrite E3)
  end.
  apply calc_diff_loops_keep.
  - intros. apply setitem_diff_keeps_shape.
  - eexists. split; [reflexivity|]. split; [reflexivity|].
    cbn. apply length_replicate.
Qed.

(** a forced [_calc_group] classifies the cached distances *)
Lemma calc_group_space_forced s s' xd td :
  _xdist s = Some xd -> _tdist s = Some td ->
  _calc_group "space" true s = (Ok tt, s') ->
  exists b, _xgroups s' = Some (classify xd b).
Proof.
  intros Hx Ht E. unfold _calc_group in E.
  change (parse_axis "space") with (Some AxSpace) in E. cbv iota in E.
  apply bind_ok_inv in E as (g & s0 & E0 & E). inversion E0; subst; clear E0.
  cbn [negb andb] in E.
  apply bind_ok_inv in E as (bo & sa & Ea & E).
  assert (Ha : _xdist sa = Some xd /\ _tdist sa = Some td).
  { replace sa with (snd (xbins s0)) by (now rewrite Ea).
    now apply xbins_keeps_dists. }
  apply bind_ok_inv in E as (xdo & sb & Eb & E).
  rewrite (xdistance_cached sa xd (proj1 Ha)) in Eb.
  inversion Eb; subst; clear Eb. minv.
  repeat match goal with
    | Hq : Some _ = Some _ |- _ => inversion Hq; subst; clear Hq
    end.
  now eexists.
Qed.

Lemma calc_group_time_forced s s' xd td :
  _xdist s = Some xd -> _tdist s = Some td ->
  _calc_group "time" true s = (Ok tt, s') ->
  exists b, _tgroups s' = Some (classify td b).
Proof.
  intros Hx Ht E. unfold _calc_group in E.
  change (parse_axis "time") with (Some AxTime) in E. cbv iota in E.
  apply bind_ok_inv in E as (g & s0 & E0 & E). inversion E0; subst; clear E0.
  cbn [negb andb] in E.
  apply bind_ok_inv in E as (bo & sa & Ea & E).
  assert (Ha : _xdist sa = Some xd /\ _tdist sa = Some td).
  { replace sa with (snd (tbins s0)) by (now rewrite Ea).
    now apply tbins_keeps_dists. }
  apply bind_ok_inv in E as (tdo & sb & Eb & E).
  rewrite (tdistance_cached sa td (proj2 Ha)) in Eb.
  inversion Eb; subst; clear Eb. minv.
  repeat match goal with
    | Hq : Some _ = Some _ |- _ => inversion Hq; subst; clear Hq
    end.
  now eexists.
Qed.

Lemma run_keeps {A} (P : SpaceTimeVariogram -> Prop) (m : M A) s a s' :
  maintains P m -> P s -> m s = (Ok a, s') -> P s'.
Proof.
  intros Hm Hs E. replace s' with (snd (m s)) by (now rewrite E).
  now apply Hm.
Qed.

Lemma preprocessing_forced_aligned s s' :
  preprocessing true s = (Ok tt, s') -> aligned s'.
Proof.
  unfold preprocessing. intros E.
  apply bind_ok_inv in E as ([] & s1 & E1 & E).
  apply bind_ok_inv in E as ([] & s2 & E2 & E).
  apply bind_ok_inv in E as ([] & s3 & E3 & E).
  apply bind_ok_inv in E as ([] & s4 & E4 & E).
  destruct (calc_xdist_ok_inv _ _ _ E1) as (xd & Hx1 & _).
  destruct (calc_tdist_ok_inv _ _ _ E2) as (td & Ht2 & _).
  assert (Hx2 : _xdist s2 = Some xd)
    by (exact (run_keeps _ _ _ _ _ (calc_tdist_keeps_xdist true xd) Hx1 E2)).
  pose proof (calc_diff_shape s2 s3 xd td Hx2 Ht2 E3) as Hd3.
  pose proof (run_keeps _ _ _ _ _ (calc_diff_keeps_dists true xd td)
                (conj Hx2 Ht2) E3) as [Hx3 Ht3].
  destruct (calc_group_space_forced s3 s4 xd td Hx3 Ht3 E4) as (bx & Hg4).
  pose proof (run_keeps _ _ _ _ _ (calc_group_keeps_dists "space" true xd td)
                (conj Hx3 Ht3) E4) as [Hx4 Ht4].
  pose proof (run_keeps _ _ _ _ _
                (calc_group_keeps_diff (fun o => o = _diff s3) "space" true)
                eq_refl E4) as Hd4.
  destruct (calc_group_time_forced s4 s' xd td Hx4 Ht4 E) as (bt & Hg5).
  pose proof (run_keeps _ _ _ _ _ (calc_group_keeps_dists "time" true xd td)
                (conj Hx4 Ht4) E) as [Hx5 Ht5].
  pose proof (run_keeps _ _ _ _ _
                (calc_group_keeps_diff (fun o => o = _diff s3) "time" true)
                Hd4 E) as Hd5.
  pose proof (run_keeps _ _ _ _ _
                (calc_group_time_keeps_xgroups
                   (fun o => o = Some (classify xd bx)) true) Hg4 E) as Hxg5.
  destruct Hd3 as (d & Hd & Hsh & Hlen).
  exists xd, td, d, (classify xd bx), (classify td bt).
  repeat split; try assumption.
  - now rewrite Hd5.
  - apply classify_length.
  - apply classify_length.
Qed.

(** X1.  After a forced preprocessing run that succeeds, the caches fit
    together: the tensor has one row per spatial distance and one column per
    temporal distance, and each group array is as long as its distance
    array. *)
Theorem preprocessing_aligns s s' :
  preprocessing true s = (Ok tt, s') -> aligned s'.
Proof. apply preprocessing_forced_aligned. Qed.
End Alignment.

(** ** Construction *)

Section Construction.
Context `{Numeric} `{DistanceEngine} `{!Binning} `{!Estimators}.
Local Open Scope py_scope.

(** X2.  An instance whose construction succeeds is aligned: [__init__]
    ends with a forced preprocessing run. *)
Theorem init_aligned coordinates (values : ndarray V)
    (xdist_func tdist_func x_lags t_lags maxlag xbins tbins estimator : pyobj)
    (verbose : bool) :
  fst (__init__ coordinates values xdist_func tdist_func x_lags t_lags maxlag
         xbins tbins estimator verbose) = Ok tt ->
  aligned (snd (__init__ coordinates values xdist_func tdist_func x_lags
                  t_lags maxlag xbins tbins estimator verbose)).
Proof.
  unfold __init__.
  destruct ((_ ;; _) (blank coordinates verbose)) as [r s'] eqn:E.
  cbn [fst snd]. intros ->.
  do 9 (apply bind_ok_inv in E as (? & ? & _ & E)).
  now apply preprocessing_forced_aligned in E.
Qed.

(** what [set_values] has checked when it returns *)
Lemma set_values_ok_inv (v : ndarray V) s s' :
  set_values v s = (Ok tt, s') ->
  exists t, shape v = [length (_X s); t] /\ 1 < t /\
    _X s' = _X s /\ _values s' = Some v.
Proof.
  unfold set_values. intros E.
  assert (E' : (let! X := attr _X in
                match shape v with
                | [m; n] =>
                    if negb (m =? length X) then raise ValueError
                    else if n <=? 1 then raise ValueError
                    else
                      assign (assign_values (Some v));;
                      assign (assign_diff None)
                | _ => raise ValueError
                end) s = (Ok tt, s')).
  { destruct (nd_dtype v); [exact E|exact E|discriminate E]. }
  clear E. apply bind_ok_inv in E' as (X & s0 & E0 & E).
  inversion E0; subst; clear E0.
  destruct (shape v) as [|m [|t [|? ?]]]; try discriminate E.
  destruct (m =? length (_X s0)) eqn:Hm; cbn [negb] in E; [|discriminate E].
  destruct (t <=? 1) eqn:Ht; [discriminate E|].
  apply Nat.eqb_eq in Hm. apply Nat.leb_gt in Ht. subst m.
  minv. exists t. repeat split; [exact Ht|reflexivity..].
Qed.

(** the setters that follow [set_values] in [__init__] keep the coordinates
    and the value matrix *)
Lemma setters_keep_data c (v : option (ndarray V)) :
  let P := fun s => _X s = c /\ _values s = v in
  (forall a, maintains P (set_xdist_func a)) /\
  (forall a, maintains P (set_tdist_func a)) /\
  (forall a, maintains P (x_lags_setter a)) /\
  (forall a, maintains P (t_lags_setter a)) /\
  (forall a, maintains P (maxlag_setter a)) /\
  (forall a, maintains P (set_estimator a)) /\
  (forall a b, maintains P (set_bin_func a b)).
Proof.
  cbv zeta.
  unfold set_xdist_func, set_tdist_func, x_lags_setter, t_lags_setter,
    maxlag_setter, maxlag_number, set_estimator, set_bin_func, xdistance,
    __calc_xdist, xdist_func.
  do 6 (split; [intros ?; keep|]). intros ? ?; keep.
Qed.

Lemma calc_xdist_forced_len s s' :
  __calc_xdist true s = (Ok tt, s') ->
  exists xd, s' = assign_xdist (Some xd) s /\
    length xd = length (triu (length (_X s))).
Proof.
  unfold __calc_xdist, xdist_func. intros E.
  apply bind_ok_inv in E as (o & s0 & E0 & E). inversion E0; subst; clear E0.
  rewrite orb_true_r in E.
  apply bind_ok_inv in E as (f & s1 & E1 & E). inversion E1; subst; clear E1.
  apply bind_ok_inv in E as (X & s2 & E1 & E). inversion E1; subst; clear E1.
  apply bind_ok_inv in E as (name & s3 & E1 & E).
  destruct (_xdist_func s2) as [nm|]; [|discriminate E1].
  inversion E1; subst; clear E1.
  apply bind_ok_inv in E as (d & s4 & E1 & E).
  unfold lift, pdist in E1. destruct (metric name) as [g|]; [|discriminate E1].
  inversion E1; subst; clear E1. inversion E; subst; clear E.
  eexists. split; [reflexivity|]. now rewrite length_map.
Qed.

Lemma calc_tdist_forced_len s (v : ndarray V) n t s' :
  _values s = Some v -> shape v = [n; t] ->
  __calc_tdist true s = (Ok tt, s') ->
  exists td, s' = assign_tdist (Some td) s /\ length td = length (triu t).
Proof.
  intros Hv Hsh. unfold __calc_tdist, tdist_func. intros E.
  apply bind_ok_inv in E as (o & s0 & E0 & E). inversion E0; subst; clear E0.
  rewrite orb_true_r in E.
  rewrite (bind_ok _ _ _ _ _ (values_shape1_ok s0 v n t Hv Hsh)) in E.
  rewrite (bind_ok _ _ _ _ _ (values_shape1_ok s0 v n t Hv Hsh)) in E.
  apply bind_ok_inv in E as (f & s1 & E1 & E). inversion E1; subst; clear E1.
  apply bind_ok_inv in E as (name & s3 & E1 & E).
  destruct (_tdist_func s1) as [nm|]; [|discriminate E1].
  inversion E1; subst; clear E1.
  apply bind_ok_inv in E as (d & s4 & E1 & E).
  unfold lift, pdist in E1. destruct (metric name) as [g|]; [|discriminate E1].
  inversion E1; subst; clear E1. inversion E; subst; clear E.
  eexists. split; [reflexivity|].
  rewrite length_map, length_zip_with, length_replicate. unfold range.
  now rewrite length_seq, Nat.min_id.
Qed.

(** X19.  Whenever the constructor returns without raising for a value
    matrix of shape (n, t), the instance holds n coordinates, t exceeds 1,
    and the stored tensor has shape (n(n-1)/2, t(t-1)/2) with entry [a, b]
    equal to value[i, ti] - value[j, tj], where (i, j) is the a-th pair of
    the strict upper triangle over the points and (ti, tj) the b-th pair of
    the one over the time steps. *)
Theorem init_diff_tensor coordinates (values : ndarray V) n t
    (xdist_func tdist_func x_lags t_lags maxlag xbins tbins estimator : pyobj)
    (verbose : bool) :
  shape values = [n; t] -> length (data values) = n * t ->
  fst (__init__ coordinates values xdist_func tdist_func x_lags t_lags maxlag
         xbins tbins estimator verbose) = Ok tt ->
  length coordinates = n /\ 1 < t /\
  exists d,
    _diff (snd (__init__ coordinates values xdist_func tdist_func x_lags
                  t_lags maxlag xbins tbins estimator verbose)) = Some d /\
    shape d = [n * (n - 1) / 2; t * (t - 1) / 2] /\
    forall a b i j ti tj,
      triu n !! a = Some (i, j) -> triu t !! b = Some (ti, tj) ->
      exists x y,
        getitem2 values i ti = Ok x /\ getitem2 values j tj = Ok y /\
        getitem2 d a b = Ok (sub x y).
Proof.
  intros Hsh Hlen. unfold __init__.
  destruct ((_ ;; _) (blank coordinates verbose)) as [r s'] eqn:E.
  cbn [fst snd]. intros ->.
  apply bind_ok_inv in E as ([] & s1 & E1 & E).
  apply set_values_ok_inv in E1 as (t' & Hsh' & Ht & HX1 & Hv1).
  rewrite Hsh in Hsh'. inversion Hsh'; subst n t'. clear Hsh'.
  cbn [blank _X] in *.
  split; [reflexivity|]. split; [exact Ht|].
  destruct (setters_keep_data coordinates (Some values))
    as (K1 & K2 & K3 & K4 & K5 & K6 & K7).
  pose proof (conj HX1 Hv1) as P1.
  apply bind_ok_inv in E as ([] & s2 & E2 & E).
  pose proof (run_keeps _ _ _ _ _ (K1 _) P1 E2) as P2.
  apply bind_ok_inv in E as ([] & s3 & E3 & E).
  pose proof (run_keeps _ _ _ _ _ (K2 _) P2 E3) as P3.
  apply bind_ok_inv in E as ([] & s4 & E4 & E).
  pose proof (run_keeps _ _ _ _ _ (K3 _) P3 E4) as P4.
  apply bind_ok_inv in E as ([] & s5 & E5 & E).
  pose proof (run_keeps _ _ _ _ _ (K4 _) P4 E5) as P5.
  apply bind_ok_inv in E as ([] & s6 & E6 & E).
  pose proof (run_keeps _ _ _ _ _ (K5 _) P5 E6) as P6.
  apply bind_ok_inv in E as ([] & s7 & E7 & E).
  pose proof (run_keeps _ _ _ _ _ (K6 _) P6 E7) as P7.
  apply bind_ok_inv in E as ([] & s8 & E8 & E).
  pose proof (run_keeps _ _ _ _ _ (K7 _ _) P7 E8) as P8.
  apply bind_ok_inv in E as ([] & s9 & E9' & E).
  pose proof (run_keeps _ _ _ _ _ (K7 _ _) P8 E9') as [HX9 Hv9].
  rename E into E9.
  unfold preprocessing in E9.
  apply bind_ok_inv in E9 as ([] & sa & Ea & E9).
  apply bind_ok_inv in E9 as ([] & sb & Eb & E9).
  apply bind_ok_inv in E9 as ([] & sc & Ec & E9).
  apply bind_ok_inv in E9 as ([] & sd & Ed & E9).
  apply calc_xdist_forced_len in Ea as (xd & -> & Lxd).
  apply (calc_tdist_forced_len _ values (length coordinates) t) in Eb
    as (td & -> & Ltd); [|exact Hv9|exact Hsh].
  rewrite HX9 in Lxd.
  destruct (calc_diff_tensor
              (assign_tdist (Some td) (assign_xdist (Some xd) s9)) values
              (length coordinates) t true)
    as (d & s'' & Ecd & Hd & Hshd & Hent);
    [exact (f_equal (@length _) HX9)|exact Hv9|exact Hsh|exact Hlen
    |exact Lxd|exact Ltd|now left|].
  rewrite Ec in Ecd. inversion Ecd; subst s''. clear Ecd.
  exists d. split; [|split; [exact Hshd|exact Hent]].
  pose proof (run_keeps _ _ _ _ _
                (calc_group_keeps_diff (fun o => o = Some d) "space" true)
                Hd Ed) as Hdd.
  exact (run_keeps _ _ _ _ _
           (calc_group_keeps_diff (fun o => o = Some d) "time" true)
           Hdd E9).
Qed.
End Construction.

(** ** Reading the surface *)

Section SurfaceReads.
Context `{Numeric} `{DistanceEngine}.
Local Open Scope py_scope.

Lemma for_list_map_ok {A B} (f : A -> M B) (g : A -> B) l s :
  (forall a, a ∈ l -> f a s = (Ok (g a), s)) ->
  for_list f l s = (Ok (map g l), s).
Proof.
  intros Hf. apply for_list_intro, Forall2_fmap_r, Forall_Forall2_diag.
  apply Forall_forall. exact Hf.
Qed.

Lemma select2_ok {A : Type} (a : ndarray A) r c rows cols :
  shape a = [r; c] -> length (data a) = r * c ->
  (forall i, i ∈ rows -> i < r) -> (forall j, j ∈ cols -> j < c) ->
  exists l, select2 a rows cols = Ok l.
Proof.
  intros Hsh Hlen Hr Hc. unfold select2. rewrite Hsh.
  assert (forallb (fun i => i <? r) rows = true) as ->.
  { apply forallb_forall. intros i Hi. apply Nat.ltb_lt, Hr.
    now apply list_elem_of_In. }
  assert (forallb (fun j => j <? c) cols = true) as ->.
  { apply forallb_forall. intros j Hj. apply Nat.ltb_lt, Hc.
    now apply list_elem_of_In. }
  cbn [andb].
  destruct (mapM (fun ij => data a !! (fst ij * c + snd ij))
              (list_prod rows cols)) as [l|] eqn:E; [now exists l|].
  exfalso. assert (Hs : is_Some (mapM (fun ij => data a !! (fst ij * c + snd ij))
                           (list_prod rows cols))).
  { apply mapM_is_Some_2, Forall_forall. intros [i j] Hij.
    apply list_elem_of_In, in_prod_iff in Hij as [Hi Hj].
    apply list_elem_of_In, Hr in Hi. apply list_elem_of_In, Hc in Hj.
    cbn. apply lookup_lt_is_Some. nia. }
  rewrite E in Hs. now destruct Hs.
Qed.

Lemma cell_members_ok (d : ndarray V) (xg tg : list Z) x t :
  shape d = [length xg; length tg] ->
  length (data d) = length xg * length tg ->
  exists c, cell_members d xg tg x t = Ok c.
Proof.
  intros Hsh Hlen. unfold cell_members.
  apply (select2_ok d (length xg) (length tg)); try assumption.
  - intros i. apply where_eq_bound.
  - intros j. apply where_eq_bound.
Qed.

Lemma experimental_aligned_ok s d xg tg e name (nx nt : Z) :
  aligned s ->
  _diff s = Some d -> _xgroups s = Some xg -> _tgroups s = Some tg ->
  _estimator s = Some e ->
  __name__ e = Some name -> String.eqb name "entropy" = false ->
  fst (x_lags s) = Ok (PyInt nx) -> fst (t_lags s) = Ok (PyInt nt) ->
  (forall x t c, x < Z.to_nat nx -> t < Z.to_nat nt ->
     cell_members d xg tg x t = Ok c -> exists v, call e c = Ok v) ->
  exists z, experimental s = (Ok z, s).
Proof.
  intros (xd & td & d' & xg' & tg' & Hx & Ht & Hd' & Hsh & Hlen & Hxg' & Lxg
          & Htg' & Ltg) Hd Hxg Htg He Hname Hent Hnx Hnt Hcall.
  rewrite Hd in Hd'. rewrite Hxg in Hxg'. rewrite Htg in Htg'.
  inversion Hd'; inversion Hxg'; inversion Htg'; subst d' xg' tg'.
  clear Hd' Hxg' Htg'.
  rewrite <- Lxg, <- Ltg in Hsh, Hlen.
  set (val := fun x t => match cell_members d xg tg x t with
                         | Ok c => match call e c with
                                   | Ok v => v
                                   | Raise _ => nan
                                   end
                         | Raise _ => nan
                         end).
  assert (Hval : forall x t, x < Z.to_nat nx -> t < Z.to_nat nt ->
            (let! vals := lift (cell_members d xg tg x t) in
             apply_estimator vals) s = (Ok (val x t), s)).
  { intros x t Hxl Htl.
    destruct (cell_members_ok d xg tg x t Hsh Hlen) as [c Ec].
    destruct (Hcall x t c Hxl Htl Ec) as [v Ev].
    apply (estimate_cell_ok s e _ c); [exact He|exact Ec|].
    subst val. cbv beta. now rewrite Ec, Ev. }
  set (cells := map (fun x => map (val x) (range (Z.to_nat nt)))
                  (range (Z.to_nat nx))).
  assert (Ec : lag_classes apply_estimator s = (Ok (concat cells), s)).
  { rewrite (lag_classes_cached apply_estimator s d xg tg nx nt
               apply_estimator_read_only Hd Hxg Htg Hnx Hnt).
    rewrite (bind_ok _ _ s cells s); [reflexivity|].
    apply for_list_map_ok. intros x Hxr. apply for_list_map_ok.
    intros t Htr. unfold range in Hxr, Htr.
    apply list_elem_of_In, in_seq in Hxr. apply list_elem_of_In, in_seq in Htr.
    apply Hval; lia. }
  exists (fromiter (concat cells)).
  unfold experimental, _get_experimental, estimator.
  rewrite (bind_ok _ _ s (Some e) s) by (unfold attr; now rewrite He).
  rewrite (bind_ok _ _ s e s) by reflexivity. rewrite Hname.
  rewrite (bind_ok _ _ s name s) by reflexivity. rewrite Hent.
  rewrite (bind_ok _ _ _ _ _ Ec).
  reflexivity.
Qed.

(** X3.  On an aligned instance with integer lag counts and an estimator
    whose name is not entropy and which returns on the members of every
    cell, reading the surface succeeds, leaves the instance as it is and
    returns x_lags * t_lags entries. *)
Theorem experimental_succeeds s d xg tg e name (nx nt : Z) :
  aligned s ->
  _diff s = Some d -> _xgroups s = Some xg -> _tgroups s = Some tg ->
  _estimator s = Some e ->
  __name__ e = Some name -> String.eqb name "entropy" = false ->
  fst (x_lags s) = Ok (PyInt nx) -> fst (t_lags s) = Ok (PyInt nt) ->
  (forall x t c, x < Z.to_nat nx -> t < Z.to_nat nt ->
     cell_members d xg tg x t = Ok c -> exists v, call e c = Ok v) ->
  exists z, experimental s = (Ok z, s) /\
    shape z = [Z.to_nat nx * Z.to_nat nt].
Proof.
  intros Ha Hd Hxg Htg He Hname Hent Hnx Hnt Hcall.
  destruct (experimental_aligned_ok s d xg tg e name nx nt Ha Hd Hxg Htg He
              Hname Hent Hnx Hnt Hcall) as [z Ez].
  exists z. split; [exact Ez|].
  destruct (experimental_cells s d xg tg nx nt z s Hd Hxg Htg Hnx Hnt Ez)
    as (_ & _ & _ & Hsh & _).
  exact Hsh.
Qed.

(** X16.  Entry x * t_lags + t of the array the surface read returns is the
    value the estimator returned on the members of cell (x, t): the tensor
    entries whose row is in space lag class x and whose column is in time
    lag class t, row by row. *)
Theorem surface_cell_value s d xg tg e (nx nt : Z) z s' x t :
  _diff s = Some d -> _xgroups s = Some xg -> _tgroups s = Some tg ->
  _estimator s = Some e ->
  fst (x_lags s) = Ok (PyInt nx) -> fst (t_lags s) = Ok (PyInt nt) ->
  experimental s = (Ok z, s') ->
  x < Z.to_nat nx -> t < Z.to_nat nt ->
  exists c v, cell_members d xg tg x t = Ok c /\ call e c = Ok v /\
    data z !! (x * Z.to_nat nt + t) = Some v.
Proof.
  intros Hd Hxg Htg He Hnx Hnt Ez Hx Ht.
  destruct (experimental_cells s d xg tg nx nt z s' Hd Hxg Htg Hnx Hnt Ez)
    as (e' & He' & _ & _ & Hc).
  rewrite He in He'. inversion He'; subst e'. now apply Hc.
Qed.

Lemma for_list_all_ok {A B} (f : A -> M B) l s :
  Forall (fun a => exists b, f a s = (Ok b, s)) l ->
  exists bs, for_list f l s = (Ok bs, s).
Proof.
  induction 1 as [|a l [b Hb] _ [bs IH]]; [now exists []|].
  exists (b :: bs). cbn [for_list]. unfold bind. now rewrite Hb, IH.
Qed.

Lemma for_list_raise_at {A B} (f : A -> M B) l1 a l2 s err :
  Forall (fun a' => exists b, f a' s = (Ok b, s)) l1 ->
  f a s = (Raise err, s) ->
  for_list f (l1 ++ a :: l2) s = (Raise err, s).
Proof.
  intros Hok Ha. induction Hok as [|a' l1 [b Hb] _ IH].
  - cbn [app for_list]. unfold bind. now rewrite Ha.
  - cbn [app for_list]. unfold bind at 1. rewrite Hb. unfold bind at 1.
    now rewrite IH.
Qed.

Lemma range_split n k : k < n -> range n = seq 0 k ++ k :: seq (S k) (n - S k).
Proof.
  intros Hk. unfold range. replace n with (k + S (n - S k)) at 1 by lia.
  now rewrite seq_app.
Qed.

(** X20.  The estimator's exception leaves the surface read: on an instance
    with tensor and groups cached, when the estimator returns on every cell
    that comes before cell (x, t) in the order of the generator and raises
    on the members of cell (x, t), reading the surface raises that
    exception and leaves the instance as it is. *)
Theorem experimental_estimator_raises s d xg tg e name (nx nt : Z) x t c err :
  _diff s = Some d -> _xgroups s = Some xg -> _tgroups s = Some tg ->
  _estimator s = Some e ->
  __name__ e = Some name -> String.eqb name "entropy" = false ->
  fst (x_lags s) = Ok (PyInt nx) -> fst (t_lags s) = Ok (PyInt nt) ->
  x < Z.to_nat nx -> t < Z.to_nat nt ->
  (forall x' t', x' < x \/ (x' = x /\ t' < t) -> t' < Z.to_nat nt ->
     exists c' v, cell_members d xg tg x' t' = Ok c' /\ call e c' = Ok v) ->
  cell_members d xg tg x t = Ok c -> call e c = Raise err ->
  experimental s = (Raise err, s).
Proof.
  intros Hd Hxg Htg He Hname Hent Hnx Hnt Hx Ht Hbefore Hc Herr.
  unfold experimental, _get_experimental, estimator.
  rewrite (bind_ok _ _ s (Some e) s) by (unfold attr; now rewrite He).
  rewrite (bind_ok _ _ s e s) by reflexivity. rewrite Hname.
  rewrite (bind_ok _ _ s name s) by reflexivity. rewrite Hent.
  apply bind_raise.
  rewrite (lag_classes_cached apply_estimator s d xg tg nx nt
             apply_estimator_read_only Hd Hxg Htg Hnx Hnt).
  apply bind_raise.
  set (cell := fun x' t' =>
         let! vals := lift (cell_members d xg tg x' t') in
         apply_estimator vals).
  assert (Hok : forall x' t', x' < x \/ (x' = x /\ t' < t) ->
            t' < Z.to_nat nt -> exists v, cell x' t' s = (Ok v, s)).
  { intros x' t' Hlt Ht'. destruct (Hbefore x' t' Hlt Ht') as (c' & v & Ec & Ev).
    exists v. now apply (estimate_cell_ok s e _ c'). }
  rewrite (range_split (Z.to_nat nx) x Hx). apply for_list_raise_at.
  - apply Forall_forall. intros x' Hx'.
    apply list_elem_of_In, in_seq in Hx'.
    apply for_list_all_ok, Forall_forall. intros t' Ht'.
    apply list_elem_of_In, in_seq in Ht'. apply Hok; lia.
  - rewrite (range_split (Z.to_nat nt) t Ht). apply for_list_raise_at.
    + apply Forall_forall. intros t' Ht'.
      apply list_elem_of_In, in_seq in Ht'. apply Hok; lia.
    + subst cell. cbv beta. unfold bind, lift. rewrite Hc.
      now rewrite (apply_estimator_cached s e c He), Herr.
Qed.
End SurfaceReads.

(** ** Reading the surface twice *)

Section Idempotence.
Context `{Numeric} `{DistanceEngine}.
Local Open Scope py_scope.

Lemma lag_classes_keeps_estimator v :
  maintains (fun s => _estimator s = v) (lag_classes apply_estimator).
Proof.
  unfold lag_classes, lag_groups, _calc_group, _calc_diff, xbins, tbins,
    xdistance, tdistance, __calc_xdist, __calc_tdist, x_lags, t_lags, maxlag,
    xdist_func, tdist_func, values_shape1, values, size, setitem_diff,
    diff_select, apply_estimator, estimator.
  keep.
Qed.

Lemma cells_of_read_only {B} (consume : list V -> M B) xgrp tgrp :
  (forall vals, read_only (consume vals)) ->
  read_only (cells_of consume xgrp tgrp).
Proof.
  intros Hro. unfold cells_of, x_lags.
  apply read_only_bind; [apply read_only_attr|]. intros xl.
  apply read_only_bind; [apply read_only_lift|]. intros xr.
  apply read_only_bind; [|intros; apply read_only_ret].
  apply read_only_for_list. intros x.
  apply read_only_bind; [apply t_lags_read_only|]. intros tl.
  apply read_only_bind; [apply read_only_lift|]. intros tr.
  apply read_only_for_list. intros t.
  apply read_only_bind; [apply diff_select_read_only|exact Hro].
Qed.

Lemma lag_groups_space_inv s g s' :
  lag_groups (PyStr "space") s = (Ok g, s') ->
  g = _xgroups s' /\ _xgroups s' <> None /\
  (_diff s <> None -> _diff s' <> None).
Proof.
  unfold lag_groups. change (parse_axis "space") with (Some AxSpace).
  cbv iota. intros E.
  apply bind_ok_inv in E as (g0 & s0 & E0 & E). inversion E0; subst; clear E0.
  apply bind_ok_inv in E as ([] & s1 & E1 & E). inversion E; subst; clear E.
  split; [reflexivity|].
  destruct (_xgroups s0) as [xg|] eqn:Eg; cbn [is_none] in E1.
  - inversion E1; subst. rewrite Eg. split; [discriminate|auto].
  - split; [now apply calc_group_caches_space in E1|].
    intros Hd. exact (run_keeps _ _ _ _ _
      (calc_group_keeps_diff (fun o => o <> None) "space" false) Hd E1).
Qed.

Lemma lag_groups_time_inv s g s' :
  lag_groups (PyStr "time") s = (Ok g, s') ->
  g = _tgroups s' /\ _tgroups s' <> None /\
  (_diff s <> None -> _diff s' <> None) /\ _xgroups s' = _xgroups s.
Proof.
  unfold lag_groups. change (parse_axis "time") with (Some AxTime).
  cbv iota. intros E.
  apply bind_ok_inv in E as (g0 & s0 & E0 & E). inversion E0; subst; clear E0.
  apply bind_ok_inv in E as ([] & s1 & E1 & E). inversion E; subst; clear E.
  split; [reflexivity|].
  destruct (_tgroups s0) as [tg|] eqn:Eg; cbn [is_none] in E1.
  - inversion E1; subst. rewrite Eg. split; [discriminate|]. split; auto.
  - split; [now apply calc_group_caches_time in E1|]. split.
    + intros Hd. exact (run_keeps _ _ _ _ _
        (calc_group_keeps_diff (fun o => o <> None) "time" false) Hd E1).
    + exact (run_keeps _ _ _ _ _
        (calc_group_time_keeps_xgroups (fun o => o = _xgroups s0) false)
        eq_refl E1).
Qed.

Lemma lag_groups_space_cached s :
  _xgroups s <> None -> lag_groups (PyStr "space") s = (Ok (_xgroups s), s).
Proof.
  intros Hg. unfold lag_groups. change (parse_axis "space") with (Some AxSpace).
  cbv iota. mstep. destruct (_xgroups s) eqn:E; [|contradiction].
  cbn [is_none]. mstep. unfold attr. now rewrite E.
Qed.

Lemma lag_groups_time_cached s :
  _tgroups s <> None -> lag_groups (PyStr "time") s = (Ok (_tgroups s), s).
Proof.
  intros Hg. unfold lag_groups. change (parse_axis "time") with (Some AxTime).
  cbv iota. mstep. destruct (_tgroups s) eqn:E; [|contradiction].
  cbn [is_none]. mstep. unfold attr. now rewrite E.
Qed.

(** once the generator has run to its end, running it again hands the same
    cells to the consumer and changes nothing *)
Lemma lag_classes_again {B} (consume : list V -> M B) s (cells : list B) s1 :
  (forall vals, read_only (consume vals)) ->
  lag_classes consume s = (Ok cells, s1) ->
  lag_classes consume s1 = (Ok cells, s1).
Proof.
  intros Hro E. unfold lag_classes in E.
  apply bind_ok_inv in E as (df & s0 & E0 & E). inversion E0; subst; clear E0.
  apply bind_ok_inv in E as ([] & sa & Ea & E).
  assert (Hda : _diff sa <> None).
  { destruct (_diff s0) as [d|] eqn:Ed; cbn [is_none] in Ea.
    - inversion Ea; subst. now rewrite Ed.
    - now apply calc_diff_caches in Ea. }
  apply bind_ok_inv in E as (xgrp & sb & Eb & E).
  apply lag_groups_space_inv in Eb as (-> & Hxb & Hdb).
  specialize (Hdb Hda).
  apply bind_ok_inv in E as (tgrp & sc & Ec & E).
  apply lag_groups_time_inv in Ec as (-> & Htc & Hdc & Hxc).
  specialize (Hdc Hdb). rewrite <- Hxc in *.
  change (cells_of consume (_xgroups sc) (_tgroups sc) sc = (Ok cells, s1))
    in E.
  pose proof (cells_of_read_only consume (_xgroups sc) (_tgroups sc) Hro sc)
    as R.
  rewrite E in R. cbn in R. subst s1.
  unfold lag_classes. mstep.
  destruct (_diff sc) as [d|] eqn:Ed; [|contradiction]. cbn [is_none].
  mstep. rewrite (bind_ok _ _ _ _ _ (lag_groups_space_cached sc Hxb)).
  rewrite (bind_ok _ _ _ _ _ (lag_groups_time_cached sc Htc)).
  exact E.
Qed.

(** X4.  A surface read that succeeds can be repeated: the second read
    returns the same array and leaves the instance as the first read left
    it. *)
Theorem experimental_read_twice s z s1 :
  experimental s = (Ok z, s1) -> experimental s1 = (Ok z, s1).
Proof.
  unfold experimental, _get_experimental, estimator. intros E.
  apply bind_ok_inv in E as (eo & s0 & E0 & E). inversion E0; subst; clear E0.
  destruct (_estimator s0) as [e|] eqn:He; [|discriminate].
  apply bind_ok_inv in E as (e' & ? & E0 & E). inversion E0; subst; clear E0.
  destruct (__name__ e') as [name|] eqn:Hname; [|discriminate].
  apply bind_ok_inv in E as (name' & ? & E0 & E).
  inversion E0; subst; clear E0.
  destruct (String.eqb name' "entropy") eqn:Hn; [discriminate|].
  apply bind_ok_inv in E as (zs & sa & Ea & E). inversion E; subst; clear E.
  pose proof (run_keeps _ _ _ _ _ (lag_classes_keeps_estimator (Some e'))
                He Ea) as Hea.
  apply (lag_classes_again _ _ _ _ apply_estimator_read_only) in Ea.
  rewrite (bind_ok _ _ s1 (Some e') s1) by (unfold attr; now rewrite Hea).
  rewrite (bind_ok _ _ s1 e' s1) by reflexivity. rewrite Hname.
  rewrite (bind_ok _ _ s1 name' s1) by reflexivity. rewrite Hn.
  rewrite (bind_ok _ _ _ _ _ Ea).
  reflexivity.
Qed.
End Idempotence.

(** ** Distances *)

Section Distances.
Context `{Numeric} `{DistanceEngine}.
Local Open Scope py_scope.

Lemma xdistance_ok_inv s xo s' :
  xdistance s = (Ok xo, s') ->
  exists xd, xo = Some xd /\ _xdist s' = Some xd /\
    s' = assign_xdist (Some xd) s.
Proof.
  unfold xdistance. intros E.
  apply bind_ok_inv in E as ([] & sa & Ea & E). inversion E; subst; clear E.
  apply calc_xdist_ok_inv in Ea as (xd & Hx & Hs). now exists xd.
Qed.

Lemma tdistance_ok_inv s to s' :
  tdistance s = (Ok to, s') ->
  exists td, to = Some td /\ _tdist s' = Some td /\
    s' = assign_tdist (Some td) s.
Proof.
  unfold tdistance. intros E.
  apply bind_ok_inv in E as ([] & sa & Ea & E). inversion E; subst; clear E.
  apply calc_tdist_ok_inv in Ea as (td & Ht & Hs). now exists td.
Qed.

(** X15.  The [distance] property caches what it computes: when it
    returns, both arrays are stored in the instance, nothing else has
    changed, and reading it again returns the same pair without touching the
    instance. *)
Theorem distance_read_twice s p s1 :
  distance s = (Ok p, s1) ->
  distance s1 = (Ok p, s1) /\
  exists xd td, p = (Some xd, Some td) /\
    s1 = assign_tdist (Some td) (assign_xdist (Some xd) s).
Proof.
  unfold distance. intros E.
  apply bind_ok_inv in E as (xo & sa & Ea & E).
  apply bind_ok_inv in E as (to & sb & Eb & E). inversion E; subst; clear E.
  apply xdistance_ok_inv in Ea as (xd & -> & Hx & ->).
  apply tdistance_ok_inv in Eb as (td & -> & Ht & ->).
  split; [|now exists xd, td].
  set (s1 := assign_tdist (Some td) (assign_xdist (Some xd) s)) in *.
  rewrite (bind_ok _ _ _ _ _ (xdistance_cached s1 xd Hx)).
  rewrite (bind_ok _ _ _ _ _ (tdistance_cached s1 td Ht)).
  reflexivity.
Qed.

Lemma time_coordinate t k :
  k < t ->
  nth k (zip_with (fun (i : nat) (z : Q) => [inject_Z (Z.of_nat i); z])
           (range t) (replicate t 0%Q)) []
  = [inject_Z (Z.of_nat k); 0%Q].
Proof.
  intros Hk. rewrite nth_lookup.
  assert (E : zip_with (fun (i : nat) (z : Q) => [inject_Z (Z.of_nat i); z])
                (range t) (replicate t 0%Q) !! k
              = Some [inject_Z (Z.of_nat k); 0%Q]).
  { apply lookup_zip_with_Some. exists k, 0%Q. split; [reflexivity|].
    split.
    - unfold range. apply lookup_seq. lia.
    - now apply lookup_replicate_2. }
  now rewrite E.
Qed.

(** X14.  The temporal distance array is computed on synthetic time
    coordinates: for a value matrix of t time steps its b-th entry is the
    configured metric between (ti, 0) and (tj, 0), where (ti, tj) is the
    b-th pair of the strict upper triangle, and it has t(t-1)/2 entries. *)
Theorem tdistance_time_coordinates s (v : ndarray V) n t name f :
  _tdist s = None ->
  _values s = Some v -> shape v = [n; t] ->
  _tdist_func s = Some name -> metric name = Some f ->
  exists td,
    tdistance s = (Ok (Some td), assign_tdist (Some td) s) /\
    length td = t * (t - 1) / 2 /\
    forall b ti tj, triu t !! b = Some (ti, tj) ->
      td !! b = Some (f [inject_Z (Z.of_nat ti); 0%Q]
                        [inject_Z (Z.of_nat tj); 0%Q]).
Proof.
  intros Hc Hv Hsh Hname Hf.
  pose proof (values_shape1_ok s v n t Hv Hsh) as Hn.
  set (coords := zip_with (fun (i : nat) (z : Q) => [inject_Z (Z.of_nat i); z])
                   (range t) (replicate t 0%Q)).
  assert (Hlen : length coords = t).
  { subst coords. rewrite length_zip_with, length_replicate. unfold range.
    rewrite length_seq. apply Nat.min_id. }
  exists (map (fun ij => f (nth (fst ij) coords []) (nth (snd ij) coords []))
            (triu (length coords))).
  split; [|split].
  - set (td := map _ _).
    assert (E : __calc_tdist false s = (Ok tt, assign_tdist (Some td) s)).
    { unfold __calc_tdist, tdist_func. mstep. rewrite Hc. cbn [is_none orb].
      do 3 mstep. rewrite Hname. mstep. unfold pdist. rewrite Hf. mstep.
      reflexivity. }
    unfold tdistance. rewrite (bind_ok _ _ _ _ _ E). reflexivity.
  - rewrite length_map, Hlen. apply triu_length.
  - intros b ti tj Hb. rewrite Hlen, list_lookup_fmap, Hb. cbn.
    assert (Hij : ti < tj /\ tj < t).
    { apply triu_bounds, list_elem_of_In. eapply list_elem_of_lookup_2, Hb. }
    subst coords. rewrite !time_coordinate by lia. reflexivity.
Qed.
End Distances.

(** ** Marginals never recompute *)

Section Marginals.
Context `{Numeric}.
Local Open Scope py_scope.

Lemma get_member_read_only xlag tlag : read_only (_get_member xlag tlag).
Proof.
  unfold _get_member, need.
  apply read_only_bind; [apply read_only_attr|]. intros xg.
  apply read_only_bind; [apply read_only_attr|]. intros tg.
  apply read_only_bind; [apply read_only_attr|]. intros [d|].
  - apply read_only_bind; [apply read_only_ret|]. intros d'.
    apply read_only_lift.
  - apply read_only_bind; [apply read_only_raise|]. intros d'.
    apply read_only_lift.
Qed.

Lemma t_lags_ro : read_only t_lags.
Proof.
  unfold t_lags, values_shape1, values, need.
  apply read_only_bind; [apply read_only_attr|].
  intros [| | |str| |]; try apply read_only_ret.
  destruct (String.eqb (lower str) "max"); [|apply read_only_raise].
  apply read_only_bind; [|intros; apply read_only_ret].
  apply read_only_bind; [apply read_only_attr|]. intros [v|].
  - apply read_only_bind; [apply read_only_ret|]. intros a.
    destruct (shape a) as [|? [|? ?]];
      first [apply read_only_ret | apply read_only_raise].
  - apply read_only_bind; [apply read_only_raise|]. intros a.
    destruct (shape a) as [|? [|? ?]];
      first [apply read_only_ret | apply read_only_raise].
Qed.

(** X11.  [get_marginal] never changes the instance, whatever its
    arguments and outcome: unlike the surface read it starts no
    recomputation of a dropped cache. *)
Theorem get_marginal_changes_nothing axis lag s :
  snd (get_marginal axis lag s) = s.
Proof.
  revert s. change (read_only (get_marginal axis lag)).
  unfold get_marginal, x_lags.
  destruct axis as [| | |a| |]; try apply read_only_raise.
  destruct (String.eqb (lower a) "space" || String.eqb (lower a) "s").
  - apply read_only_bind; [apply read_only_attr|]. intros xl.
    apply read_only_bind; [apply read_only_lift|]. intros r.
    apply read_only_bind; [|intros; apply read_only_ret].
    apply read_only_for_list. intros i.
    apply read_only_bind; [apply get_member_read_only|]. intros m.
    apply apply_estimator_read_only.
  - destruct (String.eqb (lower a) "time" || String.eqb (lower a) "t");
      [|apply read_only_raise].
    apply read_only_bind; [apply t_lags_ro|]. intros tl.
    apply read_only_bind; [apply read_only_lift|]. intros r.
    apply read_only_bind; [|intros; apply read_only_ret].
    apply read_only_for_list. intros j.
    apply read_only_bind; [apply get_member_read_only|]. intros m.
    apply apply_estimator_read_only.
Qed.

Lemma select2_no_rows {A : Type} (a : ndarray A) r c cols :
  shape a = [r; c] -> (forall j, j ∈ cols -> j < c) ->
  select2 a [] cols = Ok [].
Proof.
  intros Hsh Hc. unfold select2. rewrite Hsh. cbn [forallb andb].
  assert (forallb (fun j => j <? c) cols = true) as ->; [|reflexivity].
  apply forallb_forall. intros j Hj. apply Nat.ltb_lt, Hc.
  now apply list_elem_of_In.
Qed.

Lemma map_const_seq {A : Type} (v : A) k n :
  map (fun _ : nat => v) (seq k n) = replicate n v.
Proof.
  revert k. induction n as [|n IH]; intros k; [reflexivity|].
  cbn [seq map replicate]. now rewrite IH.
Qed.

(** X12.  With the spatial groups dropped (as after assigning [x_lags]) but
    the tensor and the temporal groups still cached, the space marginal
    recomputes nothing and selects no tensor entry: each of its x_lags
    entries is what the estimator returns on an empty sequence, and when the
    estimator raises on an empty sequence and x_lags is positive, that
    exception leaves [get_marginal]. *)
Theorem get_marginal_with_dropped_groups s (d : ndarray V) r c tg e
    (nx lag : Z) :
  _xgroups s = None ->
  _diff s = Some d -> shape d = [r; c] ->
  _tgroups s = Some tg -> length tg <= c ->
  _estimator s = Some e ->
  fst (x_lags s) = Ok (PyInt nx) ->
  get_marginal (PyStr "space") lag s
  = (match call e [] with
     | Ok v => Ok (fromiter (replicate (Z.to_nat nx) v))
     | Raise err => if (0 <? nx)%Z then Raise err else Ok (fromiter [])
     end, s).
Proof.
  intros Hxg Hd Hsh Htg Hle He Hnx. unfold x_lags, attr in Hnx. cbn in Hnx.
  inversion Hnx as [Hxl]. unfold get_marginal.
  change (String.eqb (lower "space") "space"
          || String.eqb (lower "space") "s") with true.
  cbv iota. unfold x_lags. mstep. rewrite Hxl. mstep.
  assert (Hcell : forall i,
            (let! m := _get_member (Z.of_nat i) lag in apply_estimator m) s
            = (call e [], s)).
  { intros i. rewrite (bind_ok _ _ s [] s).
    - now apply apply_estimator_cached.
    - unfold _get_member. do 3 mstep. rewrite Hxg, Htg, Hd. mstep.
      unfold lift. f_equal. cbn [where_eq_opt].
      apply (select2_no_rows d r c); [exact Hsh|].
      intros j Hj. apply where_eq_bound in Hj. lia. }
  destruct (call e []) as [v|err] eqn:Ev.
  - rewrite (bind_ok _ _ s (replicate (Z.to_nat nx) v) s); [reflexivity|].
    unfold range. rewrite <- (map_const_seq v 0).
    apply for_list_map_ok. intros i _. apply Hcell.
  - destruct (0 <? nx)%Z eqn:Hpos.
    + apply Z.ltb_lt in Hpos.
      destruct (Z.to_nat nx) as [|n] eqn:En; [lia|].
      unfold range. cbn [seq for_list]. unfold bind at 1.
      unfold bind at 1. now rewrite Hcell.
    + apply Z.ltb_ge in Hpos.
      assert (Z.to_nat nx = 0) as -> by lia. reflexivity.
Qed.
End Marginals.

(** ** Bin edges, lag counts and groups *)

Section BinSetters.
Context `{Numeric} `{DistanceEngine} `{!Binning}.
Local Open Scope py_scope.

(** [xdistance] reads no field but the cache, the metric and the
    coordinates *)
Lemma xdistance_frame s s' :
  _xdist s' = _xdist s -> _xdist_func s' = _xdist_func s -> _X s' = _X s ->
  fst (xdistance s') = fst (xdistance s).
Proof.
  intros Ea Eb Ec. unfold xdistance, __calc_xdist, xdist_func. munfold.
  rewrite Ea. destruct (_xdist s) as [xd|] eqn:E; cbn.
  - now rewrite Ea, E.
  - rewrite Eb, Ec. destruct (_xdist_func s) as [name|]; cbn;
      [|reflexivity].
    destruct (pdist (_X s) name); reflexivity.
Qed.

(** a successful distance read changes at most the distance cache *)
Lemma xdistance_ok_state s xd s' :
  xdistance s = (Ok (Some xd), s') -> s' = assign_xdist (Some xd) s.
Proof.
  unfold xdistance. intros E.
  apply bind_ok_inv in E as ([] & sa & Ea & E). inversion E; subst; clear E.
  apply calc_xdist_ok_inv in Ea as (xd' & Hx & Hs).
  congruence.
Qed.

(** grouping with dropped groups, cached edges and readable distances *)
Lemma lag_groups_space_fresh s edges xd :
  _xgroups s = None -> _xbins s = Some edges ->
  fst (xdistance s) = Ok (Some xd) ->
  lag_groups (PyStr "space") s
  = (Ok (Some (classify xd edges)),
     assign_xgroups (Some (classify xd edges)) (assign_xdist (Some xd) s)).
Proof.
  intros Hg Hb Hx. destruct (xdistance s) as [r sx] eqn:Ex. cbn in Hx.
  subst r. pose proof (xdistance_ok_state _ _ _ Ex) as ->.
  unfold lag_groups. change (parse_axis "space") with (Some AxSpace).
  cbv iota. mstep. rewrite Hg. cbn [is_none].
  assert (Eb : xbins s = (Ok (Some edges), s)).
  { unfold xbins. mstep. rewrite Hb. cbn [is_none]. mstep.
    unfold attr. now rewrite Hb. }
  assert (Ec : _calc_group "space" false s
               = (Ok tt, assign_xgroups (Some (classify xd edges))
                           (assign_xdist (Some xd) s))).
  { unfold _calc_group. change (parse_axis "space") with (Some AxSpace).
    cbv iota. mstep. rewrite Hg. cbn [is_none negb andb].
    rewrite (bind_ok _ _ _ _ _ Eb). rewrite (bind_ok _ _ _ _ _ Ex).
    reflexivity. }
  rewrite (bind_ok _ _ _ _ _ Ec). reflexivity.
Qed.

(** X8.  Assigning a sequence of edges to [xbins] (resp. [tbins]) always
    succeeds; afterwards the getter returns exactly these edges without
    computing anything, the lag count of that axis is their number, and the
    groups of that axis are dropped. *)
Theorem bins_setter_roundtrip edges s :
  (let s1 := snd (xbins_setter (PySeq edges) s) in
   fst (xbins_setter (PySeq edges) s) = Ok tt /\
   xbins s1 = (Ok (Some edges), s1) /\
   x_lags s1 = (Ok (PyInt (Z.of_nat (length edges))), s1) /\
   _xgroups s1 = None) /\
  (let s1 := snd (tbins_setter (PySeq edges) s) in
   fst (tbins_setter (PySeq edges) s) = Ok tt /\
   tbins s1 = (Ok (Some edges), s1) /\
   t_lags s1 = (Ok (PyInt (Z.of_nat (length edges))), s1) /\
   _tgroups s1 = None).
Proof.
  split; cbv zeta; repeat split; reflexivity.
Qed.

(** X9.  After assigning explicit edges to [xbins], the spatial groups are
    recomputed on the next read from the instance's spatial distances and
    exactly these edges. *)
Theorem xbins_setter_regroups edges s xd :
  fst (xdistance s) = Ok (Some xd) ->
  fst (lag_groups (PyStr "space") (snd (xbins_setter (PySeq edges) s)))
  = Ok (Some (classify xd edges)).
Proof.
  intros Hx. erewrite lag_groups_space_fresh; [reflexivity..|].
  rewrite <- Hx. now apply xdistance_frame.
Qed.

(** X10.  After assigning a lag count to [x_lags], the next read of [xbins]
    calls the spatial binning function with the spatial distances, the new
    count and the maximum lag, and the next read of the spatial groups
    classifies the distances by the edges it returns. *)
Theorem x_lags_setter_rebins (n : Z) s f xd edges :
  _xbin_func s = Some f ->
  fst (xdistance s) = Ok (Some xd) ->
  f xd (PyInt n) (_maxlag s) = Ok edges ->
  let s1 := snd (x_lags_setter (PyInt n) s) in
  fst (x_lags_setter (PyInt n) s) = Ok tt /\
  fst (xbins s1) = Ok (Some edges) /\
  fst (lag_groups (PyStr "space") s1) = Ok (Some (classify xd edges)).
Proof.
  intros Hf Hx Hedges s1. split; [reflexivity|].
  assert (Hx1 : fst (xdistance s1) = Ok (Some xd)).
  { rewrite <- Hx. now apply xdistance_frame. }
  destruct (xdistance s1) as [r s2] eqn:Ex. cbn in Hx1. subst r.
  pose proof (xdistance_ok_state _ _ _ Ex) as ->.
  set (s2 := assign_xdist (Some xd) s1) in *.
  assert (Eb : xbins s1 = (Ok (Some edges), assign_xbins (Some edges) s2)).
  { unfold xbins. mstep. change (_xbins s1) with (@None (list Q)).
    cbn [is_none].
    erewrite bind_ok; cycle 1.
    { mstep. rewrite (bind_ok _ _ _ _ _ Ex). unfold x_lags, maxlag.
      do 2 mstep. change (_xbin_func s1) with (_xbin_func s). rewrite Hf.
      mstep. unfold need at 1. mstep.
      change (_x_lags s2) with (PyInt n).
      change (_maxlag s2) with (_maxlag s).
      rewrite Hedges. mstep. reflexivity. }
    reflexivity. }
  split; [now rewrite Eb|].
  unfold lag_groups. change (parse_axis "space") with (Some AxSpace).
  cbv iota. mstep. change (_xgroups s1) with (@None (list Z)).
  cbn [is_none].
  erewrite bind_ok; cycle 1.
  { unfold _calc_group. change (parse_axis "space") with (Some AxSpace).
    cbv iota. mstep. change (_xgroups s1) with (@None (list Z)).
    cbn [is_none negb andb].
    rewrite (bind_ok _ _ _ _ _ Eb).
    rewrite (bind_ok _ _ _ _ _
               (xdistance_cached (assign_xbins (Some edges) s2) xd eq_refl)).
    reflexivity. }
  reflexivity.
Qed.

(** X13.  [set_xdist_func] drops the cached spatial distances only: bin
    edges and groups computed with the previous metric stay cached, and
    [xbins] and the spatial groups keep returning them. *)
Theorem set_xdist_func_keeps_bins_and_groups name s b g :
  _xbins s = Some b -> _xgroups s = Some g ->
  let s1 := snd (set_xdist_func (PyStr name) s) in
  fst (set_xdist_func (PyStr name) s) = Ok tt /\
  _xdist s1 = None /\
  xbins s1 = (Ok (Some b), s1) /\
  lag_groups (PyStr "space") s1 = (Ok (Some g), s1).
Proof.
  intros Hb Hg s1. split; [reflexivity|]. split; [reflexivity|].
  assert (Hb1 : _xbins s1 = Some b) by exact Hb.
  assert (Hg1 : _xgroups s1 = Some g) by exact Hg.
  split.
  - unfold xbins. mstep. rewrite Hb1. cbn [is_none]. mstep.
    unfold attr. now rewrite Hb1.
  - rewrite lag_groups_space_cached; [now rewrite Hg1|].
    now rewrite Hg1.
Qed.
(** X17.  A [maxlag] below 1 is taken as a fraction of the largest spatial
    distance: the setter stores their product, and the next read of [xbins]
    calls the spatial binning function with it. *)
Theorem maxlag_fraction_rebins (r : Q) s f xd m edges :
  Qgt_bool 1 r = true ->
  fst (xdistance s) = Ok (Some xd) -> np_max xd = Ok m ->
  _xbin_func s = Some f ->
  f xd (_x_lags s) (Some (fmul r m)) = Ok edges ->
  let s1 := snd (maxlag_setter (PyFloat r) s) in
  fst (maxlag_setter (PyFloat r) s) = Ok tt /\
  fst (maxlag s1) = Ok (Some (fmul r m)) /\
  fst (xbins s1) = Ok (Some edges).
Proof.
  intros Hr Hx Hm Hf Hedges.
  set (s0 := assign_xgroups None
               (assign_xbins None (assign_cof None (assign_cov None s)))).
  assert (Hx0 : fst (xdistance s0) = Ok (Some xd)).
  { rewrite <- Hx. now apply xdistance_frame. }
  destruct (xdistance s0) as [rx s0x] eqn:Ex. cbn in Hx0. subst rx.
  pose proof (xdistance_ok_state _ _ _ Ex) as ->.
  set (s2 := assign_maxlag (Some (fmul r m)) (assign_xdist (Some xd) s0)).
  assert (Es : maxlag_setter (PyFloat r) s = (Ok tt, s2)).
  { unfold maxlag_setter. do 4 mstep. fold s0. unfold maxlag_number.
    rewrite Hr. rewrite (bind_ok _ _ _ _ _ Ex). unfold need at 1. mstep.
    unfold lift at 1. rewrite Hm. mstep. reflexivity. }
  rewrite Es. cbv zeta. cbn [fst snd]. split; [reflexivity|].
  split; [reflexivity|].
  unfold xbins. mstep. change (_xbins s2) with (@None (list Q)).
  cbn [is_none].
  erewrite bind_ok; cycle 1.
  { mstep. rewrite (bind_ok _ _ _ _ _ (xdistance_cached s2 xd eq_refl)).
    unfold x_lags, maxlag. do 2 mstep.
    change (_xbin_func s2) with (_xbin_func s). rewrite Hf.
    mstep. unfold need at 1. mstep.
    change (_x_lags s2) with (_x_lags s).
    change (_maxlag s2) with (Some (fmul r m)).
    rewrite Hedges. mstep. reflexivity. }
  reflexivity.
Qed.

(** X18.  With the distances, the tensor and both group arrays cached, an
    unforced preprocessing run computes nothing: it returns normally and
    leaves the instance as it is. *)
Theorem preprocessing_unforced_noop s :
  _xdist s <> None -> _tdist s <> None -> _diff s <> None ->
  _xgroups s <> None -> _tgroups s <> None ->
  preprocessing false s = (Ok tt, s).
Proof.
  intros Hxd Htd Hd Hxg Htg. unfold preprocessing.
  assert (E1 : __calc_xdist false s = (Ok tt, s)).
  { unfold __calc_xdist. mstep. now destruct (_xdist s). }
  assert (E2 : __calc_tdist false s = (Ok tt, s)).
  { unfold __calc_tdist. mstep. now destruct (_tdist s). }
  assert (E3 : _calc_diff false s = (Ok tt, s)).
  { unfold _calc_diff. mstep. now destruct (_diff s). }
  assert (E4 : _calc_group "space" false s = (Ok tt, s)).
  { unfold _calc_group. change (parse_axis "space") with (Some AxSpace).
    cbv iota. mstep. now destruct (_xgroups s). }
  assert (E5 : _calc_group "time" false s = (Ok tt, s)).
  { unfold _calc_group. change (parse_axis "time") with (Some AxTime).
    cbv iota. mstep. now destruct (_tgroups s). }
  rewrite (bind_ok _ _ _ _ _ E1), (bind_ok _ _ _ _ _ E2),
    (bind_ok _ _ _ _ _ E3), (bind_ok _ _ _ _ _ E4).
  exact E5.
Qed.
End BinSetters.

(** ** The further properties on concrete inputs *)

Section MoreWitnesses.
Import Example.
#[local] Existing Instance numeric.
#[local] Existing Instance distance_engine.
#[local] Existing Instance binning.
#[local] Existing Instance estimators.

Lemma preprocessing_aligns_witness :
  fst (preprocessing true (snd stv3)) = Ok tt /\
  aligned (snd (preprocessing true (snd stv3))).
Proof.
  assert (E : preprocessing true (snd stv3)
              = (Ok tt, snd (preprocessing true (snd stv3))))
    by (vm_compute; reflexivity).
  split; [vm_compute; reflexivity|].
  exact (preprocessing_aligns (snd stv3) _ E).
Defined.

Lemma init_aligned_witness :
  aligned (snd (__init__ coords3 values33 (PyStr "cityblock")
                  (PyStr "cityblock") (PyInt 2) (PyInt 2) PyNone
                  (PyStr "even") (PyStr "even") (PyStr "matheron") false)).
Proof.
  apply (init_aligned coords3 values33 (PyStr "cityblock")
           (PyStr "cityblock") (PyInt 2) (PyInt 2) PyNone (PyStr "even")
           (PyStr "even") (PyStr "matheron") false).
  vm_compute. reflexivity.
Defined.

Lemma init_diff_tensor_witness :
  length coords3 = 3 /\ 1 < 3 /\
  exists d,
    _diff (snd (__init__ coords3 values33 (PyStr "cityblock")
                  (PyStr "cityblock") (PyInt 2) (PyInt 2) PyNone
                  (PyStr "even") (PyStr "even") (PyStr "matheron") false))
    = Some d /\
    shape d = [3 * (3 - 1) / 2; 3 * (3 - 1) / 2] /\
    forall a b i j ti tj,
      triu 3 !! a = Some (i, j) -> triu 3 !! b = Some (ti, tj) ->
      exists x y,
        getitem2 values33 i ti = Ok x /\ getitem2 values33 j tj = Ok y /\
        getitem2 d a b = Ok (sub x y).
Proof.
  apply (init_diff_tensor coords3 values33 3 3 (PyStr "cityblock")
           (PyStr "cityblock") (PyInt 2) (PyInt 2) PyNone (PyStr "even")
           (PyStr "even") (PyStr "matheron") false).
  - reflexivity.
  - reflexivity.
  - vm_compute. reflexivity.
Defined.

Lemma experimental_succeeds_witness :
  exists z, experimental (snd stv3) = (Ok z, snd stv3) /\
    shape z = [Z.to_nat 2 * Z.to_nat 2].
Proof.
  refine (experimental_succeeds (snd stv3)
            (mk_ndarray float64 [3; 3]
               [q (-4); q (-8); q (-7); q (-1); q (-6); q (-5); q 1; q (-4);
                q (-2)])
            [0; 1; 0]%Z [0; 1; 0]%Z
            (mk_callable (Some "matheron") matheron) "matheron"
            2 2 _ _ _ _ _ _ _ _ _ _).
  - exists [1%Q; 2%Q; 1%Q], [1%Q; 2%Q; 1%Q],
      (mk_ndarray float64 [3; 3]
         [q (-4); q (-8); q (-7); q (-1); q (-6); q (-5); q 1; q (-4);
          q (-2)]),
      [0; 1; 0]%Z, [0; 1; 0]%Z.
    vm_compute. repeat split; reflexivity.
  - vm_compute. reflexivity.
  - vm_compute. reflexivity.
  - vm_compute. reflexivity.
  - vm_compute. reflexivity.
  - reflexivity.
  - reflexivity.
  - reflexivity.
  - reflexivity.
  - intros x t c _ _ _. cbn [call matheron estimators].
    unfold matheron_estimator. destruct c as [|v c]; [now eexists|].
    destruct (mapM _ (v :: c)); now eexists.
Defined.

Lemma experimental_read_twice_witness :
  let s := snd (x_lags_setter (PyInt 1) (snd stv3)) in
  let s1 := snd (experimental s) in
  _xgroups s = None /\ _xgroups s1 = Some [0; 0; 0]%Z /\
  experimental s1
  = (Ok (mk_ndarray float64 [2] [Some 8%Q; Some (58 # 3)]), s1).
Proof.
  cbv zeta. split; [reflexivity|]. split; [vm_compute; reflexivity|].
  apply (experimental_read_twice (snd (x_lags_setter (PyInt 1) (snd stv3)))).
  vm_compute. reflexivity.
Defined.

Lemma calc_group_last_class_wins_witness :
  classify [3 # 2] [3%Q; 1%Q; 2%Q] !! 0 = Some (Z.of_nat 2).
Proof.
  apply (calc_group_last_class_wins [3 # 2] [3%Q; 1%Q; 2%Q] 0 (3 # 2) 2).
  - reflexivity.
  - exists 1%Q, 2%Q. do 3 (split; [reflexivity|]). cbv. discriminate.
  - intros j Hj (lo & hi & _ & Hhi & _).
    destruct j as [|[|[|j]]]; [lia..|discriminate Hhi].
Defined.

Lemma cell_member_count_witness :
  length [q 1; q 3]
  = count (Z.eqb (Z.of_nat 0)) [0; 0]%Z * count (Z.eqb (Z.of_nat 0)) [0; 1]%Z.
Proof.
  apply (@cell_member_count numeric
           (mk_ndarray float64 [2; 2] [q 1; q 2; q 3; q 4])
           [0; 0]%Z [0; 1]%Z 0 0).
  reflexivity.
Defined.

Lemma xbins_setter_regroups_witness :
  fst (lag_groups (PyStr "space")
         (snd (xbins_setter (PySeq [1 # 2; 1%Q; 2%Q]) (snd stv3))))
  = Ok (Some (classify [1%Q; 2%Q; 1%Q] [1 # 2; 1%Q; 2%Q])).
Proof.
  apply (xbins_setter_regroups [1 # 2; 1%Q; 2%Q] (snd stv3)
           [1%Q; 2%Q; 1%Q]).
  vm_compute. reflexivity.
Defined.

Lemma x_lags_setter_rebins_witness :
  let s1 := snd (x_lags_setter (PyInt 1) (snd stv3)) in
  fst (x_lags_setter (PyInt 1) (snd stv3)) = Ok tt /\
  fst (xbins s1) = Ok (Some [2%Q]) /\
  fst (lag_groups (PyStr "space") s1)
  = Ok (Some (classify [1%Q; 2%Q; 1%Q] [2%Q])).
Proof.
  apply (x_lags_setter_rebins 1 (snd stv3) even_width [1%Q; 2%Q; 1%Q]
           [2%Q]).
  - vm_compute. reflexivity.
  - vm_compute. reflexivity.
  - vm_compute. reflexivity.
Defined.

Lemma get_marginal_with_dropped_groups_witness :
  let f := @mk_callable numeric (Some "first_value") first_value in
  let s := snd (x_lags_setter (PyInt 2)
                  (snd (set_estimator (PyFunc f) (snd stv3)))) in
  call f [] = Raise ValueError /\
  get_marginal (PyStr "space") 0 s = (Raise ValueError, s).
Proof.
  cbv zeta. split; [reflexivity|].
  apply (@get_marginal_with_dropped_groups numeric
           (snd (x_lags_setter (PyInt 2)
                   (snd (set_estimator
                           (PyFunc (@mk_callable numeric (Some "first_value")
                                      first_value)) (snd stv3)))))
           (mk_ndarray float64 [3; 3]
              [q (-4); q (-8); q (-7); q (-1); q (-6); q (-5); q 1; q (-4);
               q (-2)])
           3 3 [0; 1; 0]%Z (@mk_callable numeric (Some "first_value") first_value)
           2 0).
  - reflexivity.
  - vm_compute. reflexivity.
  - reflexivity.
  - vm_compute. reflexivity.
  - cbn. lia.
  - vm_compute. reflexivity.
  - reflexivity.
Defined.

Lemma set_xdist_func_keeps_bins_and_groups_witness :
  let s1 := snd (set_xdist_func (PyStr "chebyshev") (snd stv3)) in
  fst (set_xdist_func (PyStr "chebyshev") (snd stv3)) = Ok tt /\
  _xdist s1 = None /\
  xbins s1 = (Ok (Some [1%Q; 2%Q]), s1) /\
  lag_groups (PyStr "space") s1 = (Ok (Some [0; 1; 0]%Z), s1).
Proof.
  apply (set_xdist_func_keeps_bins_and_groups "chebyshev" (snd stv3)
           [1%Q; 2%Q] [0; 1; 0]%Z).
  - vm_compute. reflexivity.
  - vm_compute. reflexivity.
Defined.

Lemma tdistance_time_coordinates_witness :
  let s := snd (set_tdist_func (PyStr "chebyshev") (snd stv3)) in
  exists td,
    tdistance s = (Ok (Some td), assign_tdist (Some td) s) /\
    length td = 3 * (3 - 1) / 2 /\
    forall b ti tj, triu 3 !! b = Some (ti, tj) ->
      td !! b = Some (chebyshev [inject_Z (Z.of_nat ti); 0%Q]
                        [inject_Z (Z.of_nat tj); 0%Q]).
Proof.
  cbv zeta.
  apply (tdistance_time_coordinates
           (snd (set_tdist_func (PyStr "chebyshev") (snd stv3)))
           values33 3 3 "chebyshev" chebyshev).
  - reflexivity.
  - vm_compute. reflexivity.
  - reflexivity.
  - reflexivity.
  - reflexivity.
Defined.

Lemma distance_read_twice_witness :
  let s := snd (set_xdist_func (PyStr "chebyshev") (snd stv3)) in
  let p := (Some [1%Q; 2%Q; 1%Q], Some [1%Q; 2%Q; 1%Q]) in
  let s1 := snd (distance s) in
  distance s1 = (Ok p, s1) /\
  exists xd td, p = (Some xd, Some td) /\
    s1 = assign_tdist (Some td) (assign_xdist (Some xd) s).
Proof.
  cbv zeta.
  apply (distance_read_twice
           (snd (set_xdist_func (PyStr "chebyshev") (snd stv3)))).
  vm_compute. reflexivity.
Defined.

Lemma surface_cell_value_witness :
  exists c v,
    cell_members
      (mk_ndarray float64 [3; 3]
         [q (-4); q (-8); q (-7); q (-1); q (-6); q (-5); q 1; q (-4);
          q (-2)])
      [0; 1; 0]%Z [0; 1; 0]%Z 1 0 = Ok c /\
    call (mk_callable (Some "matheron") matheron) c = Ok v /\
    data surface3 !! (1 * Z.to_nat 2 + 0) = Some v.
Proof.
  apply (surface_cell_value (snd stv3) _ _ _ _ 2 2 surface3 (snd stv3)).
  - vm_compute. reflexivity.
  - vm_compute. reflexivity.
  - vm_compute. reflexivity.
  - vm_compute. reflexivity.
  - reflexivity.
  - reflexivity.
  - vm_compute. reflexivity.
  - cbn. lia.
  - cbn. lia.
Defined.

Lemma experimental_estimator_raises_witness :
  let f := @mk_callable numeric (Some "first_value") first_value in
  let s := snd (lag_groups (PyStr "space")
                  (snd (xbins_setter (PySeq [1%Q; 2%Q; 3%Q])
                          (snd (set_estimator (PyFunc f) (snd stv3)))))) in
  experimental s = (Raise ValueError, s).
Proof.
  cbv zeta.
  apply (@experimental_estimator_raises numeric distance_engine _
           (mk_ndarray float64 [3; 3]
              [q (-4); q (-8); q (-7); q (-1); q (-6); q (-5); q 1; q (-4);
               q (-2)])
           [0; 1; 0]%Z [0; 1; 0]%Z
           (@mk_callable numeric (Some "first_value") first_value)
           "first_value" 3 2 2 0 []).
  - vm_compute. reflexivity.
  - vm_compute. reflexivity.
  - vm_compute. reflexivity.
  - vm_compute. reflexivity.
  - reflexivity.
  - reflexivity.
  - vm_compute. reflexivity.
  - vm_compute. reflexivity.
  - cbn. lia.
  - cbn. lia.
  - intros x' t' Hlt Ht'. cbn in Ht'.
    assert (Hx' : x' < 2) by lia. clear Hlt.
    destruct x' as [|[|x']]; [| |lia];
      (destruct t' as [|[|t']]; [| |lia]); vm_compute; eexists _, _;
      split; reflexivity.
  - vm_compute. reflexivity.
  - reflexivity.
Defined.

Lemma maxlag_fraction_rebins_witness :
  let s1 := snd (maxlag_setter (PyFloat (1 # 2)) (snd stv3)) in
  fst (maxlag_setter (PyFloat (1 # 2)) (snd stv3)) = Ok tt /\
  fst (maxlag s1) = Ok (Some (fmul (1 # 2) 2%Q)) /\
  fst (xbins s1) = Ok (Some [1 # 2; 1%Q]).
Proof.
  apply (maxlag_fraction_rebins (1 # 2) (snd stv3) even_width
           [1%Q; 2%Q; 1%Q] 2%Q [1 # 2; 1%Q]).
  - reflexivity.
  - vm_compute. reflexivity.
  - reflexivity.
  - vm_compute. reflexivity.
  - vm_compute. reflexivity.
Defined.

Lemma preprocessing_unforced_noop_witness :
  preprocessing false (snd stv3) = (Ok tt, snd stv3).
Proof.
  apply (preprocessing_unforced_noop (snd stv3));
    vm_compute; discriminate.
Defined.
End MoreWitnesses.
